(** * inferno2stream: the monitoring API (config/monitor-api.py)

    A shallow embedding of the status-aggregation agent: the three log-tail
    parsers, the service prober, the config store, the routing-config
    reader and writer, the JSON views and the Prometheus registry they
    update, followed by the properties of the specification.

    Modelling conventions.
    - A Python [str] is a list of characters; characters are ASCII (code
      points below 128: for them [lower], [\s], [\d] and [strip] below are
      Python's).
    - A Python [int] is a [Z].  A Python [float] is a rational ([Q]):
      [float(text)] of a decimal capture and the true division of two ints
      are kept exact, and a rational at or beyond [Py.float_bound] stands
      for [inf]; [float(n)] of an int is rounded to the nearest double
      ([Py.float_of_int]).
    - An exception is a value of [exn]; code that may raise returns an
      [outcome].
    - The timestamps and the psutil readings of /system/info are left out
      of the views: nothing below depends on them.  The two uptimes are
      readings of the clock that the outside world supplies. *)

From Stdlib Require Import ZArith QArith Qround Qabs String Ascii List Lia Bool.
From stdpp Require Import gmap strings.
Import ListNotations.

Open Scope string_scope.
Open Scope list_scope.
Open Scope Z_scope.

(** ** Python values *)

Abbreviation str := (list ascii).
Coercion list_ascii_of_string : string >-> list.

Inductive exn :=
| ValueError
| IndexError
| ZeroDivisionError
| OSError
| OverflowError
| CalledProcessError
| TimeoutExpired.

Inductive outcome (A : Type) :=
| Ok (a : A)
| Raise (e : exn).
Arguments Ok {A} a.
Arguments Raise {A} e.

(** Sequencing: the first exception raised ends the computation.  The
    notation [x ← c; k] is stdpp's. *)
#[global] Instance outcome_ret : MRet outcome := fun A a => Ok a.
#[global] Instance outcome_bind : MBind outcome := fun A B f x =>
  match x with
  | Ok a => f a
  | Raise e => Raise e
  end.

(** ** String primitives *)

Module Py.

Definition code (c : ascii) : nat := nat_of_ascii c.

Definition nl : ascii := "010"%char.
Definition quote : ascii := "034"%char.

Definition is_digit (c : ascii) : bool :=
  ((48 <=? code c) && (code c <=? 57))%nat.

(** [str.isspace] on ASCII: tab to carriage return, the four separators
    FS GS RS US, and the blank. *)
Definition is_space (c : ascii) : bool :=
  (((9 <=? code c) && (code c <=? 13)) ||
   ((28 <=? code c) && (code c <=? 32)))%nat.

(** The white space [int()] and [float()] skip around an ASCII text (C's
    [isspace]): tab to carriage return and the blank, not the four
    separators. *)
Definition is_c_space (c : ascii) : bool :=
  (((9 <=? code c) && (code c <=? 13)) || (code c =? 32))%nat.

Definition is_upper (c : ascii) : bool :=
  ((65 <=? code c) && (code c <=? 90))%nat.

Definition lower_char (c : ascii) : ascii :=
  if is_upper c then ascii_of_nat (code c + 32) else c.

(** [s.lower()] *)
Definition lower (s : str) : str := map lower_char s.

(** [s.startswith(p)] *)
Fixpoint startswith (p s : str) : bool :=
  match p, s with
  | [], _ => true
  | a :: p', b :: s' => Ascii.eqb a b && startswith p' s'
  | _ :: _, [] => false
  end.

(** [s.endswith(p)] *)
Definition endswith (p s : str) : bool := startswith (rev p) (rev s).

(** [p in s] *)
Fixpoint contains (p s : str) : bool :=
  startswith p s ||
  match s with
  | [] => false
  | _ :: s' => contains p s'
  end.

Fixpoint lstrip_by (f : ascii -> bool) (s : str) : str :=
  match s with
  | [] => []
  | c :: s' => if f c then lstrip_by f s' else s
  end.

Definition strip_by (f : ascii -> bool) (s : str) : str :=
  rev (lstrip_by f (rev (lstrip_by f s))).

(** [s.strip()] *)
Definition strip (s : str) : str := strip_by is_space s.

(** [s.strip(chars)] *)
Definition strip_chars (chars s : str) : str :=
  strip_by (fun c => existsb (Ascii.eqb c) chars) s.

(** [s.split(sep)] for a one-character separator: never empty. *)
Fixpoint split (sep : ascii) (s : str) : list str :=
  match s with
  | [] => [[]]
  | c :: s' =>
      if Ascii.eqb c sep then [] :: split sep s'
      else match split sep s' with
           | [] => [[c]]
           | w :: ws => (c :: w) :: ws
           end
  end.

(** [s.split(sep, 1)] when [sep in s]: the text before the first
    separator and the text after it. *)
Fixpoint split1 (sep : ascii) (s : str) : str * str :=
  match s with
  | [] => ([], [])
  | c :: s' =>
      if Ascii.eqb c sep then ([], s')
      else let '(k, v) := split1 sep s' in (c :: k, v)
  end.

(** [l[i]] *)
Definition index {A} (l : list A) (i : nat) : outcome A :=
  match nth_error l i with
  | Some x => Ok x
  | None => Raise IndexError
  end.

(** [s[1:-1]] *)
Definition slice_1_m1 (s : str) : str := removelast (tl s).

(** The lines of a text file, each with its terminator: [f.readlines()]
    and the iteration [for line in f]. *)
Fixpoint splitlines (s : str) : list str :=
  match s with
  | [] => []
  | c :: s' =>
      if Ascii.eqb c nl then [c] :: splitlines s'
      else match splitlines s' with
           | [] => [[c]]
           | l :: ls => (c :: l) :: ls
           end
  end.

(** [l[-n:]] *)
Definition last_n {A} (n : nat) (l : list A) : list A :=
  skipn (length l - n) l.

(** *** Integers and their decimal text *)

Definition digit_val (c : ascii) : Z := Z.of_nat (code c - 48).
Definition digit_char (d : Z) : ascii := ascii_of_nat (48 + Z.to_nat d).

(** The digits of an [int] literal: underscores are allowed between two
    digits only. *)
Fixpoint int_body (s : str) (acc : Z) (after_digit : bool) : option Z :=
  match s with
  | [] => if after_digit then Some acc else None
  | c :: s' =>
      if is_digit c then int_body s' (10 * acc + digit_val c) true
      else if Ascii.eqb c "_"%char && after_digit then
        match s' with
        | d :: _ => if is_digit d then int_body s' acc false else None
        | [] => None
        end
      else None
  end.

(** [int(s)]: surrounding white space, an optional sign, decimal digits.
    Integers are unbounded (no limit on the number of digits). *)
Definition int (s : str) : outcome Z :=
  let t := strip_by is_c_space s in
  let '(neg, body) :=
    match t with
    | c :: r =>
        if Ascii.eqb c "-"%char then (true, r)
        else if Ascii.eqb c "+"%char then (false, r)
        else (false, t)
    | [] => (false, t)
    end in
  match int_body body 0 false with
  | Some n => Ok (if neg then - n else n)
  | None => Raise ValueError
  end.

Fixpoint digits_of (fuel : nat) (n : Z) (acc : str) : str :=
  match fuel with
  | O => acc
  | S fuel' =>
      let acc' := digit_char (n mod 10) :: acc in
      if n <? 10 then acc' else digits_of fuel' (n / 10) acc'
  end.

(** [str(n)] *)
Definition str_of_int (n : Z) : str :=
  if n <? 0 then "-"%char :: digits_of (S (Z.to_nat (Z.log2 (- n)))) (- n) []
  else digits_of (S (Z.to_nat (Z.log2 n))) n [].

(** [str(b)] *)
Definition str_of_bool (b : bool) : str := if b then "True" else "False".

(** *** Decimal text to a number

    [float(text)] for text of the shape digits, optional point, optional
    digits (the only shape it is applied to here): the exact rational. *)
Fixpoint frac_body (s : str) (num : Z) (den : positive) : option Q :=
  match s with
  | [] => Some (num # den)
  | c :: s' =>
      if is_digit c then frac_body s' (10 * num + digit_val c) (10 * den)
      else None
  end.

Fixpoint float_body (s : str) (acc : Z) (seen : bool) : option Q :=
  match s with
  | [] => if seen then Some (acc # 1) else None
  | c :: s' =>
      if is_digit c then float_body s' (10 * acc + digit_val c) true
      else if Ascii.eqb c "."%char && seen then frac_body s' acc 1
      else None
  end.

Definition float (s : str) : outcome Q :=
  match float_body s 0 false with
  | Some q => Ok q
  | None => Raise ValueError
  end.

(** From this bound on, half a step above the largest double, a number
    is no double any more: [float(text)] is [inf] there. *)
Definition float_bound : Z := 2 ^ 1024 - 2 ^ 970.

Definition is_inf (q : Q) : bool := Qle_bool (inject_Z float_bound) (Qabs q).

(** The integer nearest to [n] that has at most 53 significant bits, of
    two equally near ones the one with the even 53-bit part. *)
Definition round_to_double (n : Z) : Z :=
  let a := Z.abs n in
  let k := Z.log2 a - 52 in
  if k <=? 0 then n
  else
    let q := Z.shiftr a k in
    let rest := a - Z.shiftl q k in
    let half := Z.shiftl 1 (k - 1) in
    let q' :=
      if (half <? rest) || ((half =? rest) && Z.odd q) then q + 1 else q in
    Z.sgn n * Z.shiftl q' k.

(** [float(n)] for an int: the nearest double, [OverflowError] when that
    lies beyond the doubles. *)
Definition float_of_int (n : Z) : outcome Q :=
  let r := round_to_double n in
  if 2 ^ 1024 <=? Z.abs r then Raise OverflowError else Ok (inject_Z r).

(** [a / b] on two ints: the exact quotient, [ZeroDivisionError] for a
    zero divisor. *)
Definition truediv (a b : Z) : outcome Q :=
  if b =? 0 then Raise ZeroDivisionError else Ok (inject_Z a / inject_Z b)%Q.

End Py.

(** ** Regular expressions ([re.search])

    The patterns of the program use literals, character classes, [?], [*],
    [+] and one capturing group.  [exec] is the backtracking matcher of
    Python's [re]: alternatives are tried in priority order (greedy
    repetition first) and the first complete match is kept; [search] tries
    the start positions from left to right. *)

Module Re.

Inductive regex :=
| Lit (p : str)              (* literal text *)
| Cls (f : ascii -> bool)    (* one character of a class *)
| Cat (r1 r2 : regex)        (* r1 r2 *)
| Opt (r : regex)            (* r? *)
| Star (r : regex)           (* r* *)
| Group (r : regex).         (* ( r ), group 1 *)

(** r+ *)
Definition Plus (r : regex) : regex := Cat r (Star r).

Section Exec.
(** [re.IGNORECASE] *)
Variable ignorecase : bool.
Context {X : Type}.

Definition same (a b : ascii) : bool :=
  if ignorecase then Ascii.eqb (Py.lower_char a) (Py.lower_char b)
  else Ascii.eqb a b.

(** The text left after the literal [p], when [cur] starts with it. *)
Fixpoint lit (p cur : str) : option str :=
  match p, cur with
  | [], _ => Some cur
  | a :: p', b :: cur' => if same a b then lit p' cur' else None
  | _ :: _, [] => None
  end.

(** Greedy repetition of [step]: one more round first, each round
    consuming at least one character, then the continuation. *)
Fixpoint star_loop
         (step : str -> option str -> (str -> option str -> option X)
                 -> option X)
         (k : str -> option str -> option X)
         (fuel : nat) (cur : str) (cap : option str) : option X :=
  match fuel with
  | O => k cur cap
  | S fuel' =>
      match step cur cap (fun rest cap' =>
              if (length rest <? length cur)%nat
              then star_loop step k fuel' rest cap' else None) with
      | Some x => Some x
      | None => k cur cap
      end
  end.

(** [exec r cur cap k]: match [r] at the start of [cur], then continue
    with [k] on the text left and the text of group 1; on failure of the
    continuation, fall back to the next alternative. *)
Fixpoint exec (r : regex) (cur : str) (cap : option str)
         (k : str -> option str -> option X) : option X :=
  match r with
  | Lit p =>
      match lit p cur with
      | Some rest => k rest cap
      | None => None
      end
  | Cls f =>
      match cur with
      | c :: rest => if f c then k rest cap else None
      | [] => None
      end
  | Cat r1 r2 => exec r1 cur cap (fun rest cap' => exec r2 rest cap' k)
  | Opt r1 =>
      match exec r1 cur cap k with
      | Some x => Some x
      | None => k cur cap
      end
  | Star r1 => star_loop (exec r1) k (length cur) cur cap
  | Group r1 =>
      exec r1 cur cap (fun rest _ =>
        k rest (Some (firstn (length cur - length rest) cur)))
  end.
End Exec.

(** What it means for a text [w] to match [r], group 1 being [c0] before
    and [c1] after: the reading of the pattern, independent of the order in
    which the matcher tries the alternatives. *)
Inductive matches (ignorecase : bool)
  : regex -> str -> option str -> option str -> Prop :=
| m_lit p w c0 :
    Forall2 (fun a b => same ignorecase a b = true) p w ->
    matches ignorecase (Lit p) w c0 c0
| m_cls (f : ascii -> bool) c c0 :
    f c = true -> matches ignorecase (Cls f) [c] c0 c0
| m_cat r1 r2 w1 w2 c0 c1 c2 :
    matches ignorecase r1 w1 c0 c1 -> matches ignorecase r2 w2 c1 c2 ->
    matches ignorecase (Cat r1 r2) (w1 ++ w2) c0 c2
| m_opt_some r w c0 c1 :
    matches ignorecase r w c0 c1 -> matches ignorecase (Opt r) w c0 c1
| m_opt_none r c0 : matches ignorecase (Opt r) [] c0 c0
| m_star_nil r c0 : matches ignorecase (Star r) [] c0 c0
| m_star_cons r w1 w2 c0 c1 c2 :
    matches ignorecase r w1 c0 c1 -> matches ignorecase (Star r) w2 c1 c2 ->
    matches ignorecase (Star r) (w1 ++ w2) c0 c2
| m_group r w c0 c1 :
    matches ignorecase r w c0 c1 -> matches ignorecase (Group r) w c0 (Some w).

(** [re.search(r, line)] followed by [.group(1)]: [None] when nothing
    matches, else the text of group 1 of the leftmost match.  Every pattern
    of the program has its one group outside any optional part, so group 1
    of a match is always set. *)
Fixpoint search (ignorecase : bool) (r : regex) (line : str) : option str :=
  match exec ignorecase r line None (fun _ cap => Some (default [] cap)) with
  | Some g => Some g
  | None =>
      match line with
      | [] => None
      | _ :: rest => search ignorecase r rest
      end
  end.

(** Character classes *)
Definition digit : regex := Cls Py.is_digit.                       (* \d *)
Definition space : regex := Cls Py.is_space.                       (* \s *)
Definition colon_space : regex :=                                  (* [:\s] *)
  Cls (fun c => Ascii.eqb c ":"%char || Py.is_space c).
(** neither white space nor a single or double quote *)
Definition uri_char : regex :=
  Cls (fun c => negb (Py.is_space c || Ascii.eqb c "'"%char
                      || Ascii.eqb c Py.quote)).

End Re.

Import Re.

(** The patterns, in the order the program uses them. *)

(** [r'NRestarts=(\d+)'] *)
Definition re_nrestarts : regex := Cat (Lit "NRestarts=") (Group (Plus digit)).

(** [r'offset[:\s]+(-?\d+)'] *)
Definition re_offset : regex :=
  Cat (Lit "offset")
      (Cat (Plus colon_space) (Group (Cat (Opt (Lit "-")) (Plus digit)))).

(** [r'(\d+)\s*channels?'] *)
Definition re_channels : regex :=
  Cat (Group (Plus digit))
      (Cat (Star space) (Cat (Lit "channel") (Opt (Lit "s")))).

(** [r'(\d+)\s*hz'] with [re.IGNORECASE] *)
Definition re_hz : regex :=
  Cat (Group (Plus digit)) (Cat (Star space) (Lit "hz")).

(** [r'received[:\s]+(\d+)'] with [re.IGNORECASE] *)
Definition re_received : regex :=
  Cat (Lit "received") (Cat (Plus colon_space) (Group (Plus digit))).

(** [r'lost[:\s]+(\d+)'] with [re.IGNORECASE] *)
Definition re_lost : regex :=
  Cat (Lit "lost") (Cat (Plus colon_space) (Group (Plus digit))).

(** [srt://] followed by one or more characters that are neither white
    space nor a quote, the whole in group 1 *)
Definition re_srt_uri : regex := Group (Cat (Lit "srt://") (Plus uri_char)).

(** one or more digits, an optional point, any number of digits *)
Definition re_decimal : regex :=
  Cat (Plus digit) (Cat (Opt (Lit ".")) (Star digit)).

(** group 1 the decimal above, then [\s*kbits?/s], with [re.IGNORECASE] *)
Definition re_kbits : regex :=
  Cat (Group re_decimal)
      (Cat (Star space) (Cat (Lit "kbit") (Cat (Opt (Lit "s")) (Lit "/s")))).

(** group 1 the decimal above, then a percent sign *)
Definition re_percent : regex := Cat (Group re_decimal) (Lit "%").

(** ** Loops over lines

    A loop body either goes on to the next line, leaves the loop
    ([break]), or raises; in each case with the state reached so far (the
    status dictionaries are updated in place, so an exception keeps what
    was already stored). *)

Inductive flow (S : Type) :=
| Continue (s : S)
| Break (s : S)
| Raised (s : S).
Arguments Continue {S} s.
Arguments Break {S} s.
Arguments Raised {S} s.

(** One statement after another inside a loop body. *)
Definition and_then {S} (x : flow S) (f : S -> flow S) : flow S :=
  match x with
  | Continue s => f s
  | Break s => Break s
  | Raised s => Raised s
  end.

(** [for x in l: body]: [Continue] when the loop ended (exhausted or left
    by [break]), [Raised] when the body raised. *)
Fixpoint for_each {A S} (body : A -> S -> flow S) (l : list A) (s : S)
  : flow S :=
  match l with
  | [] => Continue s
  | x :: l' =>
      match body x s with
      | Continue s' => for_each body l' s'
      | Break s' => Continue s'
      | Raised s' => Raised s'
      end
  end.

(** [if cond: m = re.search(..); if m: field = conv(m.group(1))] *)
Definition extract {S V} (cond : bool) (m : option str)
           (conv : str -> outcome V) (store : V -> S -> S) (s : S) : flow S :=
  if cond then
    match m with
    | Some g =>
        match conv g with
        | Ok v => Continue (store v s)
        | Raise _ => Raised s
        end
    | None => Continue s
    end
  else Continue s.

(** ** The outside world and the process state *)

(** A file as the program meets it once [exists()] has answered: absent
    ([exists()] is false), present but failing on [open] or on reading, or
    present with its text (after newline translation).  The tests that do
    not answer are the subject of module [Probed] below. *)
Inductive file :=
| Missing
| Unreadable
| Content (text : str).

(** What [subprocess.run] gives back. *)
Record completed := { returncode : Z; stdout : str }.

(** How a write of AUDIO_OUT_CONFIG ends: all of the text reaches the
    file; or [mkdir] or [open] raises and the file is as before; or [open]
    has emptied the file and a write or the closing flush raises once the
    first [n] characters have reached it. *)
Inductive write_end :=
| Written
| Refused
| Cut (n : nat).

(** What [int(time.time() - psutil.boot_time())] and
    [int(time.time() - API_START_TIME)] evaluate to.  Each is the whole
    part of a float, so [float] gives it back unchanged. *)
Record uptimes := { system_seconds : Z; api_seconds : Z }.

(** What the program reads and calls but does not own: the three logs
    under LOG_DIR, CONFIG_FILE, the answers of systemctl, how a write of
    AUDIO_OUT_CONFIG ends, and the clock: /status evaluates the two uptimes
    twice, first for its gauges and then for its body. *)
Record env := {
  statime_log : file;
  inferno_log : file;
  srt_log : file;
  config_file : file;
  systemctl : list str -> outcome completed;
  audio_out_write : write_end;
  uptime_gauged : uptimes;
  uptime_returned : uptimes
}.

(** Whether AUDIO_OUT_CONFIG can be created and written to the end. *)
Definition audio_out_writable (e : env) : bool :=
  match audio_out_write e with
  | Written => true
  | _ => false
  end.

(** *** Prometheus registry

    A series is a metric name with the value of its label (empty for a
    metric without labels); a series that was never written reads 0. *)
Module Metrics.

Abbreviation registry := (gmap (str * str) Q).

Definition service_up : str := "inferno_service_up".
Definition service_restarts : str := "inferno_service_restarts_total".
Definition audio_level : str := "inferno_audio_level_dbfs".
Definition audio_peak : str := "inferno_audio_peak_dbfs".
Definition silence_detected : str := "inferno_silence_detected".
Definition silence_events : str := "inferno_silence_events_total".
Definition ptp_clock_offset : str := "inferno_ptp_clock_offset_ns".
Definition ptp_synchronized : str := "inferno_ptp_synchronized".
Definition ptp_master_changes : str := "inferno_ptp_master_changes_total".
Definition packets_received : str := "inferno_packets_received_total".
Definition packets_lost : str := "inferno_packets_lost_total".
Definition packet_loss_rate : str := "inferno_packet_loss_rate".
Definition srt_connected : str := "inferno_srt_connected".
Definition srt_bitrate : str := "inferno_srt_bitrate_kbps".
Definition srt_rtt : str := "inferno_srt_rtt_ms".
Definition srt_packet_loss : str := "inferno_srt_packet_loss_pct".
Definition system_uptime : str := "inferno_system_uptime_seconds".
Definition api_uptime : str := "inferno_api_uptime_seconds".

(** The value a scrape shows for a series. *)
Definition value (metric label : str) (m : registry) : Q :=
  default 0%Q (m !! (metric, label)).

(** [metric.labels(label).set(v)], [metric.set(v)] for a float [v]; the
    gauge stores [float(v)], so an int goes through [set_int]. *)
Definition set (metric label : str) (v : Q) (m : registry) : registry :=
  <[(metric, label) := v]> m.

(** [metric.set(n)] for an int [n]: [float(n)] is stored, and its
    [OverflowError] leaves the gauge as it was. *)
Definition set_int (metric label : str) (n : Z) (m : registry)
  : outcome registry :=
  f ← Py.float_of_int n; Ok (set metric label f m).

(** [metric.labels(label).inc(amount)]: a negative amount raises. *)
Definition inc (metric label : str) (amount : Q) (m : registry)
  : outcome registry :=
  if Qle_bool 0 amount
  then Ok (<[(metric, label) := (value metric label m + amount)%Q]> m)
  else Raise ValueError.

(** [1 if b else 0] as the gauge stores it. *)
Definition of_bool (b : bool) : Q := if b then 1%Q else 0%Q.

End Metrics.

Import Metrics.

(** What the process owns and changes: the registry, AUDIO_OUT_CONFIG, and
    (for the record) every command line handed to [subprocess.run], oldest
    first. *)
Record world := {
  metrics : registry;
  audio_out_config : file;
  commands : list (list str)
}.

Definition with_metrics (m : registry) (w : world) : world :=
  {| metrics := m; audio_out_config := audio_out_config w;
     commands := commands w |}.

Definition update_metrics (f : registry -> registry) (w : world) : world :=
  with_metrics (f (metrics w)) w.

(** [subprocess.run(argv, ...)] *)
Definition run (e : env) (argv : list str) (w : world)
  : outcome completed * world :=
  (systemctl e argv,
   {| metrics := metrics w; audio_out_config := audio_out_config w;
      commands := commands w ++ [argv] |}).

Definition str_eqb (a b : str) : bool := bool_decide (a = b).

(** ** Service prober *)

Definition check_service_status (e : env) (service_name : str) (w : world)
  : bool * world :=
  let '(result, w) :=
    run e [ ("systemctl" : str); ("is-active" : str);
            service_name ++ ".service" ] w in
  match result with
  | Ok p =>
      let is_active := str_eqb (Py.strip (stdout p)) "active" in
      (is_active,
       update_metrics (set service_up service_name (of_bool is_active)) w)
  | Raise _ =>
      (false, update_metrics (set service_up service_name 0%Q) w)
  end.

Definition get_service_restart_count (e : env) (service_name : str)
           (w : world) : Z * world :=
  let '(result, w) :=
    run e [ ("systemctl" : str); ("show" : str);
            service_name ++ ".service"; ("--property=NRestarts" : str) ] w in
  match result with
  | Ok p =>
      match search false re_nrestarts (stdout p) with
      | Some g =>
          match Py.int g with
          | Ok n => (n, w)
          | Raise _ => (0, w)
          end
      | None => (0, w)
      end
  | Raise _ => (0, w)
  end.

(** ** Config store *)

Abbreviation config := (gmap str (gmap str str)).

(** The loop body of [load_config]: the mapping so far and the current
    section. *)
Definition load_config_line (line : str) (acc : config * option str)
  : config * option str :=
  let '(cfg, current_section) := acc in
  let line := Py.strip line in
  if str_eqb line [] || Py.startswith "#" line then acc
  else if Py.startswith "[" line && Py.endswith "]" line then
    let name := Py.slice_1_m1 line in
    (<[name := ∅]> cfg, Some name)
  else
    match current_section with
    | Some sec =>
        if Py.contains "=" line && negb (str_eqb sec []) then
          let '(key, value) := Py.split1 "="%char line in
          (<[sec := <[Py.strip key := Py.strip value]> (default ∅ (cfg !! sec))]>
             cfg, current_section)
        else acc
    | None => acc
    end.

Definition load_config (e : env) : outcome config :=
  match config_file e with
  | Missing => Ok ∅
  | Unreadable => Raise OSError
  | Content text =>
      Ok (fst (fold_left (fun acc line => load_config_line line acc)
                         (Py.splitlines text) (∅, None)))
  end.

(** [config.get(section, {}).get(key, dflt)] *)
Definition config_get (cfg : config) (section key : str) (dflt : str) : str :=
  default dflt (default ∅ (cfg !! section) !! key).

(** ** Log tail parsers *)

(** The dictionary of [parse_statime_log]. *)
Module Ptp.
Record status := {
  synchronized : bool;
  clock_offset_ns : Z;
  master_ip : option str;
  state : str
}.
Definition initial : status :=
  {| synchronized := false; clock_offset_ns := 0; master_ip := None;
     state := "unknown" |}.
Definition set_offset (offset : Z) (s : status) : status :=
  {| synchronized := Z.abs offset <? 100000; clock_offset_ns := offset;
     master_ip := master_ip s; state := state s |}.
Definition set_state (v : str) (s : status) : status :=
  {| synchronized := synchronized s; clock_offset_ns := clock_offset_ns s;
     master_ip := master_ip s; state := v |}.
End Ptp.

(** The dictionary of [parse_inferno_log]. *)
Module Audio.
Record status := {
  rx_channels : Z;
  tx_channels : Z;
  sample_rate : Z;
  packets_received : Z;
  packets_lost : Z
}.
Definition initial : status :=
  {| rx_channels := 0; tx_channels := 0; sample_rate := 0;
     packets_received := 0; packets_lost := 0 |}.
Definition set_rx_channels (v : Z) (s : status) : status :=
  {| rx_channels := v; tx_channels := tx_channels s;
     sample_rate := sample_rate s; packets_received := packets_received s;
     packets_lost := packets_lost s |}.
Definition set_sample_rate (v : Z) (s : status) : status :=
  {| rx_channels := rx_channels s; tx_channels := tx_channels s;
     sample_rate := v; packets_received := packets_received s;
     packets_lost := packets_lost s |}.
Definition set_packets_received (v : Z) (s : status) : status :=
  {| rx_channels := rx_channels s; tx_channels := tx_channels s;
     sample_rate := sample_rate s; packets_received := v;
     packets_lost := packets_lost s |}.
Definition set_packets_lost (v : Z) (s : status) : status :=
  {| rx_channels := rx_channels s; tx_channels := tx_channels s;
     sample_rate := sample_rate s; packets_received := packets_received s;
     packets_lost := v |}.
End Audio.

(** The dictionary of [parse_srt_log]. *)
Module Srt.
Record status := {
  connected : bool;
  destination : option str;
  bitrate_kbps : Q;
  rtt_ms : Z;
  packet_loss_pct : Q
}.
Definition initial : status :=
  {| connected := false; destination := None; bitrate_kbps := 0%Q;
     rtt_ms := 0; packet_loss_pct := 0%Q |}.
Definition set_destination (uri : str) (up : bool) (s : status) : status :=
  {| connected := up; destination := Some uri;
     bitrate_kbps := bitrate_kbps s; rtt_ms := rtt_ms s;
     packet_loss_pct := packet_loss_pct s |}.
Definition set_bitrate_kbps (v : Q) (s : status) : status :=
  {| connected := connected s; destination := destination s;
     bitrate_kbps := v; rtt_ms := rtt_ms s;
     packet_loss_pct := packet_loss_pct s |}.
Definition set_packet_loss_pct (v : Q) (s : status) : status :=
  {| connected := connected s; destination := destination s;
     bitrate_kbps := bitrate_kbps s; rtt_ms := rtt_ms s;
     packet_loss_pct := v |}.
End Srt.

(** [f.readlines()[-100:]], then [reversed]. *)
Definition tail (text : str) : list str := Py.last_n 100 (Py.splitlines text).

(** *** [parse_statime_log] *)

(** The body of the loop on one line: the status and the registry so far. *)
Definition statime_line (line : str) (s : Ptp.status * registry)
  : flow (Ptp.status * registry) :=
  let '(ptp_status, m) := s in
  let found :=
    if Py.contains "offset" (Py.lower line)
    then search false re_offset line else None in
  match found with
  | Some g =>
      match Py.int g with
      | Ok offset =>
          let ptp_status := Ptp.set_offset offset ptp_status in
          match set_int ptp_clock_offset [] offset m with
          | Ok m =>
              Break (ptp_status,
                     set ptp_synchronized []
                         (of_bool (Ptp.synchronized ptp_status)) m)
          | Raise _ => Raised (ptp_status, m)
          end
      | Raise _ => Raised s
      end
  | None =>
      if Py.contains "state" (Py.lower line) then
        if Py.contains "slave" (Py.lower line)
           || Py.contains "listening" (Py.lower line)
        then Continue (Ptp.set_state "slave" ptp_status, m)
        else if Py.contains "master" (Py.lower line)
        then Continue (Ptp.set_state "master" ptp_status, m)
        else Continue s
      else Continue s
  end.

(** What a function returns after its [try] block: the dictionary as it
    stands, whether the block ended or raised. *)
Definition after_try {S} (x : flow S) : S :=
  match x with
  | Continue s | Break s | Raised s => s
  end.

Definition parse_statime_log (e : env) (m : registry)
  : Ptp.status * registry :=
  match statime_log e with
  | Missing => (Ptp.initial, m)
  | Unreadable => after_try (Raised (Ptp.initial, m))
  | Content text =>
      after_try (for_each statime_line (rev (tail text)) (Ptp.initial, m))
  end.

(** *** [parse_inferno_log] *)

Definition inferno_line (line : str) (audio_status : Audio.status)
  : flow Audio.status :=
  let low := Py.lower line in
  and_then
    (extract (Py.contains "channels" low)
             (search false re_channels line) Py.int
             Audio.set_rx_channels audio_status)
    (fun audio_status =>
  and_then
    (extract (Py.contains "sample rate" low || Py.contains "hz" low)
             (search true re_hz line) Py.int
             Audio.set_sample_rate audio_status)
    (fun audio_status =>
  if Py.contains "packets" low then
    and_then
      (extract true (search true re_received line) Py.int
               Audio.set_packets_received audio_status)
      (extract true (search true re_lost line) Py.int
               Audio.set_packets_lost)
  else Continue audio_status)).

Definition parse_inferno_log (e : env) : Audio.status :=
  match inferno_log e with
  | Missing => Audio.initial
  | Unreadable => after_try (Raised Audio.initial)
  | Content text =>
      after_try (for_each inferno_line (rev (tail text)) Audio.initial)
  end.

(** *** [parse_srt_log] *)

Definition srt_line (line : str) (srt_status : Srt.status)
  : flow Srt.status :=
  let low := Py.lower line in
  and_then
    (extract (Py.contains "srt://" low)
             (search false re_srt_uri line) Ok
             (fun uri => Srt.set_destination uri
                (negb (Py.contains "error" low)
                 && negb (Py.contains "failed" low)))
             srt_status)
    (fun srt_status =>
  and_then
    (extract (Py.contains "bitrate" low || Py.contains "kbits/s" low)
             (search true re_kbits line) Py.float
             Srt.set_bitrate_kbps srt_status)
    (extract (Py.contains "loss" low)
             (search false re_percent line) Py.float
             Srt.set_packet_loss_pct)).

(** The four gauges written after the loop.  [bitrate_kbps] and
    [packet_loss_pct] are floats, or the 0 of the initial dictionary;
    [rtt_ms] is that 0 always, as no line stores it. *)
Definition publish_srt (s : Srt.status) (m : registry) : registry :=
  set srt_packet_loss [] (Srt.packet_loss_pct s)
    (set srt_rtt [] (inject_Z (Srt.rtt_ms s))
       (set srt_bitrate [] (Srt.bitrate_kbps s)
          (set srt_connected [] (of_bool (Srt.connected s)) m))).

Definition parse_srt_log (e : env) (m : registry)
  : Srt.status * registry :=
  match srt_log e with
  | Missing => (Srt.initial, m)
  | Unreadable => (after_try (Raised Srt.initial), m)
  | Content text =>
      match for_each srt_line (rev (tail text)) Srt.initial with
      | Raised s => (s, m)
      | Continue s | Break s => (s, publish_srt s m)
      end
  end.

(** ** Routing configuration file *)

Module Out.
(** The dictionary of [read_audio_output_config]. *)
Record config := {
  enabled : bool;
  device : str;
  stereo_pair : Z;
  channel_l : Z;
  channel_r : Z;
  rx_channels : Z
}.
Definition initial : config :=
  {| enabled := false; device := "auto"; stereo_pair := 1; channel_l := 0;
     channel_r := 1; rx_channels := 2 |}.
Definition set_enabled (v : bool) (c : config) : config :=
  {| enabled := v; device := device c; stereo_pair := stereo_pair c;
     channel_l := channel_l c; channel_r := channel_r c;
     rx_channels := rx_channels c |}.
Definition set_device (v : str) (c : config) : config :=
  {| enabled := enabled c; device := v; stereo_pair := stereo_pair c;
     channel_l := channel_l c; channel_r := channel_r c;
     rx_channels := rx_channels c |}.
Definition set_stereo_pair (v : Z) (c : config) : config :=
  {| enabled := enabled c; device := device c; stereo_pair := v;
     channel_l := channel_l c; channel_r := channel_r c;
     rx_channels := rx_channels c |}.
Definition set_channel_l (v : Z) (c : config) : config :=
  {| enabled := enabled c; device := device c; stereo_pair := stereo_pair c;
     channel_l := v; channel_r := channel_r c;
     rx_channels := rx_channels c |}.
Definition set_channel_r (v : Z) (c : config) : config :=
  {| enabled := enabled c; device := device c; stereo_pair := stereo_pair c;
     channel_l := channel_l c; channel_r := v;
     rx_channels := rx_channels c |}.
Definition set_rx_channels (v : Z) (c : config) : config :=
  {| enabled := enabled c; device := device c; stereo_pair := stereo_pair c;
     channel_l := channel_l c; channel_r := channel_r c;
     rx_channels := v |}.
End Out.

(** [line.split('=')[1].strip(Q)], Q the double quote. *)
Definition quoted_value (line : str) : outcome str :=
  v ← Py.index (Py.split "="%char line) 1;
  Ok (Py.strip_chars [Py.quote] v).

Definition quoted_int (line : str) : outcome Z :=
  v ← quoted_value line; Py.int v.

Definition quoted_bool (line : str) : outcome bool :=
  v ← quoted_value line; Ok (str_eqb (Py.lower v) "true").

(** The body of the loop of [read_audio_output_config] on one line. *)
Definition read_audio_output_line (line : str) (c : Out.config)
  : flow Out.config :=
  let line := Py.strip line in
  let store {V} (conv : str -> outcome V) (f : V -> Out.config -> Out.config) :=
    extract true (Some line) conv f c in
  if Py.startswith "ENABLED=" line then store quoted_bool Out.set_enabled
  else if Py.startswith "DEVICE=" line then store quoted_value Out.set_device
  else if Py.startswith "STEREO_PAIR=" line
  then store quoted_int Out.set_stereo_pair
  else if Py.startswith "CHANNEL_L=" line then store quoted_int Out.set_channel_l
  else if Py.startswith "CHANNEL_R=" line then store quoted_int Out.set_channel_r
  else if Py.startswith "RX_CHANNELS=" line
  then store quoted_int Out.set_rx_channels
  else Continue c.

Definition read_audio_output_config (w : world) : Out.config :=
  match audio_out_config w with
  | Missing => Out.initial
  | Unreadable => after_try (Raised Out.initial)
  | Content text =>
      after_try (for_each read_audio_output_line (Py.splitlines text)
                          Out.initial)
  end.

(** One line [KEY=QvalueQ] with its newline, Q the double quote. *)
Definition assignment (key value : str) : str :=
  key ++ "=" ++ [Py.quote] ++ value ++ [Py.quote; Py.nl].

(** The text [write_audio_output_config] writes for the keys it reads from
    its dictionary; [rx_channels] may be absent from it. *)
Definition audio_output_text (enabled : bool) (device : str)
           (stereo_pair : Z) (rx_channels : option Z) : str :=
  let channel_l := (stereo_pair - 1) * 2 in
  let channel_r := (stereo_pair - 1) * 2 + 1 in
  ("# Hardware audio output configuration" ++ [Py.nl])
  ++ ("# This file can be modified via API or manually" ++ [Py.nl])
  ++ assignment "ENABLED" (Py.lower (Py.str_of_bool enabled))
  ++ assignment "DEVICE" device
  ++ assignment "STEREO_PAIR" (Py.str_of_int stereo_pair)
  ++ assignment "CHANNEL_L" (Py.str_of_int channel_l)
  ++ assignment "CHANNEL_R" (Py.str_of_int channel_r)
  ++ assignment "RX_CHANNELS" (Py.str_of_int (default 2 rx_channels)).

(** The file is written whole and [True] returned; or an exception is
    caught and [False] returned, with the file as it was when the directory
    or the file could not be created, and with the beginning of the new text
    only when a write failed after [open(..., 'w')] had emptied it. *)
Definition write_audio_output_config (e : env) (enabled : bool)
           (device : str) (stereo_pair : Z) (rx_channels : option Z)
           (w : world) : bool * world :=
  let text := audio_output_text enabled device stereo_pair rx_channels in
  match audio_out_write e with
  | Written =>
      (true,
       {| metrics := metrics w; audio_out_config := Content text;
          commands := commands w |})
  | Refused => (false, w)
  | Cut n =>
      (false,
       {| metrics := metrics w; audio_out_config := Content (firstn n text);
          commands := commands w |})
  end.

(** ** The views

    What a request is answered with: the JSON body, an [HTTPException]
    raised by the handler, or an exception the handler did not catch (the
    framework answers 500). *)

Inductive response (A : Type) :=
| OK (body : A)
| HTTPException (status_code : Z) (detail : str)
| Unhandled (e : exn).
Arguments OK {A} body.
Arguments HTTPException {A} status_code detail.
Arguments Unhandled {A} e.

Definition status_code {A} (r : response A) : Z :=
  match r with
  | OK _ => 200
  | HTTPException c _ => c
  | Unhandled _ => 500
  end.

(** [GET /health] *)
Module Health.
Record body := { healthy : bool; services : list (str * bool) }.
End Health.

Definition health_check (e : env) (w : world) : response Health.body * world :=
  let '(statime, w) := check_service_status e "statime" w in
  let '(inferno, w) := check_service_status e "inferno" w in
  let '(srt, w) := check_service_status e "inferno-srt" w in
  let services :=
    [ (("statime" : str), statime); (("inferno" : str), inferno);
      (("srt" : str), srt) ] in
  (OK {| Health.healthy := forallb snd services;
         Health.services := services |}, w).

(** [GET /status] *)
Module Status.
Record body := {
  uptime_seconds : Z;
  api_uptime_seconds : Z;
  services : list (str * bool);
  audio_rx_channels : Z;
  audio_tx_channels : Z;
  audio_sample_rate : Z;
  ptp_synchronized : bool;
  ptp_clock_offset_ns : Z;
  srt_connected : bool;
  srt_destination : option str;
  device_name : str;
  device_dante_ip : str
}.
End Status.

Definition get_status (e : env) (w : world) : response Status.body * world :=
  match load_config e with
  | Raise x => (Unhandled x, w)
  | Ok cfg =>
      let '(statime, w) := check_service_status e "statime" w in
      let '(inferno, w) := check_service_status e "inferno" w in
      let '(srt, w) := check_service_status e "inferno-srt" w in
      let audio_info := parse_inferno_log e in
      let '(ptp_info, m) := parse_statime_log e (metrics w) in
      let '(srt_info, m) := parse_srt_log e m in
      let m :=
        set api_uptime [] (inject_Z (api_seconds (uptime_gauged e)))
          (set system_uptime [] (inject_Z (system_seconds (uptime_gauged e)))
               m) in
      (OK {| Status.uptime_seconds := system_seconds (uptime_returned e);
             Status.api_uptime_seconds := api_seconds (uptime_returned e);
             Status.services :=
               [ (("statime" : str), statime); (("inferno" : str), inferno);
                 (("srt" : str), srt) ];
             Status.audio_rx_channels := Audio.rx_channels audio_info;
             Status.audio_tx_channels := Audio.tx_channels audio_info;
             Status.audio_sample_rate := Audio.sample_rate audio_info;
             Status.ptp_synchronized := Ptp.synchronized ptp_info;
             Status.ptp_clock_offset_ns := Ptp.clock_offset_ns ptp_info;
             Status.srt_connected := Srt.connected srt_info;
             Status.srt_destination := Srt.destination srt_info;
             Status.device_name := config_get cfg "inferno" "device_name" "Unknown";
             Status.device_dante_ip := config_get cfg "network" "dante_ip" "Unknown" |},
       with_metrics m w)
  end.

(** [GET /status/services] *)
Module Services.
Record entry := { running : bool; restart_count : Z; status : str }.
Abbreviation body := (list (str * entry)).
End Services.

(** The body of the loop over the three services.  [inc(0)] cannot raise. *)
Definition services_step (e : env) (service : str)
           (acc : Services.body * world) : Services.body * world :=
  let '(services, w) := acc in
  let '(is_running, w) := check_service_status e service w in
  let '(restart_count, w) := get_service_restart_count e service w in
  let entry :=
    {| Services.running := is_running;
       Services.restart_count := restart_count;
       Services.status := if is_running then "active" else "inactive" |} in
  let m :=
    match inc service_restarts service 0%Q (metrics w) with
    | Ok m => m
    | Raise _ => metrics w
    end in
  (services ++ [(service, entry)], with_metrics m w).

Definition get_services_status (e : env) (w : world)
  : response Services.body * world :=
  let '(services, w) :=
    fold_left (fun acc service => services_step e service acc)
              [ ("statime" : str); ("inferno" : str); ("inferno-srt" : str) ]
              ([], w) in
  (OK services, w).

(** [GET /ptp/status] *)
Definition get_ptp_status (e : env) (w : world) : response Ptp.status * world :=
  let '(ptp_info, m) := parse_statime_log e (metrics w) in
  (OK ptp_info, with_metrics m w).

(** [GET /srt/status].  [latency_ms] is [None] for the default, the
    integer 0.  The body is the only one with floats read from a log: the
    JSON encoder of the framework refuses [inf] with ValueError, after the
    handler has returned. *)
Module SrtView.
Record body := {
  connected : bool;
  destination : str;
  mode : str;
  bitrate_kbps : Q;
  rtt_ms : Z;
  packet_loss_pct : Q;
  latency_ms : option str
}.
End SrtView.

Definition get_srt_status (e : env) (w : world)
  : response SrtView.body * world :=
  let '(srt_info, m) := parse_srt_log e (metrics w) in
  let w := with_metrics m w in
  match load_config e with
  | Raise x => (Unhandled x, w)
  | Ok cfg =>
      let fallback :=
        "srt://" ++ config_get cfg "srt" "host" "unknown" ++ ":"
                 ++ config_get cfg "srt" "port" "0" in
      if Py.is_inf (Srt.bitrate_kbps srt_info)
         || Py.is_inf (Srt.packet_loss_pct srt_info)
      then (Unhandled ValueError, w)
      else
      (OK {| SrtView.connected := Srt.connected srt_info;
             SrtView.destination :=
               match Srt.destination srt_info with
               | Some (c :: d) => c :: d
               | _ => fallback
               end;
             SrtView.mode := config_get cfg "srt" "mode" "unknown";
             SrtView.bitrate_kbps := Srt.bitrate_kbps srt_info;
             SrtView.rtt_ms := Srt.rtt_ms srt_info;
             SrtView.packet_loss_pct := Srt.packet_loss_pct srt_info;
             SrtView.latency_ms := default ∅ (cfg !! ("srt" : str)) !! ("latency_ms" : str) |},
       w)
  end.

(** [GET /network/status] *)
Module Network.
Record body := {
  dante_interface : str;
  dante_ip : str;
  packets_received : Z;
  packets_lost : Z;
  packet_loss_rate : Q
}.
End Network.

(** The two lines that compute the packet loss rate. *)
Definition loss_rate (received lost : Z) : outcome Q :=
  let total_packets := received + lost in
  if 0 <? total_packets then Py.truediv lost total_packets else Ok 0%Q.

Definition get_network_status (e : env) (w : world)
  : response Network.body * world :=
  match load_config e with
  | Raise x => (Unhandled x, w)
  | Ok cfg =>
      let audio_info := parse_inferno_log e in
      match loss_rate (Audio.packets_received audio_info)
                      (Audio.packets_lost audio_info) with
      | Raise x => (Unhandled x, w)
      | Ok rate =>
          (OK {| Network.dante_interface :=
                   config_get cfg "network" "dante_interface" "eth0";
                 Network.dante_ip :=
                   config_get cfg "network" "dante_ip" "Unknown";
                 Network.packets_received := Audio.packets_received audio_info;
                 Network.packets_lost := Audio.packets_lost audio_info;
                 Network.packet_loss_rate := rate |},
           update_metrics (set Metrics.packet_loss_rate [] rate) w)
      end
  end.

(** [int(config.get("inferno", {}).get("rx_channels", 2))] *)
Definition config_rx_channels (cfg : config) : outcome Z :=
  match default ∅ (cfg !! ("inferno" : str)) !! ("rx_channels" : str) with
  | Some v => Py.int v
  | None => Ok 2
  end.

(** The channel count of the main config store at this moment:
    [load_config()] followed by the conversion above. *)
Definition live_rx_channels (e : env) : outcome Z :=
  cfg ← load_config e; config_rx_channels cfg.

(** [range(n)] *)
Definition range (n : Z) : list Z := map Z.of_nat (seq 0 (Z.to_nat n)).

(** [GET /audio/status]: the levels are placeholders. *)
Module AudioView.
Record channel := { id : Z; level_dbfs : Q; peak_dbfs : Q; silent : bool }.
Record body := {
  sample_rate : Z;
  rx_channels : Z;
  channels : list channel;
  silence_detected : bool
}.
End AudioView.

Definition audio_channel_step (i : Z) (acc : list AudioView.channel * registry)
  : list AudioView.channel * registry :=
  let '(channels, m) := acc in
  let level := (-20 # 1)%Q in
  let peak := (-15 # 1)%Q in
  let silent := negb (Qle_bool (-60 # 1) level) in
  (channels ++ [ {| AudioView.id := i; AudioView.level_dbfs := level;
                    AudioView.peak_dbfs := peak; AudioView.silent := silent |} ],
   set Metrics.silence_detected (Py.str_of_int i) (of_bool silent)
     (set audio_peak (Py.str_of_int i) peak
        (set audio_level (Py.str_of_int i) level m))).

Definition get_audio_status (e : env) (w : world)
  : response AudioView.body * world :=
  match load_config e with
  | Raise x => (Unhandled x, w)
  | Ok cfg =>
      let audio_info := parse_inferno_log e in
      match config_rx_channels cfg with
      | Raise x => (Unhandled x, w)
      | Ok rx_channels =>
          let '(channels, m) :=
            fold_left (fun acc i => audio_channel_step i acc)
                      (range rx_channels) ([], metrics w) in
          (OK {| AudioView.sample_rate := Audio.sample_rate audio_info;
                 AudioView.rx_channels := rx_channels;
                 AudioView.channels := channels;
                 AudioView.silence_detected :=
                   existsb AudioView.silent channels |},
           with_metrics m w)
      end
  end.

(** [GET /audio/output] *)
Module OutputStatus.
Record body := {
  enabled : bool;
  device : str;
  stereo_pair : Z;
  channel_l : Z;
  channel_r : Z;
  service_running : bool
}.
End OutputStatus.

Definition get_audio_output (e : env) (w : world)
  : response OutputStatus.body * world :=
  let cfg := read_audio_output_config w in
  let '(service_running, w) := check_service_status e "inferno-audio-out" w in
  (OK {| OutputStatus.enabled := Out.enabled cfg;
         OutputStatus.device := Out.device cfg;
         OutputStatus.stereo_pair := Out.stereo_pair cfg;
         OutputStatus.channel_l := Out.channel_l cfg;
         OutputStatus.channel_r := Out.channel_r cfg;
         OutputStatus.service_running := service_running |}, w).

(** [POST /audio/output] *)

(** The request model [AudioOutputConfig]. *)
Record AudioOutputConfig := {
  enabled : bool;
  device : str;
  stereo_pair : Z
}.

Module OutputSet.
Record body := {
  success : bool;
  message : str;
  enabled : bool;
  device : str;
  stereo_pair : Z;
  channels : str
}.
End OutputSet.

Definition valid_device (d : str) : bool :=
  existsb (str_eqb d) [ ("hdmi" : str); ("headphones" : str); ("auto" : str) ].

(** [(rx_channels + 1) // 2] *)
Definition max_pairs (rx_channels : Z) : Z := (rx_channels + 1) / 2.

(** [subprocess.run(argv, check=True, timeout=10)] *)
Definition run_checked (e : env) (argv : list str) (w : world)
  : outcome completed * world :=
  let '(result, w) := run e argv w in
  (p ← result;
   if returncode p =? 0 then Ok p else Raise CalledProcessError, w).

Definition set_audio_output (e : env) (audio_config : AudioOutputConfig)
           (w : world) : response OutputSet.body * world :=
  if negb (valid_device (device audio_config)) then
    (HTTPException 400 "Device must be 'hdmi', 'headphones', or 'auto'", w)
  else if stereo_pair audio_config <? 1 then
    (HTTPException 400 "Stereo pair must be >= 1", w)
  else
    match live_rx_channels e with
    | Raise x => (Unhandled x, w)
    | Ok rx_channels =>
        if max_pairs rx_channels <? stereo_pair audio_config then
          (HTTPException 400
             ("Stereo pair " ++ Py.str_of_int (stereo_pair audio_config)
              ++ " exceeds available pairs (max: "
              ++ Py.str_of_int (max_pairs rx_channels) ++ " for "
              ++ Py.str_of_int rx_channels ++ " channels)"), w)
        else
          let '(written, w) :=
            write_audio_output_config e (enabled audio_config)
              (device audio_config) (stereo_pair audio_config)
              (Some rx_channels) w in
          if negb written then
            (HTTPException 500 "Failed to write configuration", w)
          else
            let '(result, w) :=
              run_checked e
                [ ("systemctl" : str);
                  (if enabled audio_config then ("restart" : str) else ("stop" : str));
                  ("inferno-audio-out.service" : str) ] w in
            match result with
            | Raise CalledProcessError =>
                (HTTPException 500 "Failed to control service", w)
            | Raise TimeoutExpired =>
                (HTTPException 500 "Service control timeout", w)
            | Raise x => (Unhandled x, w)
            | Ok _ =>
                (OK {| OutputSet.success := true;
                       OutputSet.message := "Audio output configuration updated";
                       OutputSet.enabled := enabled audio_config;
                       OutputSet.device := device audio_config;
                       OutputSet.stereo_pair := stereo_pair audio_config;
                       OutputSet.channels :=
                         Py.str_of_int ((stereo_pair audio_config - 1) * 2)
                         ++ "-"
                         ++ Py.str_of_int ((stereo_pair audio_config - 1) * 2 + 1)
                    |}, w)
            end
    end.

(** [POST /audio/output/toggle] *)
Module Toggle.
Record body := { success : bool; enabled : bool; message : str }.
End Toggle.

Definition toggle_audio_output (e : env) (w : world)
  : response Toggle.body * world :=
  let cfg := read_audio_output_config w in
  let cfg := Out.set_enabled (negb (Out.enabled cfg)) cfg in
  let '(written, w) :=
    write_audio_output_config e (Out.enabled cfg) (Out.device cfg)
      (Out.stereo_pair cfg) (Some (Out.rx_channels cfg)) w in
  if negb written then (HTTPException 500 "Failed to write configuration", w)
  else
    let '(result, w) :=
      run_checked e
        [ ("systemctl" : str);
          (if Out.enabled cfg then ("start" : str) else ("stop" : str));
          ("inferno-audio-out.service" : str) ] w in
    match result with
    | Raise _ => (HTTPException 500 "Failed to toggle service", w)
    | Ok _ =>
        (OK {| Toggle.success := true;
               Toggle.enabled := Out.enabled cfg;
               Toggle.message :=
                 "Audio output "
                 ++ (if Out.enabled cfg then ("enabled" : str)
                     else ("disabled" : str)) |},
         w)
    end.

(** ** The existence tests

    Each log parser, and the reader of the routing file, asks
    [path.exists()] before its [try].  [exists] answers False for a file
    that is not there; the error of a [stat] that fails for another reason
    it raises again: the PermissionError of a directory on the way that may
    not be searched.  Nothing catches it there.  The definitions above are
    the program on an appliance where the four tests answer; [stats] says
    which of them do, and module [Probed] gives the four functions, and the
    views that call them, in full. *)
Record stats := {
  statime_stat : bool;
  inferno_stat : bool;
  srt_stat : bool;
  audio_out_stat : bool
}.

Module Probed.

Definition parse_statime_log (a : stats) (e : env) (m : registry)
  : outcome (Ptp.status * registry) :=
  if statime_stat a then Ok (parse_statime_log e m) else Raise OSError.

Definition parse_inferno_log (a : stats) (e : env) : outcome Audio.status :=
  if inferno_stat a then Ok (parse_inferno_log e) else Raise OSError.

Definition parse_srt_log (a : stats) (e : env) (m : registry)
  : outcome (Srt.status * registry) :=
  if srt_stat a then Ok (parse_srt_log e m) else Raise OSError.

Definition read_audio_output_config (a : stats) (w : world)
  : outcome Out.config :=
  if audio_out_stat a then Ok (read_audio_output_config w) else Raise OSError.

(** [GET /status] *)
Definition get_status (a : stats) (e : env) (w : world)
  : response Status.body * world :=
  match load_config e with
  | Raise x => (Unhandled x, w)
  | Ok cfg =>
      let '(statime, w) := check_service_status e "statime" w in
      let '(inferno, w) := check_service_status e "inferno" w in
      let '(srt, w) := check_service_status e "inferno-srt" w in
      match parse_inferno_log a e with
      | Raise x => (Unhandled x, w)
      | Ok audio_info =>
          match parse_statime_log a e (metrics w) with
          | Raise x => (Unhandled x, w)
          | Ok (ptp_info, m) =>
              match parse_srt_log a e m with
              | Raise x => (Unhandled x, with_metrics m w)
              | Ok (srt_info, m) =>
                  let m :=
                    set api_uptime []
                        (inject_Z (api_seconds (uptime_gauged e)))
                      (set system_uptime []
                           (inject_Z (system_seconds (uptime_gauged e))) m) in
                  (OK {| Status.uptime_seconds :=
                           system_seconds (uptime_returned e);
                         Status.api_uptime_seconds :=
                           api_seconds (uptime_returned e);
                         Status.services :=
                           [ (("statime" : str), statime);
                             (("inferno" : str), inferno);
                             (("srt" : str), srt) ];
                         Status.audio_rx_channels :=
                           Audio.rx_channels audio_info;
                         Status.audio_tx_channels :=
                           Audio.tx_channels audio_info;
                         Status.audio_sample_rate :=
                           Audio.sample_rate audio_info;
                         Status.ptp_synchronized := Ptp.synchronized ptp_info;
                         Status.ptp_clock_offset_ns :=
                           Ptp.clock_offset_ns ptp_info;
                         Status.srt_connected := Srt.connected srt_info;
                         Status.srt_destination := Srt.destination srt_info;
                         Status.device_name :=
                           config_get cfg "inferno" "device_name" "Unknown";
                         Status.device_dante_ip :=
                           config_get cfg "network" "dante_ip" "Unknown" |},
                   with_metrics m w)
              end
          end
      end
  end.

(** [GET /ptp/status] *)
Definition get_ptp_status (a : stats) (e : env) (w : world)
  : response Ptp.status * world :=
  match parse_statime_log a e (metrics w) with
  | Raise x => (Unhandled x, w)
  | Ok (ptp_info, m) => (OK ptp_info, with_metrics m w)
  end.

(** [GET /srt/status] *)
Definition get_srt_status (a : stats) (e : env) (w : world)
  : response SrtView.body * world :=
  match parse_srt_log a e (metrics w) with
  | Raise x => (Unhandled x, w)
  | Ok (srt_info, m) =>
      let w := with_metrics m w in
      match load_config e with
      | Raise x => (Unhandled x, w)
      | Ok cfg =>
          let fallback :=
            "srt://" ++ config_get cfg "srt" "host" "unknown" ++ ":"
                     ++ config_get cfg "srt" "port" "0" in
          if Py.is_inf (Srt.bitrate_kbps srt_info)
             || Py.is_inf (Srt.packet_loss_pct srt_info)
          then (Unhandled ValueError, w)
          else
          (OK {| SrtView.connected := Srt.connected srt_info;
                 SrtView.destination :=
                   match Srt.destination srt_info with
                   | Some (c :: d) => c :: d
                   | _ => fallback
                   end;
                 SrtView.mode := config_get cfg "srt" "mode" "unknown";
                 SrtView.bitrate_kbps := Srt.bitrate_kbps srt_info;
                 SrtView.rtt_ms := Srt.rtt_ms srt_info;
                 SrtView.packet_loss_pct := Srt.packet_loss_pct srt_info;
                 SrtView.latency_ms :=
                   default ∅ (cfg !! ("srt" : str)) !! ("latency_ms" : str) |},
           w)
      end
  end.

(** [GET /network/status] *)
Definition get_network_status (a : stats) (e : env) (w : world)
  : response Network.body * world :=
  match load_config e with
  | Raise x => (Unhandled x, w)
  | Ok cfg =>
      match parse_inferno_log a e with
      | Raise x => (Unhandled x, w)
      | Ok audio_info =>
          match loss_rate (Audio.packets_received audio_info)
                          (Audio.packets_lost audio_info) with
          | Raise x => (Unhandled x, w)
          | Ok rate =>
              (OK {| Network.dante_interface :=
                       config_get cfg "network" "dante_interface" "eth0";
                     Network.dante_ip :=
                       config_get cfg "network" "dante_ip" "Unknown";
                     Network.packets_received :=
                       Audio.packets_received audio_info;
                     Network.packets_lost := Audio.packets_lost audio_info;
                     Network.packet_loss_rate := rate |},
               update_metrics (set Metrics.packet_loss_rate [] rate) w)
          end
      end
  end.

(** [GET /audio/status] *)
Definition get_audio_status (a : stats) (e : env) (w : world)
  : response AudioView.body * world :=
  match load_config e with
  | Raise x => (Unhandled x, w)
  | Ok cfg =>
      match parse_inferno_log a e with
      | Raise x => (Unhandled x, w)
      | Ok audio_info =>
          match config_rx_channels cfg with
          | Raise x => (Unhandled x, w)
          | Ok rx_channels =>
              let '(channels, m) :=
                fold_left (fun acc i => audio_channel_step i acc)
                          (range rx_channels) ([], metrics w) in
              (OK {| AudioView.sample_rate := Audio.sample_rate audio_info;
                     AudioView.rx_channels := rx_channels;
                     AudioView.channels := channels;
                     AudioView.silence_detected :=
                       existsb AudioView.silent channels |},
               with_metrics m w)
          end
      end
  end.

(** [GET /audio/output] *)
Definition get_audio_output (a : stats) (e : env) (w : world)
  : response OutputStatus.body * world :=
  match read_audio_output_config a w with
  | Raise x => (Unhandled x, w)
  | Ok _ => get_audio_output e w
  end.

(** [POST /audio/output/toggle] *)
Definition toggle_audio_output (a : stats) (e : env) (w : world)
  : response Toggle.body * world :=
  match read_audio_output_config a w with
  | Raise x => (Unhandled x, w)
  | Ok _ => toggle_audio_output e w
  end.

End Probed.

(** Every test answers; no test answers. *)
Definition all_answer : stats :=
  {| statime_stat := true; inferno_stat := true; srt_stat := true;
     audio_out_stat := true |}.

Definition log_dir_closed : stats :=
  {| statime_stat := false; inferno_stat := false; srt_stat := false;
     audio_out_stat := true |}.

(** ** The service as a whole

    One request, handled in the outside world of its moment; the body is
    dropped, the status code and the new process state are kept. *)

Inductive request :=
| GET_health
| GET_status
| GET_status_services
| GET_audio_status
| GET_audio_output
| POST_audio_output (audio_config : AudioOutputConfig)
| POST_audio_output_toggle
| GET_ptp_status
| GET_srt_status
| GET_network_status
| GET_metrics.

Definition answered {A} (x : response A * world) : Z * world :=
  (status_code (fst x), snd x).

Definition handle (e : env) (r : request) (w : world) : Z * world :=
  match r with
  | GET_health => answered (health_check e w)
  | GET_status => answered (get_status e w)
  | GET_status_services => answered (get_services_status e w)
  | GET_audio_status => answered (get_audio_status e w)
  | GET_audio_output => answered (get_audio_output e w)
  | POST_audio_output c => answered (set_audio_output e c w)
  | POST_audio_output_toggle => answered (toggle_audio_output e w)
  | GET_ptp_status => answered (get_ptp_status e w)
  | GET_srt_status => answered (get_srt_status e w)
  | GET_network_status => answered (get_network_status e w)
  | GET_metrics => (200, w)
  end.

(** The process at start-up: an empty registry (the start-up event probes
    the three services), whatever routing file is on disk. *)
Definition startup (e : env) (routing : file) : world :=
  fold_left (fun w service => snd (check_service_status e service w))
            [ ("statime" : str); ("inferno" : str); ("inferno-srt" : str) ]
            {| metrics := ∅; audio_out_config := routing; commands := [] |}.

(** The process after a history of requests, oldest first, each handled in
    the outside world of its moment. *)
Definition serve (history : list (env * request)) (w : world) : world :=
  fold_left (fun w x => snd (handle (fst x) (snd x) w)) history w.

(** ** Auxiliary notions for the properties *)

(** What a matching step in continuation style has to satisfy: whenever
    it succeeds, it has consumed a text matching [r] and the continuation
    succeeded on the rest. *)
Definition sound_step (ignorecase : bool) {X : Type} (r : regex)
  (step : str -> option str -> (str -> option str -> option X) -> option X)
  : Prop :=
  forall cur cap k x, step cur cap k = Some x ->
    exists w rest cap', cur = w ++ rest /\ matches ignorecase r w cap cap' /\
                        k rest cap' = Some x.

(** Whether a pattern contains a group. *)
Fixpoint has_group (r : regex) : bool :=
  match r with
  | Lit _ | Cls _ => false
  | Cat r1 r2 => has_group r1 || has_group r2
  | Opt r1 | Star r1 => has_group r1
  | Group _ => true
  end.

(** A non-empty run of decimal digits. *)
Definition numeral (w : str) : Prop :=
  w <> [] /\ forallb Py.is_digit w = true.

(** Digits, then possibly a point and further digits: the shape
    [re_decimal] captures. *)
Definition decimal (w : str) : Prop :=
  exists a b, numeral a /\ forallb Py.is_digit b = true /\
              (w = a ++ b \/ w = a ++ "." ++ b).

(** The number a run of digits denotes, continuing from [acc]. *)
Definition digits_value (w : str) (acc : Z) : Z :=
  fold_left (fun a c => 10 * a + Py.digit_val c) w acc.

(** The value one line yields for a field: the trigger holds, the pattern
    matches and the conversion succeeds. *)
Definition captured {V} (cond : bool) (m : option str)
           (conv : str -> outcome V) : option V :=
  if cond then
    match m with
    | Some g => match conv g with Ok v => Some v | Raise _ => None end
    | None => None
    end
  else None.

Definition store_opt {V S} (o : option V) (store : V -> S -> S) (s : S) : S :=
  match o with
  | Some v => store v s
  | None => s
  end.

(** The candidates of each field, line by line. *)
Definition offset_in_line (line : str) : option Z :=
  captured (Py.contains "offset" (Py.lower line))
           (search false re_offset line) Py.int.

Definition rx_channels_in_line (line : str) : option Z :=
  captured (Py.contains "channels" (Py.lower line))
           (search false re_channels line) Py.int.

Definition sample_rate_in_line (line : str) : option Z :=
  captured (Py.contains "sample rate" (Py.lower line)
            || Py.contains "hz" (Py.lower line))
           (search true re_hz line) Py.int.

Definition packets_received_in_line (line : str) : option Z :=
  captured (Py.contains "packets" (Py.lower line))
           (search true re_received line) Py.int.

Definition packets_lost_in_line (line : str) : option Z :=
  captured (Py.contains "packets" (Py.lower line))
           (search true re_lost line) Py.int.

Definition uri_in_line (line : str) : option str :=
  captured (Py.contains "srt://" (Py.lower line))
           (search false re_srt_uri line) Ok.

Definition bitrate_in_line (line : str) : option Q :=
  captured (Py.contains "bitrate" (Py.lower line)
            || Py.contains "kbits/s" (Py.lower line))
           (search true re_kbits line) Py.float.

Definition loss_in_line (line : str) : option Q :=
  captured (Py.contains "loss" (Py.lower line))
           (search false re_percent line) Py.float.

(** The connected flag a line with a URI stands for. *)
Definition line_connected (line : str) : bool :=
  negb (Py.contains "error" (Py.lower line))
  && negb (Py.contains "failed" (Py.lower line)).

(** The first line of a list that yields a value, and its value. *)
Fixpoint first_match {V} (f : str -> option V) (lines : list str) : option V :=
  match lines with
  | [] => None
  | line :: rest =>
      match f line with
      | Some v => Some v
      | None => first_match f rest
      end
  end.

(** Lines are in file order: the oldest candidate is the first match, the
    most recent one the first match of the reversed list. *)
Definition oldest {V} (f : str -> option V) (lines : list str) : option V :=
  first_match f lines.
Definition most_recent {V} (f : str -> option V) (lines : list str)
  : option V :=
  first_match f (rev lines).

(** The registry after a clock report of offset [o]: both clock gauges
    written, the first with [float(o)]; or neither, when [float(o)]
    overflows. *)
Definition clock_published (o : Z) (m : registry) : registry :=
  match Py.float_of_int o with
  | Ok f =>
      set ptp_synchronized [] (of_bool (Z.abs o <? 100000))
          (set ptp_clock_offset [] f m)
  | Raise _ => m
  end.

(** What one line does to each dictionary, exceptions apart. *)
Definition inferno_update (line : str) (s : Audio.status) : Audio.status :=
  store_opt (packets_lost_in_line line) Audio.set_packets_lost
    (store_opt (packets_received_in_line line) Audio.set_packets_received
       (store_opt (sample_rate_in_line line) Audio.set_sample_rate
          (store_opt (rx_channels_in_line line) Audio.set_rx_channels s))).

Definition srt_update (line : str) (s : Srt.status) : Srt.status :=
  store_opt (loss_in_line line) Srt.set_packet_loss_pct
    (store_opt (bitrate_in_line line) Srt.set_bitrate_kbps
       (store_opt (uri_in_line line)
                  (fun uri => Srt.set_destination uri (line_connected line))
                  s)).

Definition connected_in_line (line : str) : option bool :=
  option_map (fun _ => line_connected line) (uri_in_line line).

(** A log the parser cannot use: absent, or failing on [open] or on read. *)
Definition unavailable (f : file) : Prop := f = Missing \/ f = Unreadable.

(** A character that is neither white space, nor the equals sign, nor the
    double quote: what a value may contain for its line to be read back. *)
Definition plain (c : ascii) : bool :=
  negb (Py.is_space c) && negb (Ascii.eqb c "="%char)
  && negb (Ascii.eqb c Py.quote).

(** ceil(n / 2) *)
Definition ceil_half (n : Z) : Z := Qceiling (n # 2).

(** The round-trip gauge reads zero. *)
Definition rtt_zero (w : world) : Prop :=
  value srt_rtt [] (metrics w) = 0%Q.

(** The metrics a request may write. *)
Definition written_by (r : request) : list str :=
  match r with
  | GET_health | GET_audio_output => [service_up]
  | GET_status =>
      [service_up; ptp_clock_offset; ptp_synchronized; srt_connected;
       srt_bitrate; srt_rtt; srt_packet_loss; system_uptime; api_uptime]
  | GET_status_services => [service_up; service_restarts]
  | GET_audio_status => [audio_level; audio_peak; Metrics.silence_detected]
  | GET_ptp_status => [ptp_clock_offset; ptp_synchronized]
  | GET_srt_status => [srt_connected; srt_bitrate; srt_rtt; srt_packet_loss]
  | GET_network_status => [Metrics.packet_loss_rate]
  | POST_audio_output _ | POST_audio_output_toggle | GET_metrics => []
  end.

(** *** Agreement of the registry with a snapshot *)

Definition ptp_agrees (s : Ptp.status) (m : registry) : bool :=
  Qeq_bool (value ptp_clock_offset [] m) (inject_Z (Ptp.clock_offset_ns s))
  && Qeq_bool (value ptp_synchronized [] m) (of_bool (Ptp.synchronized s)).

Definition srt_agrees (s : Srt.status) (m : registry) : bool :=
  Qeq_bool (value srt_connected [] m) (of_bool (Srt.connected s))
  && Qeq_bool (value srt_bitrate [] m) (Srt.bitrate_kbps s)
  && Qeq_bool (value srt_rtt [] m) (inject_Z (Srt.rtt_ms s))
  && Qeq_bool (value srt_packet_loss [] m) (Srt.packet_loss_pct s).

Definition packets_agree (received lost : Z) (m : registry) : bool :=
  Qeq_bool (value Metrics.packets_received [] m) (inject_Z received)
  && Qeq_bool (value Metrics.packets_lost [] m) (inject_Z lost).

Definition restarts_agree (body : Services.body) (m : registry) : bool :=
  forallb (fun x => Qeq_bool (value service_restarts (fst x) m)
                             (inject_Z (Services.restart_count (snd x))))
          body.

Definition running_agree (body : list (str * bool)) (m : registry) : bool :=
  forallb (fun x => Qeq_bool (value service_up (fst x) m) (of_bool (snd x)))
          body.

(** The body of an answer, when there is one. *)
Definition body_of {A} (r : response A) : option A :=
  match r with
  | OK body => Some body
  | _ => None
  end.

(** The clock gauges hold what an offset and a flag stand for: the
    offset as a float, the flag as 1 or 0. *)
Definition clock_gauges_hold (offset : Z) (synchronized : bool)
           (m : registry) : bool :=
  match Py.float_of_int offset with
  | Ok f =>
      Qeq_bool (value ptp_clock_offset [] m) f
      && Qeq_bool (value ptp_synchronized [] m) (of_bool synchronized)
  | Raise _ => false
  end.

(** The offset the tail of the clock log yields, if any; whether there is
    one that a float can hold; and whether the stream log can be read. *)
Definition clock_offset (e : env) : option Z :=
  match statime_log e with
  | Content text => most_recent offset_in_line (tail text)
  | _ => None
  end.

Definition clock_offset_published (e : env) : bool :=
  match clock_offset e with
  | Some o =>
      match Py.float_of_int o with
      | Ok _ => true
      | Raise _ => false
      end
  | None => false
  end.

Definition srt_log_readable (e : env) : bool :=
  match srt_log e with
  | Content _ => true
  | _ => false
  end.

(** ** Sample inputs *)

(** A text file with the given lines. *)
Definition text_of (lines : list str) : str :=
  concat (map (fun l => l ++ [Py.nl]) lines).

(** An hour after boot, two minutes after the start of the API. *)
Definition an_hour_up : uptimes :=
  {| system_seconds := 3600; api_seconds := 120 |}.

(** An appliance on which nothing runs and nothing was logged yet. *)
Definition bare : env :=
  {| statime_log := Missing; inferno_log := Missing; srt_log := Missing;
     config_file := Missing;
     systemctl := fun _ => Ok {| returncode := 3; stdout := "inactive" ++ [Py.nl] |};
     audio_out_write := Written;
     uptime_gauged := an_hour_up; uptime_returned := an_hour_up |}.

Definition fresh : world :=
  {| metrics := ∅; audio_out_config := Missing; commands := [] |}.

(** The bridge reported 4 channels, later 8; the stream was opened, later
    reopened to another host with an error. *)
Definition inferno_two_reports : str :=
  text_of [ ("opened 4 channels at 44100 Hz" : str);
            ("packets received: 10 lost: 2" : str);
            ("now 8 channels, 48000 hz" : str);
            ("packets received: 500, lost: 7" : str) ].

Definition srt_two_reports : str :=
  text_of [ ("Opening srt://10.0.0.2:9000 for writing" : str);
            ("bitrate= 128.5kbits/s loss 0.5%" : str);
            ("srt://10.0.0.9:9000 connection error" : str);
            ("bitrate= 64kbits/s loss 2%" : str) ].

Definition two_reports : env :=
  {| statime_log := Missing; inferno_log := Content inferno_two_reports;
     srt_log := Content srt_two_reports; config_file := Missing;
     systemctl := systemctl bare; audio_out_write := Written;
     uptime_gauged := an_hour_up; uptime_returned := an_hour_up |}.

(** A log whose latest statistics show five packets and no loss. *)
Definition no_loss : env :=
  {| statime_log := Missing;
     inferno_log := Content (text_of [ ("packets received: 5 lost: 0" : str) ]);
     srt_log := Missing; config_file := Missing;
     systemctl := systemctl bare; audio_out_write := Written;
     uptime_gauged := an_hour_up; uptime_returned := an_hour_up |}.

(** The clock log with one report of the given offset. *)
Definition clock_at (offset : str) : env :=
  {| statime_log := Content (text_of [ "clock offset: " ++ offset ++ " ns" ]);
     inferno_log := Missing; srt_log := Missing; config_file := Missing;
     systemctl := systemctl bare; audio_out_write := Written;
     uptime_gauged := an_hour_up; uptime_returned := an_hour_up |}.

(** A routing request within the rules, and an appliance that accepts it. *)
Definition eight_channels : env :=
  {| statime_log := Missing; inferno_log := Missing; srt_log := Missing;
     config_file :=
       Content (text_of [ ("[inferno]" : str); ("rx_channels = 8" : str) ]);
     systemctl := fun _ => Ok {| returncode := 0; stdout := [] |};
     audio_out_write := Written;
     uptime_gauged := an_hour_up; uptime_returned := an_hour_up |}.

(** An appliance whose services are active and were each restarted three
    times. *)
Definition restarted : env :=
  {| statime_log := Missing; inferno_log := Missing; srt_log := Missing;
     config_file := Missing;
     systemctl := fun argv =>
       match argv with
       | _ :: verb :: _ =>
           if str_eqb verb "show"
           then Ok {| returncode := 0; stdout := "NRestarts=3" ++ [Py.nl] |}
           else Ok {| returncode := 0; stdout := "active" ++ [Py.nl] |}
       | _ => Raise OSError
       end;
     audio_out_write := Written;
     uptime_gauged := an_hour_up; uptime_returned := an_hour_up |}.

(** ** Further notions: texts, lines and what a probe answers *)

(** A text that is empty or ends with a newline: every line written to it
    was terminated. *)
Fixpoint complete (t : str) : bool :=
  match t with
  | [] => true
  | c :: t' =>
      match t' with
      | [] => Ascii.eqb c Py.nl
      | _ :: _ => complete t'
      end
  end.

(** A text that does not start with a decimal digit. *)
Definition no_leading_digit (t : str) : bool :=
  match t with
  | [] => true
  | c :: _ => negb (Py.is_digit c)
  end.


(** The decimal text of an integer: digits, after a minus sign for a
    negative one. *)
Definition signed_numeral (s : str) : Prop :=
  numeral s \/ exists w, s = "-"%char :: w /\ numeral w.


(** systemd answering every probe with the given standard output. *)
Definition answering (out : str) : env :=
  {| statime_log := Missing; inferno_log := Missing; srt_log := Missing;
     config_file := Missing;
     systemctl := fun _ => Ok {| returncode := 0; stdout := out |};
     audio_out_write := Written;
     uptime_gauged := an_hour_up; uptime_returned := an_hour_up |}.

(** The clock log with an older line and, last, the report of [n]. *)
Definition clock_at' (older : str) (n : Z) (rest : str) : env :=
  {| statime_log :=
       Content (text_of [older]
                ++ ("offset: " ++ Py.str_of_int n ++ rest) ++ [Py.nl]);
     inferno_log := Missing; srt_log := Missing; config_file := Missing;
     systemctl := fun _ => Raise TimeoutExpired;
     audio_out_write := Written;
     uptime_gauged := an_hour_up; uptime_returned := an_hour_up |}.

(** The three values the state of the clock can take. *)
Definition clock_state (s : str) : Prop :=
  s = ("unknown" : str) \/ s = ("slave" : str) \/ s = ("master" : str).

(** A destination as the stream parser stores it: [srt://] followed by at
    least one character, none of them white space or a quote. *)
Definition srt_uri (u : str) : Prop :=
  exists w, u = "srt://" ++ w /\ w <> [] /\
            forallb (fun c => negb (Py.is_space c || Ascii.eqb c "'"%char
                                    || Ascii.eqb c Py.quote)) w = true.

(** What systemd says of a service: active, when the call returns and its
    output, stripped, is the word active. *)
Definition probe_active (e : env) (service_name : str) : bool :=
  match systemctl e [ ("systemctl" : str); ("is-active" : str);
                      service_name ++ ".service" ] with
  | Ok p => str_eqb (Py.strip (stdout p)) "active"
  | Raise _ => false
  end.

(** The command line of the restart-count query. *)
Definition show_restarts (service_name : str) : list str :=
  [ ("systemctl" : str); ("show" : str); service_name ++ ".service";
    ("--property=NRestarts" : str) ].

(** systemd reporting the given number of restarts, every service active. *)
Definition restarted_times (n : Z) : env :=
  {| statime_log := Missing; inferno_log := Missing; srt_log := Missing;
     config_file := Missing;
     systemctl := fun argv =>
       match argv with
       | _ :: verb :: _ =>
           if str_eqb verb "show"
           then Ok {| returncode := 0;
                      stdout := "NRestarts=" ++ Py.str_of_int n ++ [Py.nl] |}
           else Ok {| returncode := 0; stdout := "active" ++ [Py.nl] |}
       | _ => Raise OSError
       end;
     audio_out_write := Written;
     uptime_gauged := an_hour_up; uptime_returned := an_hour_up |}.

(** A run of blanks. *)
Definition blanks (n : nat) : str := repeat " "%char n.

(** The header line of a section and the line giving a key its value, as
    they stand in the installation file. *)
Definition section_line (sec : str) : str := "[" ++ sec ++ "]" ++ [Py.nl].

Definition key_line (key : str) (n1 n2 : nat) (value : str) : str :=
  key ++ blanks n1 ++ "=" ++ blanks n2 ++ value ++ [Py.nl].

(** A key that is not taken for a comment or for a section header. *)
Definition key_start (key : str) : bool :=
  match key with
  | c :: _ => negb (Ascii.eqb c "#"%char) && negb (Ascii.eqb c "["%char)
  | [] => false
  end.

(** The mapping and the current section after the lines of a text. *)
Definition config_after (text : str) : config * option str :=
  fold_left (fun acc line => load_config_line line acc)
            (Py.splitlines text) (∅, None).

(** An installation file with a stale value, a repeated header and a
    fresh value. *)
Definition installation : env :=
  {| statime_log := Missing; inferno_log := Missing; srt_log := Missing;
     config_file :=
       Content (text_of [ ("# bridge" : str); ("[inferno]" : str);
                          ("rx_channels = 2" : str);
                          ("device_name=old" : str) ]
                ++ section_line "inferno"
                ++ key_line "rx_channels" 1 2 "16");
     systemctl := fun _ => Raise TimeoutExpired;
     audio_out_write := Written;
     uptime_gauged := an_hour_up; uptime_returned := an_hour_up |}.

(** Whether a line, once stripped, is a section header. *)
Definition is_header (line : str) : bool :=
  Py.startswith "[" (Py.strip line) && Py.endswith "]" (Py.strip line).





(** An installation file written without any section header. *)
Definition flat_installation : env :=
  {| statime_log := Missing; inferno_log := Missing; srt_log := Missing;
     config_file :=
       Content (text_of [ ("# bridge" : str); ("rx_channels = 16" : str);
                          ("device_name = stage" : str) ]);
     systemctl := fun _ => Raise TimeoutExpired;
     audio_out_write := Written;
     uptime_gauged := an_hour_up; uptime_returned := an_hour_up |}.



(** ** Further notions: the output service and the routing file *)

(** The command line that controls the output service. *)
Definition control_command (verb : str) : list str :=
  [ ("systemctl" : str); verb; ("inferno-audio-out.service" : str) ].

(** A command that returned, with exit status 0. *)
Definition succeeded (result : outcome completed) : bool :=
  match result with
  | Ok p => returncode p =? 0
  | Raise _ => false
  end.

(** The verb [POST /audio/output] uses for a request. *)
Definition set_verb (enabled : bool) : str :=
  if enabled then ("restart" : str) else ("stop" : str).

(** The verb [POST /audio/output/toggle] uses for the new state. *)
Definition toggle_verb (enabled : bool) : str :=
  if enabled then ("start" : str) else ("stop" : str).

(** The process with the routing file as the given request would write
    it and the control command appended to the trace. *)
Definition routed (request : AudioOutputConfig) (rx_channels : Z) (w : world)
  : world :=
  {| metrics := metrics w;
     audio_out_config :=
       Content (audio_output_text (enabled request) (device request)
                                  (stereo_pair request) (Some rx_channels));
     commands := commands w ++ [control_command (set_verb (enabled request))] |}.

(** The process with another routing file. *)
Definition with_routing (f : file) (w : world) : world :=
  {| metrics := metrics w; audio_out_config := f; commands := commands w |}.


(** The keys of the routing file whose value is converted with [int]. *)
Definition numeric_keys : list str :=
  [ ("STEREO_PAIR" : str); ("CHANNEL_L" : str); ("CHANNEL_R" : str);
    ("RX_CHANNELS" : str) ].

(** A routing file whose stereo pair was edited by hand to a word. *)
Definition edited : world :=
  {| metrics := ∅;
     audio_out_config :=
       Content (assignment "ENABLED" "true"
                ++ assignment "STEREO_PAIR" "two"
                ++ assignment "DEVICE" "hdmi");
     commands := [] |}.

(** An appliance on which systemctl fails for every command. *)
Definition no_systemctl : env :=
  {| statime_log := Missing; inferno_log := Missing; srt_log := Missing;
     config_file :=
       Content (text_of [ ("[inferno]" : str); ("rx_channels = 8" : str) ]);
     systemctl := fun _ => Raise OSError;
     audio_out_write := Written;
     uptime_gauged := an_hour_up; uptime_returned := an_hour_up |}.


(** An appliance whose configuration directory cannot be written. *)
Definition read_only : env :=
  {| statime_log := Missing; inferno_log := Missing; srt_log := Missing;
     config_file :=
       Content (text_of [ ("[inferno]" : str); ("rx_channels = 8" : str) ]);
     systemctl := fun _ => Ok {| returncode := 0; stdout := [] |};
     audio_out_write := Refused;
     uptime_gauged := an_hour_up; uptime_returned := an_hour_up |}.

(** ** Further notions: the commands and the counters *)

(** A query to systemd that changes nothing: is-active, or show with the
    restart-count property. *)
Definition probe_command (argv : list str) : bool :=
  match argv with
  | [a; verb; _] => str_eqb a "systemctl" && str_eqb verb "is-active"
  | [a; verb; _; property] =>
      str_eqb a "systemctl" && str_eqb verb "show"
      && str_eqb property "--property=NRestarts"
  | _ => false
  end.

(** The verbs the routing endpoints use on the output service. *)
Definition control_verbs : list str :=
  [ ("restart" : str); ("start" : str); ("stop" : str) ].

Definition is_post (r : request) : bool :=
  match r with
  | POST_audio_output _ | POST_audio_output_toggle => true
  | _ => false
  end.

(** From [w] to [w'] the routing file was left alone and only queries
    were run. *)
Definition only_probes (w w' : world) : Prop :=
  audio_out_config w' = audio_out_config w /\
  exists extra, commands w' = commands w ++ extra /\
                forallb probe_command extra = true.

(** From [w] to [w'] at most one control command was run. *)
Definition at_most_one_control (w w' : world) : Prop :=
  exists extra, commands w' = commands w ++ extra /\
    (extra = [] \/
     exists verb, In verb control_verbs /\ extra = [control_command verb]).

(** The metrics declared as counters. *)
Definition counters : list str :=
  [ service_restarts; silence_events; ptp_master_changes;
    Metrics.packets_received; Metrics.packets_lost ].

(** ** Further notions: the installation file and the views *)



(** An appliance whose channel count was written as a word. *)
Definition misconfigured : env :=
  {| statime_log := Missing; inferno_log := Missing; srt_log := Missing;
     config_file :=
       Content (section_line "inferno" ++ key_line "rx_channels" 1 1 "many");
     systemctl := fun _ => Ok {| returncode := 0; stdout := [] |};
     audio_out_write := Written;
     uptime_gauged := an_hour_up; uptime_returned := an_hour_up |}.

(** The command line of the activity query. *)
Definition is_active_command (service_name : str) : list str :=
  [ ("systemctl" : str); ("is-active" : str); service_name ++ ".service" ].

(** * Properties *)

(** ** The primitives on examples *)

Example lower_ex : Py.lower "PTP Offset: -12" = "ptp offset: -12".
Proof. reflexivity. Qed.

Example contains_ex :
  Py.contains "offset" "ptp offset: -12" = true /\
  Py.contains "offset" "ptp Offset: -12" = false.
Proof. split; reflexivity. Qed.

Example split_ex :
  Py.split "="%char "A=b=c" = [ ("A" : str); ("b" : str); ("c" : str) ].
Proof. reflexivity. Qed.

Example splitlines_ex :
  Py.splitlines ("a" ++ [Py.nl] ++ [Py.nl] ++ "bc") =
  [ "a" ++ [Py.nl]; [Py.nl]; ("bc" : str) ].
Proof. reflexivity. Qed.

Example int_ex :
  Py.int " -42 " = Ok (-42) /\ Py.int "1_000" = Ok 1000 /\
  Py.int "4x" = Raise ValueError /\ Py.int "" = Raise ValueError /\
  Py.int "1__0" = Raise ValueError.
Proof. repeat split; reflexivity. Qed.

Example str_of_int_ex :
  Py.str_of_int 0 = "0" /\ Py.str_of_int 1207 = "1207" /\
  Py.str_of_int (-35) = "-35".
Proof. repeat split; reflexivity. Qed.

Example float_ex :
  Py.float "128.5" = Ok (1285 # 10)%Q /\ Py.float "12." = Ok (12 # 1)%Q /\
  Py.float "7" = Ok (7 # 1)%Q.
Proof. repeat split; reflexivity. Qed.

Example search_offset_ex :
  search false re_offset "clock offset: -1532 ns" = Some ("-1532" : str) /\
  search false re_offset "Offset: 12" = None /\
  search false re_offset "offset=12 offset 7" = Some ("7" : str).
Proof. repeat split; reflexivity. Qed.

Example search_channels_ex :
  search false re_channels "opened 8 channels at 48000 Hz" = Some ("8" : str) /\
  search false re_channels "12channel" = Some ("12" : str) /\
  search false re_channels "Channels: 8" = None.
Proof. repeat split; reflexivity. Qed.

Example search_kbits_ex :
  search true re_kbits "bitrate= 128.5kbits/s speed=1x" = Some ("128.5" : str) /\
  search true re_kbits "rate 96 KBit/s" = Some ("96" : str) /\
  search false re_percent "loss 0.25% of 1.5%" = Some ("0.25" : str).
Proof. repeat split; reflexivity. Qed.

Example search_uri_ex :
  search false re_srt_uri "Opening 'srt://10.0.0.2:9000?mode=caller' for writing"
  = Some ("srt://10.0.0.2:9000?mode=caller" : str).
Proof. reflexivity. Qed.

Example audio_output_text_ex :
  audio_output_text true "hdmi" 3 (Some 8) =
  ("# Hardware audio output configuration" ++ [Py.nl])
  ++ ("# This file can be modified via API or manually" ++ [Py.nl])
  ++ ("ENABLED=" ++ [Py.quote] ++ "true" ++ [Py.quote; Py.nl])
  ++ ("DEVICE=" ++ [Py.quote] ++ "hdmi" ++ [Py.quote; Py.nl])
  ++ ("STEREO_PAIR=" ++ [Py.quote] ++ "3" ++ [Py.quote; Py.nl])
  ++ ("CHANNEL_L=" ++ [Py.quote] ++ "4" ++ [Py.quote; Py.nl])
  ++ ("CHANNEL_R=" ++ [Py.quote] ++ "5" ++ [Py.quote; Py.nl])
  ++ ("RX_CHANNELS=" ++ [Py.quote] ++ "8" ++ [Py.quote; Py.nl]).
Proof. reflexivity. Qed.

(** ** The program on examples *)

Example load_config_ex :
  (cfg ← load_config eight_channels; config_rx_channels cfg) = Ok 8 /\
  load_config bare = Ok ∅ /\
  (cfg ← load_config
     {| statime_log := Missing; inferno_log := Missing; srt_log := Missing;
        config_file :=
          Content (text_of [ ("# bridge" : str); ("[srt]" : str);
                             ("host = 10.0.0.2" : str); ("port=9000" : str);
                             ("stray line" : str) ]);
        systemctl := systemctl bare; audio_out_write := Written;
        uptime_gauged := an_hour_up; uptime_returned := an_hour_up |};
   Ok (config_get cfg "srt" "host" "unknown",
       config_get cfg "srt" "port" "0",
       config_get cfg "srt" "mode" "unknown"))
  = Ok (("10.0.0.2" : str), ("9000" : str), ("unknown" : str)).
Proof. vm_compute. repeat split. Qed.

Example parse_statime_log_ex :
  fst (parse_statime_log
         {| statime_log :=
              Content (text_of [ ("port state: MASTER" : str);
                                 ("clock offset: 1200 ns" : str);
                                 ("clock offset: -250000 ns" : str);
                                 ("port state: LISTENING" : str) ]);
            inferno_log := Missing; srt_log := Missing;
            config_file := Missing; systemctl := systemctl bare;
            audio_out_write := Written;
            uptime_gauged := an_hour_up; uptime_returned := an_hour_up |} ∅)
  = {| Ptp.synchronized := false; Ptp.clock_offset_ns := -250000;
       Ptp.master_ip := None; Ptp.state := "slave" |}.
Proof. vm_compute. reflexivity. Qed.

Example toggle_audio_output_ex :
  let '(r, w) := toggle_audio_output eight_channels fresh in
  status_code r = 200 /\
  read_audio_output_config w
  = {| Out.enabled := true; Out.device := "auto"; Out.stereo_pair := 1;
       Out.channel_l := 0; Out.channel_r := 1; Out.rx_channels := 2 |} /\
  commands w = [ [ ("systemctl" : str); ("start" : str);
                   ("inferno-audio-out.service" : str) ] ].
Proof. vm_compute. repeat split. Qed.

Example health_check_ex :
  option_map Health.healthy (body_of (fst (health_check bare fresh)))
  = Some false /\
  option_map Health.healthy (body_of (fst (health_check restarted fresh)))
  = Some true.
Proof. vm_compute. split; reflexivity. Qed.

(** ** The matcher finds only matches *)

Section Soundness.
Variable ignorecase : bool.
Context {X : Type}.

Lemma lit_sound p : forall cur rest,
  lit ignorecase p cur = Some rest ->
  exists w, cur = w ++ rest /\
            Forall2 (fun a b => same ignorecase a b = true) p w.
Proof.
  induction p as [|a p IH]; intros cur rest H; simpl in H.
  - injection H as ->. exists []. split; [reflexivity | constructor].
  - destruct cur as [|b cur]; [discriminate|].
    destruct (same ignorecase a b) eqn:E; [|discriminate].
    destruct (IH _ _ H) as (w & -> & Hw).
    exists (b :: w). split; [reflexivity | constructor; assumption].
Qed.

Lemma star_loop_sound r step (k : str -> option str -> option X) :
  sound_step ignorecase r step ->
  forall fuel cur cap x,
    star_loop step k fuel cur cap = Some x ->
    exists w rest cap', cur = w ++ rest /\
      matches ignorecase (Star r) w cap cap' /\ k rest cap' = Some x.
Proof.
  intros Hstep. induction fuel as [|fuel IH]; intros cur cap x H; simpl in H.
  - exists [], cur, cap. repeat split; [constructor | assumption].
  - match type of H with
    | match ?sc with _ => _ end = _ => destruct sc as [y|] eqn:E
    end.
    + injection H as ->.
      apply Hstep in E. destruct E as (w1 & rest1 & cap1 & -> & Hm & Hk).
      destruct (length rest1 <? length (w1 ++ rest1))%nat; [|discriminate].
      apply IH in Hk. destruct Hk as (w2 & rest & cap' & -> & Hm2 & Hk).
      exists (w1 ++ w2), rest, cap'. repeat split.
      * now rewrite <- app_assoc.
      * econstructor; eassumption.
      * assumption.
    + exists [], cur, cap. repeat split; [constructor | assumption].
Qed.

Lemma firstn_consumed (w rest : str) :
  firstn (length (w ++ rest) - length rest) (w ++ rest) = w.
Proof.
  rewrite length_app, Nat.add_sub.
  rewrite firstn_app, Nat.sub_diag, firstn_all. simpl. apply app_nil_r.
Qed.

Lemma exec_sound r : sound_step ignorecase r (exec (X:=X) ignorecase r).
Proof.
  induction r as [p|f|r1 IH1 r2 IH2|r1 IH1|r1 IH1|r1 IH1];
    intros cur cap k x H; simpl in H.
  - destruct (lit ignorecase p cur) as [rest|] eqn:E; [|discriminate].
    destruct (lit_sound _ _ _ E) as (w & -> & Hw).
    exists w, rest, cap. repeat split; [constructor|]; assumption.
  - destruct cur as [|c rest]; [discriminate|].
    destruct (f c) eqn:E; [|discriminate].
    exists [c], rest, cap. repeat split; [constructor|]; assumption.
  - apply IH1 in H. destruct H as (w1 & rest1 & cap1 & -> & Hm1 & H).
    apply IH2 in H. destruct H as (w2 & rest & cap' & -> & Hm2 & H).
    exists (w1 ++ w2), rest, cap'. repeat split.
    + now rewrite <- app_assoc.
    + econstructor; eassumption.
    + assumption.
  - destruct (exec ignorecase r1 cur cap k) as [y|] eqn:E.
    + injection H as ->. apply IH1 in E.
      destruct E as (w & rest & cap' & -> & Hm & Hk).
      exists w, rest, cap'. repeat split; [apply m_opt_some|]; assumption.
    + exists [], cur, cap. repeat split; [apply m_opt_none | assumption].
  - eapply star_loop_sound; eassumption.
  - apply IH1 in H. destruct H as (w & rest & cap' & -> & Hm & H).
    rewrite firstn_consumed in H.
    exists w, rest, (Some w). repeat split; [econstructor|]; eassumption.
Qed.
End Soundness.

(** A successful search returns group 1 of a match somewhere in the line. *)
Lemma search_sound ignorecase r : forall line g,
  search ignorecase r line = Some g ->
  exists before w rest cap,
    line = before ++ w ++ rest /\ matches ignorecase r w None cap /\
    g = default [] cap.
Proof.
  induction line as [|c line IH]; intros g H; simpl in H.
  - destruct (exec _ _ _ _ _) as [y|] eqn:E; [|discriminate].
    injection H as ->. apply exec_sound in E.
    destruct E as (w & rest & cap & Hl & Hm & Hk). injection Hk as <-.
    exists [], w, rest, cap. auto.
  - destruct (exec _ _ _ _ _) as [y|] eqn:E.
    + injection H as ->. apply exec_sound in E.
      destruct E as (w & rest & cap & Hl & Hm & Hk). injection Hk as <-.
      exists [], w, rest, cap. auto.
    + destruct (IH _ H) as (before & w & rest & cap & -> & Hm & ->).
      exists (c :: before), w, rest, cap. auto.
Qed.

(** ** What the patterns capture *)

Lemma matches_groupless ignorecase r w c0 c1 :
  matches ignorecase r w c0 c1 -> has_group r = false -> c1 = c0.
Proof.
  induction 1; simpl; intros Hg; try reflexivity; try discriminate.
  - apply orb_false_iff in Hg as [Hg1 Hg2].
    rewrite (IHmatches2 Hg2). auto.
  - auto.
  - rewrite (IHmatches2 Hg). auto.
Qed.

Lemma matches_star_cls ignorecase f w c0 c1 :
  matches ignorecase (Star (Cls f)) w c0 c1 -> forallb f w = true.
Proof.
  remember (Star (Cls f)) as r eqn:Hr. induction 1; try discriminate.
  - reflexivity.
  - injection Hr as ->.
    match goal with
    | Hc : matches _ (Cls _) _ _ _ |- _ => inv Hc
    end.
    simpl. apply andb_true_iff. auto.
Qed.

Lemma matches_plus_cls ignorecase f w c0 c1 :
  matches ignorecase (Plus (Cls f)) w c0 c1 ->
  w <> [] /\ forallb f w = true.
Proof.
  intros H. inv H.
  repeat match goal with
  | Hc : matches _ (Cls _) _ _ _ |- _ => inv Hc
  | Hs : matches _ (Star _) _ _ _ |- _ => apply matches_star_cls in Hs
  end.
  simpl. split; [discriminate | apply andb_true_iff; auto].
Qed.

Lemma matches_numeral ignorecase w c0 c1 :
  matches ignorecase (Plus digit) w c0 c1 -> numeral w.
Proof. apply matches_plus_cls. Qed.

Lemma same_point ignorecase y : same ignorecase "." y = true -> y = "."%char.
Proof.
  destruct ignorecase, y as [[] [] [] [] [] [] [] []];
    vm_compute; intros H; try reflexivity; discriminate H.
Qed.

Lemma matches_decimal ignorecase w c0 c1 :
  matches ignorecase re_decimal w c0 c1 -> decimal w.
Proof.
  intros H. inv H.
  match goal with
  | Hp : matches _ (Plus digit) ?a _ _,
    Hr : matches _ (Cat (Opt _) (Star digit)) _ _ _ |- _ =>
      apply matches_numeral in Hp; inv Hr; exists a
  end.
  match goal with
  | Hs : matches _ (Star digit) ?b _ _,
    Ho : matches _ (Opt _) _ _ _ |- _ =>
      apply matches_star_cls in Hs; exists b; inv Ho
  end.
  - match goal with
    | Hl : matches _ (Lit _) _ _ _ |- _ => inv Hl
    end.
    repeat match goal with
    | Hf : Forall2 _ _ _ |- _ => inv Hf
    end.
    match goal with
    | Hs : same _ _ _ = true |- _ => apply same_point in Hs; subst
    end.
    split; [assumption|]. split; [assumption|]. right. reflexivity.
  - split; [assumption|]. split; [assumption|]. left. reflexivity.
Qed.

(** ** Conversions of captured text never fail *)

Lemma digit_facts c :
  Py.is_digit c = true ->
  Py.is_space c = false /\ Ascii.eqb c "-" = false /\
  Ascii.eqb c "+" = false /\ 0 <= Py.digit_val c <= 9.
Proof.
  destruct c as [[] [] [] [] [] [] [] []]; vm_compute; intros H;
    try discriminate H; repeat split; congruence.
Qed.

Lemma lstrip_by_id f w :
  forallb (fun c => negb (f c)) w = true -> Py.lstrip_by f w = w.
Proof.
  destruct w as [|c w]; simpl; [reflexivity|].
  intros H. apply andb_true_iff in H as [H _].
  now destruct (f c).
Qed.

Lemma strip_by_id f w :
  forallb (fun c => negb (f c)) w = true -> Py.strip_by f w = w.
Proof.
  intros H. unfold Py.strip_by. rewrite (lstrip_by_id _ _ H).
  rewrite lstrip_by_id.
  - apply rev_involutive.
  - rewrite forallb_forall in *. intros c Hc. apply H.
    now apply in_rev.
Qed.

Lemma digits_no_space w :
  forallb Py.is_digit w = true ->
  forallb (fun c => negb (Py.is_space c)) w = true.
Proof.
  rewrite !forallb_forall. intros H c Hc.
  destruct (digit_facts c (H c Hc)) as (-> & _). reflexivity.
Qed.

Lemma c_space_is_space c : Py.is_c_space c = true -> Py.is_space c = true.
Proof. destruct c as [[] [] [] [] [] [] [] []]; vm_compute; congruence. Qed.

Lemma no_space_no_c_space w :
  forallb (fun c => negb (Py.is_space c)) w = true ->
  forallb (fun c => negb (Py.is_c_space c)) w = true.
Proof.
  rewrite !forallb_forall. intros H c Hc. specialize (H c Hc).
  destruct (Py.is_c_space c) eqn:E; [|reflexivity].
  now rewrite (c_space_is_space c E) in H.
Qed.

Lemma digits_value_nonneg w : forall acc,
  forallb Py.is_digit w = true -> 0 <= acc -> 0 <= digits_value w acc.
Proof.
  induction w as [|c w IH]; simpl; intros acc H Hacc; [assumption|].
  apply andb_true_iff in H as [Hc Hw].
  apply IH; [assumption|].
  destruct (digit_facts c Hc) as (_ & _ & _ & ?). lia.
Qed.

Lemma int_body_digits w : forall acc after_digit,
  forallb Py.is_digit w = true -> after_digit = true \/ w <> [] ->
  Py.int_body w acc after_digit = Some (digits_value w acc).
Proof.
  induction w as [|c w IH]; simpl; intros acc b H Hne.
  - destruct Hne as [-> | Hne]; [reflexivity | congruence].
  - apply andb_true_iff in H as [Hc Hw]. rewrite Hc.
    apply IH; auto.
Qed.

Lemma int_numeral w :
  numeral w -> Py.int w = Ok (digits_value w 0) /\ 0 <= digits_value w 0.
Proof.
  intros [Hne Hd]. split; [|apply digits_value_nonneg; [assumption | lia]].
  unfold Py.int.
  rewrite strip_by_id by now apply no_space_no_c_space, digits_no_space.
  destruct w as [|c w]; [congruence|].
  pose proof Hd as Hc. simpl in Hc. apply andb_true_iff in Hc as [Hc _].
  destruct (digit_facts c Hc) as (_ & -> & -> & _).
  rewrite int_body_digits; auto.
Qed.

Lemma int_signed_numeral w :
  numeral w -> Py.int ("-"%char :: w) = Ok (- digits_value w 0).
Proof.
  intros [Hne Hd].
  unfold Py.int. rewrite strip_by_id.
  - simpl. rewrite int_body_digits; auto.
  - simpl. now apply no_space_no_c_space, digits_no_space.
Qed.

Lemma frac_body_digits w : forall num den,
  forallb Py.is_digit w = true -> 0 <= num ->
  exists q, Py.frac_body w num den = Some q /\ (0 <= q)%Q.
Proof.
  induction w as [|c w IH]; simpl; intros num den H Hnum.
  - exists (num # den)%Q. split; [reflexivity|].
    unfold Qle. simpl. lia.
  - apply andb_true_iff in H as [Hc Hw]. rewrite Hc.
    apply IH; [assumption|].
    destruct (digit_facts c Hc) as (_ & _ & _ & ?). lia.
Qed.

Lemma float_body_digits a : forall rest acc seen,
  forallb Py.is_digit a = true ->
  Py.float_body (a ++ rest) acc seen =
  Py.float_body rest (digits_value a acc)
                (seen || negb (Nat.eqb (length a) 0)).
Proof.
  induction a as [|c a IH]; simpl; intros rest acc seen H.
  - now rewrite orb_false_r.
  - apply andb_true_iff in H as [Hc Ha]. rewrite Hc.
    rewrite IH by assumption. simpl. now rewrite orb_true_r.
Qed.

Lemma float_decimal w :
  decimal w -> exists q, Py.float w = Ok q /\ (0 <= q)%Q.
Proof.
  intros (a & b & [Hne Ha] & Hb & Hw).
  assert (Hseen : negb (Nat.eqb (length a) 0) = true)
    by (destruct a; [congruence | reflexivity]).
  assert (Hv : 0 <= digits_value a 0)
    by (apply digits_value_nonneg; [assumption | lia]).
  unfold Py.float. destruct Hw as [-> | ->].
  - rewrite float_body_digits by assumption. rewrite Hseen. simpl.
    replace b with (b ++ []) by apply app_nil_r.
    rewrite float_body_digits by assumption. simpl.
    eexists. split; [reflexivity|].
    unfold Qle. simpl.
    pose proof (digits_value_nonneg b _ Hb Hv). lia.
  - rewrite float_body_digits by assumption. rewrite Hseen. simpl.
    destruct (frac_body_digits b (digits_value a 0) 1 Hb Hv) as (q & -> & Hq).
    exists q. split; [reflexivity | assumption].
Qed.

Lemma search_numeral ignorecase r line g :
  In r [re_nrestarts; re_channels; re_hz; re_received; re_lost] ->
  search ignorecase r line = Some g -> numeral g.
Proof.
  intros Hr H. apply search_sound in H.
  destruct H as (before & w & rest & cap & _ & Hm & ->).
  simpl in Hr.
  destruct Hr as [<-|[<-|[<-|[<-|[<-|[]]]]]];
    unfold re_nrestarts, re_channels, re_hz, re_received, re_lost in Hm.
  all: inv Hm.
  all: repeat match goal with
       | H : matches _ (Cat (Plus _) (Group _)) _ _ _ |- _ => inv H
       | H : matches _ (Group _) _ _ _ |- _ => inv H
       | H : matches _ (Plus digit) _ _ _ |- _ => apply matches_numeral in H
       | H : matches _ (Lit _) _ _ _ |- _ => clear H
       | H : matches _ (Plus colon_space) _ _ _ |- _ => clear H
       | H : matches _ ?r _ (Some ?a) ?c1 |- _ =>
           assert (c1 = Some a)
             by (apply (matches_groupless _ _ _ _ _ H); reflexivity);
           clear H; subst
       end.
  all: simpl; assumption.
Qed.

Lemma search_offset_shape line g :
  search false re_offset line = Some g ->
  numeral g \/ exists w, g = "-"%char :: w /\ numeral w.
Proof.
  intros H. apply search_sound in H.
  destruct H as (before & w & rest & cap & _ & Hm & ->).
  unfold re_offset in Hm. inv Hm.
  repeat match goal with
  | H : matches _ (Cat (Plus _) (Group _)) _ _ _ |- _ => inv H
  | H : matches _ (Group _) _ _ _ |- _ => inv H
  | H : matches _ (Cat (Opt _) _) _ _ _ |- _ => inv H
  | H : matches _ (Plus digit) _ _ _ |- _ => apply matches_numeral in H
  | H : matches _ (Opt _) _ _ _ |- _ => inv H
  | H : matches _ (Lit _) _ _ _ |- _ => inv H
  | H : Forall2 _ _ _ |- _ => inv H
  | H : same false _ _ = true |- _ => apply Ascii.eqb_eq in H; subst
  end; simpl; eauto.
Qed.

Lemma search_decimal ignorecase r line g :
  In r [re_kbits; re_percent] ->
  search ignorecase r line = Some g -> decimal g.
Proof.
  intros Hr H. apply search_sound in H.
  destruct H as (before & w & rest & cap & _ & Hm & ->).
  simpl in Hr. destruct Hr as [<-|[<-|[]]]; unfold re_kbits, re_percent in Hm.
  all: inv Hm.
  all: repeat match goal with
       | H : matches _ (Group _) _ _ _ |- _ => inv H
       | H : matches _ re_decimal _ _ _ |- _ => apply matches_decimal in H
       | H : matches _ ?r _ (Some ?a) ?c1 |- _ =>
           assert (c1 = Some a)
             by (apply (matches_groupless _ _ _ _ _ H); reflexivity);
           clear H; subst
       end.
  all: simpl; assumption.
Qed.

(** ** The loop bodies never raise *)

Lemma extract_captured {S V} cond m (conv : str -> outcome V)
      (store : V -> S -> S) s :
  (forall g, m = Some g -> exists v, conv g = Ok v) ->
  extract cond m conv store s
  = Continue (store_opt (captured cond m conv) store s).
Proof.
  intros H. unfold extract, captured. destruct cond; [|reflexivity].
  destruct m as [g|]; [|reflexivity].
  destruct (H g eq_refl) as [v ->]. reflexivity.
Qed.

Lemma int_of_search ignorecase r line :
  In r [re_nrestarts; re_channels; re_hz; re_received; re_lost] ->
  forall g, search ignorecase r line = Some g ->
            exists v, Py.int g = Ok v.
Proof.
  intros Hr g H. apply (search_numeral _ _ _ _ Hr) in H.
  eexists. apply int_numeral. assumption.
Qed.

Lemma float_of_search ignorecase r line :
  In r [re_kbits; re_percent] ->
  forall g, search ignorecase r line = Some g ->
            exists v, Py.float g = Ok v.
Proof.
  intros Hr g H. apply (search_decimal _ _ _ _ Hr) in H.
  destruct (float_decimal _ H) as (q & Hq & _). eauto.
Qed.

Lemma int_of_offset line g :
  search false re_offset line = Some g -> exists v, Py.int g = Ok v.
Proof.
  intros H. apply search_offset_shape in H.
  destruct H as [H | (w & -> & H)].
  - eexists. apply int_numeral. assumption.
  - eexists. apply int_signed_numeral. assumption.
Qed.

Lemma inferno_line_continues line s :
  inferno_line line s = Continue (inferno_update line s).
Proof.
  unfold inferno_line, inferno_update.
  rewrite extract_captured by (apply int_of_search; simpl; auto).
  cbn [and_then].
  rewrite extract_captured by (apply int_of_search; simpl; auto).
  cbn [and_then].
  unfold packets_lost_in_line, packets_received_in_line.
  destruct (Py.contains "packets" (Py.lower line)); [|reflexivity].
  rewrite extract_captured by (apply int_of_search; simpl; auto 6).
  cbn [and_then].
  rewrite extract_captured by (apply int_of_search; simpl; auto 6).
  reflexivity.
Qed.

Lemma srt_line_continues line s :
  srt_line line s = Continue (srt_update line s).
Proof.
  unfold srt_line, srt_update.
  rewrite extract_captured by eauto.
  cbn [and_then].
  rewrite extract_captured by (apply float_of_search; simpl; auto).
  cbn [and_then].
  rewrite extract_captured by (apply float_of_search; simpl; auto).
  reflexivity.
Qed.

Lemma for_each_continues {A S} (body : A -> S -> flow S) (step : A -> S -> S) :
  (forall x s, body x s = Continue (step x s)) ->
  forall l s, for_each body l s = Continue (fold_left (fun s x => step x s) l s).
Proof.
  intros H. induction l as [|x l IH]; intros s; simpl; [reflexivity|].
  rewrite H. apply IH.
Qed.

Lemma for_each_step {A S} (body : A -> S -> flow S) x l s s' :
  body x s = Continue s' -> for_each body (x :: l) s = for_each body l s'.
Proof. intros H. cbn [for_each]. now rewrite H. Qed.

(** ** Which line wins *)

(** A loop that overwrites a field at every candidate, run over the
    reversed lines, ends with the candidate of the first line in file
    order. *)
Lemma overwrite_keeps_oldest {S V W} (u : str -> S -> S) (p : S -> W)
      (f : str -> option V) (inj : V -> W) :
  (forall line s, p (u line s) = from_option inj (p s) (f line)) ->
  forall lines s,
    p (fold_left (fun s l => u l s) (rev lines) s)
    = from_option inj (p s) (oldest f lines).
Proof.
  intros H. unfold oldest.
  induction lines as [|l lines IH]; intros s; simpl; [reflexivity|].
  rewrite fold_left_app. simpl. rewrite H.
  destruct (f l); simpl; [reflexivity | apply IH].
Qed.

Lemma parse_inferno_log_fold e text :
  inferno_log e = Content text ->
  parse_inferno_log e
  = fold_left (fun s l => inferno_update l s) (rev (tail text)) Audio.initial.
Proof.
  intros H. unfold parse_inferno_log. rewrite H.
  rewrite (for_each_continues _ _ inferno_line_continues). reflexivity.
Qed.

Lemma parse_srt_log_fold e m text :
  srt_log e = Content text ->
  parse_srt_log e m
  = (let s := fold_left (fun s l => srt_update l s) (rev (tail text))
                        Srt.initial in
     (s, publish_srt s m)).
Proof.
  intros H. unfold parse_srt_log. rewrite H.
  rewrite (for_each_continues _ _ srt_line_continues). reflexivity.
Qed.

(** One line leaves a field alone or replaces it by its candidate. *)
Lemma inferno_update_fields line s :
  Audio.rx_channels (inferno_update line s)
  = from_option id (Audio.rx_channels s) (rx_channels_in_line line) /\
  Audio.sample_rate (inferno_update line s)
  = from_option id (Audio.sample_rate s) (sample_rate_in_line line) /\
  Audio.packets_received (inferno_update line s)
  = from_option id (Audio.packets_received s) (packets_received_in_line line) /\
  Audio.packets_lost (inferno_update line s)
  = from_option id (Audio.packets_lost s) (packets_lost_in_line line) /\
  Audio.tx_channels (inferno_update line s) = Audio.tx_channels s.
Proof.
  unfold inferno_update.
  destruct (rx_channels_in_line line), (sample_rate_in_line line),
    (packets_received_in_line line), (packets_lost_in_line line);
    repeat split; reflexivity.
Qed.

Lemma srt_update_fields line s :
  Srt.destination (srt_update line s)
  = from_option Some (Srt.destination s) (uri_in_line line) /\
  Srt.connected (srt_update line s)
  = from_option (fun _ => line_connected line) (Srt.connected s)
                (uri_in_line line) /\
  Srt.bitrate_kbps (srt_update line s)
  = from_option id (Srt.bitrate_kbps s) (bitrate_in_line line) /\
  Srt.packet_loss_pct (srt_update line s)
  = from_option id (Srt.packet_loss_pct s) (loss_in_line line) /\
  Srt.rtt_ms (srt_update line s) = Srt.rtt_ms s.
Proof.
  unfold srt_update.
  destruct (uri_in_line line), (bitrate_in_line line), (loss_in_line line);
    repeat split; reflexivity.
Qed.

(** One line of the statime log: a candidate stores the offset and ends
    the loop, by [break] or by the exception of the gauge; any other line
    changes at most the state field. *)
Lemma statime_line_cases line st m :
  match offset_in_line line with
  | Some o =>
      match statime_line line (st, m) with
      | Continue _ => False
      | Break r | Raised r => r = (Ptp.set_offset o st, clock_published o m)
      end
  | None =>
      exists st', statime_line line (st, m) = Continue (st', m) /\
                  Ptp.clock_offset_ns st' = Ptp.clock_offset_ns st /\
                  Ptp.synchronized st' = Ptp.synchronized st
  end.
Proof.
  unfold offset_in_line, captured, statime_line.
  destruct (Py.contains "offset" (Py.lower line)).
  - destruct (search false re_offset line) as [g|] eqn:E.
    + destruct (int_of_offset _ _ E) as [v ->].
      unfold clock_published, set_int.
      destruct (Py.float_of_int v); reflexivity.
    + repeat match goal with
        | |- context [if ?b then _ else _] => destruct b
        end; eexists; repeat split; reflexivity.
  - repeat match goal with
      | |- context [if ?b then _ else _] => destruct b
      end; eexists; repeat split; reflexivity.
Qed.

(** [parse_statime_log] leaves its loop at the first candidate it meets:
    the offset, the flag and the two gauges come from the most recent
    candidate; without a candidate the defaults stay and the gauges are not
    written. *)
Lemma statime_scan lines : forall st m,
  let r := after_try (for_each statime_line lines (st, m)) in
  match first_match offset_in_line lines with
  | Some o =>
      Ptp.clock_offset_ns (fst r) = o /\
      Ptp.synchronized (fst r) = (Z.abs o <? 100000) /\
      snd r = clock_published o m
  | None =>
      Ptp.clock_offset_ns (fst r) = Ptp.clock_offset_ns st /\
      Ptp.synchronized (fst r) = Ptp.synchronized st /\
      snd r = m
  end.
Proof.
  induction lines as [|line lines IH]; intros st m r; subst r.
  - simpl. auto.
  - cbn [for_each first_match].
    pose proof (statime_line_cases line st m) as Hl.
    destruct (offset_in_line line) as [o|].
    + destruct (statime_line line (st, m)) as [r|r|r];
        [contradiction | |]; subst r; cbn [after_try fst snd];
        repeat split.
    + destruct Hl as (st' & -> & Ho & Hs).
      specialize (IH st' m). cbv zeta in IH.
      rewrite <- Ho, <- Hs. exact IH.
Qed.

Lemma parse_statime_log_scan e m text :
  statime_log e = Content text ->
  let r := parse_statime_log e m in
  match most_recent offset_in_line (tail text) with
  | Some o =>
      Ptp.clock_offset_ns (fst r) = o /\
      Ptp.synchronized (fst r) = (Z.abs o <? 100000) /\
      snd r = clock_published o m
  | None =>
      Ptp.clock_offset_ns (fst r) = 0 /\
      Ptp.synchronized (fst r) = false /\
      snd r = m
  end.
Proof.
  intros H. unfold parse_statime_log, most_recent. rewrite H.
  apply (statime_scan (rev (tail text)) Ptp.initial m).
Qed.

(** ** C1: which candidate a parser keeps *)

Lemma from_option_Some {A} (o : option A) : from_option Some None o = o.
Proof. now destruct o. Qed.

(** C1 (fails on the code).  [parse_inferno_log] and [parse_srt_log] walk
    the last 100 lines most recent first and store a field at every
    candidate line without ever leaving the loop or testing whether the
    field is already set.  Each field therefore ends with the candidate of
    the OLDEST matching line of the tail, every more recent candidate having
    been overwritten: the opposite of the claim.  (In [parse_statime_log]
    the offset is protected by [break], see [parse_statime_log_scan].) *)
Theorem C1_overwriting_parsers_keep_oldest e m inferno srt :
  inferno_log e = Content inferno ->
  srt_log e = Content srt ->
  let a := parse_inferno_log e in
  let s := fst (parse_srt_log e m) in
  Audio.rx_channels a = default 0 (oldest rx_channels_in_line (tail inferno)) /\
  Audio.sample_rate a = default 0 (oldest sample_rate_in_line (tail inferno)) /\
  Audio.packets_received a
  = default 0 (oldest packets_received_in_line (tail inferno)) /\
  Audio.packets_lost a
  = default 0 (oldest packets_lost_in_line (tail inferno)) /\
  Srt.destination s = oldest uri_in_line (tail srt) /\
  Srt.connected s = default false (oldest connected_in_line (tail srt)) /\
  Srt.bitrate_kbps s = default 0%Q (oldest bitrate_in_line (tail srt)) /\
  Srt.packet_loss_pct s = default 0%Q (oldest loss_in_line (tail srt)).
Proof.
  intros Hi Hs a s. subst a s.
  rewrite (parse_inferno_log_fold _ _ Hi), (parse_srt_log_fold _ _ _ Hs).
  cbn [fst].
  repeat split.
  - apply (overwrite_keeps_oldest inferno_update Audio.rx_channels).
    intros line s. apply inferno_update_fields.
  - apply (overwrite_keeps_oldest inferno_update Audio.sample_rate).
    intros line s. apply inferno_update_fields.
  - apply (overwrite_keeps_oldest inferno_update Audio.packets_received).
    intros line s. apply inferno_update_fields.
  - apply (overwrite_keeps_oldest inferno_update Audio.packets_lost).
    intros line s. apply inferno_update_fields.
  - rewrite <- (from_option_Some (oldest uri_in_line (tail srt))).
    apply (overwrite_keeps_oldest srt_update Srt.destination).
    intros line s. apply srt_update_fields.
  - apply (overwrite_keeps_oldest srt_update Srt.connected).
    intros line s. unfold connected_in_line.
    destruct (srt_update_fields line s) as (_ & -> & _).
    now destruct (uri_in_line line).
  - apply (overwrite_keeps_oldest srt_update Srt.bitrate_kbps).
    intros line s. apply srt_update_fields.
  - apply (overwrite_keeps_oldest srt_update Srt.packet_loss_pct).
    intros line s. apply srt_update_fields.
Qed.

(** The failing input: the log says 4 channels, then 8; the stream was
    opened to one host, then failed to another.  The parsers answer with
    the older report in every field. *)
Lemma C1_failing_input :
  (Audio.rx_channels (parse_inferno_log two_reports) = 4 /\
   most_recent rx_channels_in_line (tail inferno_two_reports) = Some 8) /\
  (Audio.packets_received (parse_inferno_log two_reports) = 10 /\
   most_recent packets_received_in_line (tail inferno_two_reports) = Some 500) /\
  (Srt.connected (fst (parse_srt_log two_reports ∅)) = true /\
   most_recent connected_in_line (tail srt_two_reports) = Some false) /\
  (Srt.destination (fst (parse_srt_log two_reports ∅))
   = Some ("srt://10.0.0.2:9000" : str) /\
   most_recent uri_in_line (tail srt_two_reports)
   = Some ("srt://10.0.0.9:9000" : str)).
Proof.
  destruct (C1_overwriting_parsers_keep_oldest two_reports ∅
              inferno_two_reports srt_two_reports eq_refl eq_refl)
    as (Hrx & _ & Hrecv & _ & Hdest & Hconn & _ & _).
  rewrite Hrx, Hrecv, Hdest, Hconn.
  vm_compute. repeat split.
Defined.

(** ** C3: the packet loss rate *)

Lemma quotient_of_positive (a b : Z) :
  0 < b -> (inject_Z a / inject_Z b == a # Z.to_pos b)%Q.
Proof.
  intros Hb. destruct b as [|p|p]; try lia.
  unfold Qdiv, Qinv, Qmult, Qeq. simpl. lia.
Qed.

(** C3 (amended).  For all non-negative packet counts the two lines of the
    network view compute a value without dividing by zero: the quotient
    lost / (received + lost) when the sum is not zero, and 0 otherwise.
    The value lies between 0 and 1, and it is 0 exactly when no packet was
    lost (in particular when both counts are zero, but also when packets
    were received and none lost). *)
Theorem C3_loss_rate_amended (received lost : Z) :
  0 <= received -> 0 <= lost ->
  exists rate,
    loss_rate received lost = Ok rate /\
    (received + lost <> 0 ->
     (rate == inject_Z lost / inject_Z (received + lost))%Q) /\
    (received + lost = 0 -> rate = 0%Q) /\
    (0 <= rate)%Q /\ (rate <= 1)%Q /\
    ((rate == 0)%Q <-> lost = 0).
Proof.
  intros Hr Hl. unfold loss_rate, Py.truediv. cbv zeta.
  destruct (0 <? received + lost) eqn:Hpos.
  - apply Z.ltb_lt in Hpos.
    destruct (received + lost =? 0) eqn:Hz; [apply Z.eqb_eq in Hz; lia|].
    eexists. split; [reflexivity|].
    split; [reflexivity|]. split; [lia|].
    rewrite (quotient_of_positive _ _ Hpos).
    unfold Qle, Qeq. simpl. rewrite Z2Pos.id by assumption.
    repeat split; lia.
  - apply Z.ltb_ge in Hpos. assert (received = 0 /\ lost = 0) as [-> ->] by lia.
    exists 0%Q. repeat split; try reflexivity; try lia; try discriminate.
Qed.

Lemma C3_loss_rate_amended_witness :
  exists rate,
    loss_rate 500 7 = Ok rate /\
    (500 + 7 <> 0 -> (rate == inject_Z 7 / inject_Z (500 + 7))%Q) /\
    (500 + 7 = 0 -> rate = 0%Q) /\
    (0 <= rate)%Q /\ (rate <= 1)%Q /\ ((rate == 0)%Q <-> 7 = 0).
Proof. apply (C3_loss_rate_amended 500 7); lia. Defined.

(** The claim as stated fails: with five packets received and none lost
    the network view reports a loss rate of 0.0 although the two counts
    are not both zero. *)
Lemma C3_zero_rate_with_packets :
  exists body w,
    get_network_status no_loss fresh = (OK body, w) /\
    Network.packets_received body = 5 /\ Network.packets_lost body = 0 /\
    loss_rate 5 0 = Ok (Network.packet_loss_rate body) /\
    (Network.packet_loss_rate body == 0)%Q /\
    ~ (Network.packets_received body = 0 /\ Network.packets_lost body = 0).
Proof.
  eexists. eexists. split; [vm_compute; reflexivity|].
  cbn [Network.packets_received Network.packets_lost Network.packet_loss_rate].
  repeat split. intros [H _]. discriminate H.
Qed.

(** ** The packet counts the network view divides *)

Lemma captured_int_nonneg cond m v :
  (forall g, m = Some g -> numeral g) ->
  captured cond m Py.int = Some v -> 0 <= v.
Proof.
  intros Hm. unfold captured. destruct cond; [|discriminate].
  destruct m as [g|]; [|discriminate].
  destruct (int_numeral g (Hm g eq_refl)) as [-> Hv].
  intros H. injection H as <-. exact Hv.
Qed.

Lemma oldest_nonneg (f : str -> option Z) lines :
  (forall line v, f line = Some v -> 0 <= v) ->
  0 <= default 0 (oldest f lines).
Proof.
  intros H. unfold oldest.
  induction lines as [|l lines IH]; cbn [first_match]; [simpl; lia|].
  destruct (f l) as [v|] eqn:E; [apply (H l v E) | exact IH].
Qed.

(** Whatever the log, the two packet counts returned are natural numbers. *)
Lemma parse_inferno_log_nonneg e :
  0 <= Audio.packets_received (parse_inferno_log e) /\
  0 <= Audio.packets_lost (parse_inferno_log e).
Proof.
  destruct (inferno_log e) as [| |text] eqn:Hlog;
    try (unfold parse_inferno_log; rewrite Hlog; simpl; lia).
  rewrite (parse_inferno_log_fold e text Hlog). split.
  - rewrite (overwrite_keeps_oldest inferno_update Audio.packets_received
               packets_received_in_line id)
      by (intros line s; apply inferno_update_fields).
    apply oldest_nonneg. intros line v. unfold packets_received_in_line.
    apply captured_int_nonneg. intros g.
    apply search_numeral. simpl. auto 6.
  - rewrite (overwrite_keeps_oldest inferno_update Audio.packets_lost
               packets_lost_in_line id)
      by (intros line s; apply inferno_update_fields).
    apply oldest_nonneg. intros line v. unfold packets_lost_in_line.
    apply captured_int_nonneg. intros g.
    apply search_numeral. simpl. auto 6.
Qed.

(** The guard keeps the division away from zero, for all integers. *)
Lemma loss_rate_defined received lost :
  exists rate, loss_rate received lost = Ok rate.
Proof.
  unfold loss_rate, Py.truediv. cbv zeta.
  destruct (Z.ltb_spec 0 (received + lost)); [|eauto].
  destruct (Z.eqb_spec (received + lost) 0); [lia | eauto].
Qed.

Lemma loss_rate_range received lost rate :
  0 <= received -> 0 <= lost -> loss_rate received lost = Ok rate ->
  (0 <= rate <= 1)%Q.
Proof.
  intros Hr Hl. unfold loss_rate, Py.truediv. cbv zeta.
  destruct (Z.ltb_spec 0 (received + lost)) as [Hpos | Hzero].
  - destruct (Z.eqb_spec (received + lost) 0); [lia|].
    intros H. injection H as <-.
    rewrite (quotient_of_positive _ _ Hpos). unfold Qle. simpl.
    rewrite Z2Pos.id by assumption. lia.
  - intros H. injection H as <-. unfold Qle. simpl. lia.
Qed.

(** The network view fails only when the installation file cannot be
    read; otherwise it reports two natural numbers and a rate between 0
    and 1 computed from them. *)
Lemma get_network_status_rate e w :
  match fst (get_network_status e w) with
  | OK body =>
      0 <= Network.packets_received body /\
      0 <= Network.packets_lost body /\
      loss_rate (Network.packets_received body) (Network.packets_lost body)
      = Ok (Network.packet_loss_rate body) /\
      (0 <= Network.packet_loss_rate body <= 1)%Q
  | HTTPException _ _ => False
  | Unhandled x => config_file e = Unreadable
  end.
Proof.
  unfold get_network_status.
  destruct (load_config e) as [cfg|x] eqn:Hload.
  - destruct (parse_inferno_log_nonneg e) as [Hr Hl].
    destruct (loss_rate_defined (Audio.packets_received (parse_inferno_log e))
                (Audio.packets_lost (parse_inferno_log e))) as [rate Hrate].
    rewrite Hrate.
    cbn [fst Network.packets_received Network.packets_lost
         Network.packet_loss_rate].
    split; [exact Hr|]. split; [exact Hl|]. split; [exact Hrate|].
    exact (loss_rate_range _ _ _ Hr Hl Hrate).
  - cbn [fst]. unfold load_config in Hload.
    destruct (config_file e); congruence.
Qed.

(** ** C4: the synchronized flag *)

(** C4.  Whenever the clock parser extracts an offset (the most recent
    candidate of the tail), it returns that offset, and the synchronized
    flag it returns is true if and only if the absolute value of the offset
    is below 100000. *)
Theorem C4_synchronized_iff_offset_below_100us e m text offset :
  statime_log e = Content text ->
  most_recent offset_in_line (tail text) = Some offset ->
  Ptp.clock_offset_ns (fst (parse_statime_log e m)) = offset /\
  (Ptp.synchronized (fst (parse_statime_log e m)) = true
   <-> Z.abs offset < 100000).
Proof.
  intros Hlog Hrecent.
  pose proof (parse_statime_log_scan e m text Hlog) as H. cbv zeta in H.
  rewrite Hrecent in H. destruct H as (-> & -> & _).
  split; [reflexivity | apply Z.ltb_lt].
Qed.

(** The upper boundary inside: an offset of 99999 is synchronized. *)
Lemma C4_boundary_99999 :
  Ptp.clock_offset_ns (fst (parse_statime_log (clock_at "99999") ∅)) = 99999 /\
  (Ptp.synchronized (fst (parse_statime_log (clock_at "99999") ∅)) = true
   <-> Z.abs 99999 < 100000).
Proof.
  apply (C4_synchronized_iff_offset_below_100us (clock_at "99999") ∅
           (text_of [ ("clock offset: 99999 ns" : str) ]) 99999);
    vm_compute; reflexivity.
Defined.

(** The boundaries, evaluated: 99999 and -99999 are synchronized, 100000
    and -100000 are not. *)
Example synchronized_boundaries :
  fst (parse_statime_log (clock_at "99999") ∅)
  = Ptp.set_offset 99999 Ptp.initial /\
  Ptp.synchronized (fst (parse_statime_log (clock_at "99999") ∅)) = true /\
  Ptp.synchronized (fst (parse_statime_log (clock_at "100000") ∅)) = false /\
  Ptp.synchronized (fst (parse_statime_log (clock_at "-99999") ∅)) = true /\
  Ptp.synchronized (fst (parse_statime_log (clock_at "-100000") ∅)) = false.
Proof. vm_compute. repeat split. Qed.

(** ** C5: a log that cannot be read *)

Lemma with_metrics_same w : with_metrics (metrics w) w = w.
Proof. now destruct w. Qed.

(** Where the existence tests answer, the full functions are the ones
    defined first. *)
Lemma probed_parse_statime_log a e m :
  statime_stat a = true ->
  Probed.parse_statime_log a e m = Ok (parse_statime_log e m).
Proof. unfold Probed.parse_statime_log. now intros ->. Qed.

Lemma probed_parse_inferno_log a e :
  inferno_stat a = true ->
  Probed.parse_inferno_log a e = Ok (parse_inferno_log e).
Proof. unfold Probed.parse_inferno_log. now intros ->. Qed.

Lemma probed_parse_srt_log a e m :
  srt_stat a = true ->
  Probed.parse_srt_log a e m = Ok (parse_srt_log e m).
Proof. unfold Probed.parse_srt_log. now intros ->. Qed.

Lemma probed_get_ptp_status a e w :
  statime_stat a = true -> Probed.get_ptp_status a e w = get_ptp_status e w.
Proof.
  intros H. unfold Probed.get_ptp_status, get_ptp_status.
  rewrite (probed_parse_statime_log _ _ _ H).
  now destruct (parse_statime_log e (metrics w)).
Qed.

Lemma probed_get_srt_status a e w :
  srt_stat a = true -> Probed.get_srt_status a e w = get_srt_status e w.
Proof.
  intros H. unfold Probed.get_srt_status, get_srt_status.
  rewrite (probed_parse_srt_log _ _ _ H).
  now destruct (parse_srt_log e (metrics w)).
Qed.

Lemma probed_get_network_status a e w :
  inferno_stat a = true ->
  Probed.get_network_status a e w = get_network_status e w.
Proof.
  intros H. unfold Probed.get_network_status, get_network_status.
  rewrite (probed_parse_inferno_log _ _ H). reflexivity.
Qed.

Lemma probed_get_audio_status a e w :
  inferno_stat a = true ->
  Probed.get_audio_status a e w = get_audio_status e w.
Proof.
  intros H. unfold Probed.get_audio_status, get_audio_status.
  rewrite (probed_parse_inferno_log _ _ H). reflexivity.
Qed.

Lemma probed_get_status a e w :
  statime_stat a = true -> inferno_stat a = true -> srt_stat a = true ->
  Probed.get_status a e w = get_status e w.
Proof.
  intros H1 H2 H3. unfold Probed.get_status, get_status.
  destruct (load_config e) as [cfg|x]; [|reflexivity].
  destruct (check_service_status e "statime" w) as [b1 w1].
  destruct (check_service_status e "inferno" w1) as [b2 w2].
  destruct (check_service_status e "inferno-srt" w2) as [b3 w3].
  rewrite (probed_parse_inferno_log _ _ H2).
  rewrite (probed_parse_statime_log _ _ _ H1).
  destruct (parse_statime_log e (metrics w3)) as [p m1].
  rewrite (probed_parse_srt_log _ _ _ H3).
  now destruct (parse_srt_log e m1) as [s m2].
Qed.

Lemma probed_get_audio_output a e w :
  audio_out_stat a = true ->
  Probed.get_audio_output a e w = get_audio_output e w.
Proof.
  unfold Probed.get_audio_output, Probed.read_audio_output_config.
  now intros ->.
Qed.

Lemma probed_toggle_audio_output a e w :
  audio_out_stat a = true ->
  Probed.toggle_audio_output a e w = toggle_audio_output e w.
Proof.
  unfold Probed.toggle_audio_output, Probed.read_audio_output_config.
  now intros ->.
Qed.

(** The parsers on a log they cannot use. *)
Lemma parse_statime_log_unavailable e m :
  unavailable (statime_log e) -> parse_statime_log e m = (Ptp.initial, m).
Proof. unfold parse_statime_log. now intros [-> | ->]. Qed.

Lemma parse_inferno_log_unavailable e :
  unavailable (inferno_log e) -> parse_inferno_log e = Audio.initial.
Proof. unfold parse_inferno_log. now intros [-> | ->]. Qed.

Lemma parse_srt_log_unavailable e m :
  unavailable (srt_log e) -> parse_srt_log e m = (Srt.initial, m).
Proof. unfold parse_srt_log. now intros [-> | ->]. Qed.

Lemma load_config_loads e :
  config_file e <> Unreadable -> exists cfg, load_config e = Ok cfg.
Proof. unfold load_config. destruct (config_file e); eauto. congruence. Qed.

(** The overall view answers whenever the installation file can be loaded,
    whatever the logs hold. *)
Lemma get_status_answers e w :
  config_file e <> Unreadable -> status_code (fst (get_status e w)) = 200.
Proof.
  intros Hc. destruct (load_config_loads e Hc) as [cfg Hload].
  unfold get_status. rewrite Hload.
  destruct (check_service_status e "statime" w) as [b1 w1].
  destruct (check_service_status e "inferno" w1) as [b2 w2].
  destruct (check_service_status e "inferno-srt" w2) as [b3 w3].
  destruct (parse_statime_log e (metrics w3)) as [p m1].
  destruct (parse_srt_log e m1) as [s m2].
  reflexivity.
Qed.

(** The overall view when one of the three tests raises. *)
Lemma probed_get_status_raises a e w :
  config_file e <> Unreadable ->
  statime_stat a && inferno_stat a && srt_stat a = false ->
  fst (Probed.get_status a e w) = Unhandled OSError.
Proof.
  intros Hc Ha. destruct (load_config_loads e Hc) as [cfg Hload].
  unfold Probed.get_status. rewrite Hload.
  destruct (check_service_status e "statime" w) as [b1 w1].
  destruct (check_service_status e "inferno" w1) as [b2 w2].
  destruct (check_service_status e "inferno-srt" w2) as [b3 w3].
  unfold Probed.parse_inferno_log, Probed.parse_statime_log,
    Probed.parse_srt_log.
  destruct (inferno_stat a); [|reflexivity].
  destruct (statime_stat a); [|reflexivity].
  destruct (parse_statime_log e (metrics w3)) as [p m1].
  destruct (srt_stat a); [discriminate Ha | reflexivity].
Qed.

(** C5.  Each of the three parsers asks whether its log exists before its
    try.  When that test answers and the log is missing or cannot be read,
    the parser returns its dictionary of defaults and writes no gauge, and
    the requests that call it succeed: the clock view; the network and the
    stream view when the installation file can be loaded; the audio view
    when, besides, the channel count in that file is an integer; the
    overall view when the installation file can be loaded and all three
    tests answer, whatever the logs hold.  When the test itself raises,
    as it does where the log directory may not be searched, the error
    leaves the parser, and every request that calls the parser fails with
    it: status 500. *)
Theorem C5_unavailable_log_and_existence_test
  (a : stats) (e : env) (w : world) :
  (statime_stat a = true -> unavailable (statime_log e) ->
   Probed.parse_statime_log a e (metrics w) = Ok (Ptp.initial, metrics w) /\
   Probed.get_ptp_status a e w = (OK Ptp.initial, w)) /\
  (inferno_stat a = true -> unavailable (inferno_log e) ->
   Probed.parse_inferno_log a e = Ok Audio.initial /\
   (config_file e <> Unreadable ->
    status_code (fst (Probed.get_network_status a e w)) = 200) /\
   (forall n, live_rx_channels e = Ok n ->
    status_code (fst (Probed.get_audio_status a e w)) = 200)) /\
  (srt_stat a = true -> unavailable (srt_log e) ->
   Probed.parse_srt_log a e (metrics w) = Ok (Srt.initial, metrics w) /\
   (config_file e <> Unreadable ->
    status_code (fst (Probed.get_srt_status a e w)) = 200)) /\
  (statime_stat a = true -> inferno_stat a = true -> srt_stat a = true ->
   config_file e <> Unreadable ->
   status_code (fst (Probed.get_status a e w)) = 200) /\
  (statime_stat a = false ->
   Probed.parse_statime_log a e (metrics w) = Raise OSError /\
   Probed.get_ptp_status a e w = (Unhandled OSError, w)) /\
  (inferno_stat a = false ->
   Probed.parse_inferno_log a e = Raise OSError /\
   (config_file e <> Unreadable ->
    Probed.get_network_status a e w = (Unhandled OSError, w) /\
    Probed.get_audio_status a e w = (Unhandled OSError, w))) /\
  (srt_stat a = false ->
   Probed.parse_srt_log a e (metrics w) = Raise OSError /\
   Probed.get_srt_status a e w = (Unhandled OSError, w)) /\
  (statime_stat a && inferno_stat a && srt_stat a = false ->
   config_file e <> Unreadable ->
   status_code (fst (Probed.get_status a e w)) = 500).
Proof.
  repeat apply conj.
  - intros Ha H. rewrite probed_parse_statime_log, probed_get_ptp_status
      by exact Ha.
    unfold get_ptp_status.
    rewrite (parse_statime_log_unavailable _ _ H), with_metrics_same.
    split; reflexivity.
  - intros Ha H. rewrite probed_parse_inferno_log,
      probed_get_network_status, probed_get_audio_status by exact Ha.
    rewrite (parse_inferno_log_unavailable _ H).
    split; [reflexivity|]. split.
    + intros Hc. destruct (load_config_loads e Hc) as [cfg Hload].
      unfold get_network_status. rewrite Hload.
      rewrite (parse_inferno_log_unavailable _ H). reflexivity.
    + intros n Hn. unfold live_rx_channels in Hn. unfold get_audio_status.
      destruct (load_config e) as [cfg|x]; [|discriminate].
      change (config_rx_channels cfg = Ok n) in Hn. rewrite Hn.
      now destruct (fold_left _ _ _).
  - intros Ha H. rewrite probed_parse_srt_log, probed_get_srt_status
      by exact Ha.
    rewrite (parse_srt_log_unavailable _ _ H).
    split; [reflexivity|].
    intros Hc. destruct (load_config_loads e Hc) as [cfg Hload].
    unfold get_srt_status.
    rewrite (parse_srt_log_unavailable _ _ H), Hload. reflexivity.
  - intros H1 H2 H3 Hc. rewrite probed_get_status by assumption.
    now apply get_status_answers.
  - intros Ha. unfold Probed.get_ptp_status, Probed.parse_statime_log.
    rewrite Ha. split; reflexivity.
  - intros Ha. unfold Probed.get_network_status, Probed.get_audio_status,
      Probed.parse_inferno_log.
    rewrite Ha. split; [reflexivity|].
    intros Hc. destruct (load_config_loads e Hc) as [cfg ->].
    split; reflexivity.
  - intros Ha. unfold Probed.get_srt_status, Probed.parse_srt_log.
    rewrite Ha. split; reflexivity.
  - intros Ha Hc. now rewrite probed_get_status_raises.
Qed.

(** On an appliance whose log directory may not be searched, with no log
    at all and an installation file in order, the four views that read a
    log fail, and so does the overall view. *)
Lemma C5_failing_input :
  Probed.parse_statime_log log_dir_closed eight_channels ∅ = Raise OSError /\
  Probed.parse_inferno_log log_dir_closed eight_channels = Raise OSError /\
  Probed.parse_srt_log log_dir_closed eight_channels ∅ = Raise OSError /\
  status_code (fst (Probed.get_ptp_status log_dir_closed eight_channels fresh))
  = 500 /\
  status_code
    (fst (Probed.get_network_status log_dir_closed eight_channels fresh))
  = 500 /\
  status_code
    (fst (Probed.get_audio_status log_dir_closed eight_channels fresh))
  = 500 /\
  status_code (fst (Probed.get_srt_status log_dir_closed eight_channels fresh))
  = 500 /\
  status_code (fst (Probed.get_status log_dir_closed eight_channels fresh))
  = 500 /\
  status_code (fst (Probed.get_status all_answer eight_channels fresh)) = 200.
Proof.
  destruct (C5_unavailable_log_and_existence_test
              log_dir_closed eight_channels fresh)
    as (_ & _ & _ & _ & Hptp & Haudio & Hsrt & Hall).
  destruct (C5_unavailable_log_and_existence_test
              all_answer eight_channels fresh)
    as (_ & _ & _ & Hok & _).
  assert (Hc : config_file eight_channels <> Unreadable) by discriminate.
  destruct (Hptp eq_refl) as [P1 P2].
  destruct (Haudio eq_refl) as [A1 A2]. destruct (A2 Hc) as [A3 A4].
  destruct (Hsrt eq_refl) as [S1 S2].
  repeat apply conj.
  - exact P1.
  - exact A1.
  - exact S1.
  - now rewrite P2.
  - now rewrite A3.
  - now rewrite A4.
  - now rewrite S2.
  - exact (Hall eq_refl Hc).
  - exact (Hok eq_refl eq_refl eq_refl Hc).
Defined.

(** ** Decimal text of an integer and back *)

Lemma digit_char_facts d :
  0 <= d <= 9 ->
  Py.is_digit (Py.digit_char d) = true /\ Py.digit_val (Py.digit_char d) = d.
Proof.
  intros H.
  assert (d = 0 \/ d = 1 \/ d = 2 \/ d = 3 \/ d = 4 \/ d = 5 \/ d = 6 \/
          d = 7 \/ d = 8 \/ d = 9) as Hd by lia.
  repeat destruct Hd as [-> | Hd]; try subst d; split; reflexivity.
Qed.

Lemma digits_of_all_digits fuel : forall n acc,
  0 <= n -> forallb Py.is_digit acc = true ->
  forallb Py.is_digit (Py.digits_of fuel n acc) = true.
Proof.
  induction fuel as [|fuel IH]; intros n acc Hn Hacc;
    cbn [Py.digits_of]; [assumption|].
  assert (Hd : forallb Py.is_digit (Py.digit_char (n mod 10) :: acc) = true).
  { cbn [forallb]. rewrite Hacc, andb_true_r.
    destruct (digit_char_facts (n mod 10)) as [Hd _]; [|exact Hd].
    pose proof (Z.mod_pos_bound n 10). lia. }
  destruct (n <? 10); [assumption|].
  apply IH; [apply Z.div_pos; lia | assumption].
Qed.

Lemma digits_of_nonempty fuel n acc : Py.digits_of (S fuel) n acc <> [].
Proof.
  assert (H : forall f m a, a <> [] -> Py.digits_of f m a <> []).
  { induction f as [|f IH]; intros m a Ha; cbn [Py.digits_of]; [assumption|].
    destruct (m <? 10); [discriminate | apply IH; discriminate]. }
  cbn [Py.digits_of].
  destruct (n <? 10); [discriminate | apply H; discriminate].
Qed.

Lemma digits_value_cons c w a :
  digits_value (c :: w) a = digits_value w (10 * a + Py.digit_val c).
Proof. reflexivity. Qed.

(** Reading the digits written for [n] in front of [acc] continues from
    [a * 10^k + n], [k] being the number of digits written. *)
Lemma digits_of_value fuel : forall n acc,
  0 <= n < 2 ^ Z.of_nat (S fuel) ->
  exists k, 0 <= k /\ forall a,
    digits_value (Py.digits_of (S fuel) n acc) a
    = digits_value acc (a * 10 ^ k + n).
Proof.
  assert (Hone : forall n acc a, 0 <= n < 10 ->
            digits_value (Py.digit_char (n mod 10) :: acc) a
            = digits_value acc (a * 10 ^ 1 + n)).
  { intros n acc a Hn. rewrite digits_value_cons, Z.mod_small by lia.
    destruct (digit_char_facts n) as [_ ->]; [lia|]. f_equal. lia. }
  induction fuel as [|fuel IH]; intros n acc Hn.
  - exists 1. split; [lia|]. intros a.
    change (2 ^ Z.of_nat 1) with 2 in Hn.
    cbn [Py.digits_of]. destruct (Z.ltb_spec n 10); [|lia].
    apply Hone. lia.
  - cbn [Py.digits_of]. destruct (Z.ltb_spec n 10).
    + exists 1. split; [lia|]. intros a. apply Hone. lia.
    + destruct (IH (n / 10) (Py.digit_char (n mod 10) :: acc))
        as (k & Hk & Hval).
      { split; [apply Z.div_pos; lia|].
        apply Z.div_lt_upper_bound; [lia|].
        rewrite (Nat2Z.inj_succ (S fuel)), Z.pow_succ_r in Hn by lia. lia. }
      exists (k + 1). split; [lia|]. intros a.
      cbn [Py.digits_of] in Hval. rewrite Hval, digits_value_cons.
      destruct (digit_char_facts (n mod 10)) as [_ ->];
        [pose proof (Z.mod_pos_bound n 10); lia|].
      f_equal. rewrite Z.pow_add_r by lia.
      pose proof (Z.div_mod n 10). lia.
Qed.

Lemma log2_fuel n : 0 <= n -> n < 2 ^ Z.of_nat (S (Z.to_nat (Z.log2 n))).
Proof.
  intros Hn. rewrite Nat2Z.inj_succ, Z2Nat.id by apply Z.log2_nonneg.
  destruct (Z.eq_dec n 0) as [-> | Hne]; [reflexivity|].
  apply Z.log2_spec. lia.
Qed.

(** For a natural number [str] writes a numeral, which reads back. *)
Lemma str_of_nonneg n :
  0 <= n ->
  numeral (Py.str_of_int n) /\ digits_value (Py.str_of_int n) 0 = n.
Proof.
  intros Hn. unfold Py.str_of_int.
  destruct (Z.ltb_spec n 0); [lia|]. split; [split|].
  - apply digits_of_nonempty.
  - now apply digits_of_all_digits.
  - destruct (digits_of_value (Z.to_nat (Z.log2 n)) n [])
      as (k & _ & ->); [split; [lia | now apply log2_fuel]|].
    reflexivity.
Qed.

(** [int(str(n)) == n] *)
Lemma int_str_of_int n : Py.int (Py.str_of_int n) = Ok n.
Proof.
  destruct (Z.le_gt_cases 0 n) as [Hn | Hn].
  - destruct (str_of_nonneg n Hn) as [Hnum Hval].
    destruct (int_numeral _ Hnum) as [-> _]. now rewrite Hval.
  - assert (Hm : 0 <= - n) by lia.
    destruct (str_of_nonneg (- n) Hm) as [Hnum Hval].
    unfold Py.str_of_int in *.
    destruct (Z.ltb_spec n 0); [|lia].
    destruct (Z.ltb_spec (- n) 0); [lia|].
    rewrite (int_signed_numeral _ Hnum), Hval. f_equal. lia.
Qed.

(** ** Lines of the routing file, written and read back *)

Lemma plain_facts c :
  plain c = true ->
  Py.is_space c = false /\ Ascii.eqb c Py.nl = false /\
  Ascii.eqb c "=" = false /\ Ascii.eqb c Py.quote = false.
Proof.
  destruct c as [[] [] [] [] [] [] [] []]; vm_compute; intros H;
    try discriminate H; repeat split.
Qed.

Lemma digit_plain c : Py.is_digit c = true -> plain c = true.
Proof.
  destruct c as [[] [] [] [] [] [] [] []]; vm_compute; intros H;
    try discriminate H; reflexivity.
Qed.

Lemma forallb_impl {A} (f g : A -> bool) l :
  (forall x, f x = true -> g x = true) ->
  forallb f l = true -> forallb g l = true.
Proof. rewrite !forallb_forall. auto. Qed.

Lemma str_of_int_plain n : forallb plain (Py.str_of_int n) = true.
Proof.
  destruct (Z.le_gt_cases 0 n) as [Hn | Hn].
  - destruct (str_of_nonneg n Hn) as [[_ Hd] _].
    revert Hd. apply forallb_impl, digit_plain.
  - assert (Hm : 0 <= - n) by lia.
    destruct (str_of_nonneg (- n) Hm) as [[_ Hd] _].
    unfold Py.str_of_int in *.
    destruct (Z.ltb_spec n 0); [|lia].
    destruct (Z.ltb_spec (- n) 0); [lia|].
    cbn [forallb]. apply andb_true_iff. split; [reflexivity|].
    revert Hd. apply forallb_impl, digit_plain.
Qed.

Lemma splitlines_line body : forall rest,
  forallb (fun c => negb (Ascii.eqb c Py.nl)) body = true ->
  Py.splitlines (body ++ Py.nl :: rest) = (body ++ [Py.nl]) :: Py.splitlines rest.
Proof.
  induction body as [|c body IH]; intros rest H.
  - reflexivity.
  - cbn [forallb] in H. apply andb_true_iff in H as [Hc Hb].
    cbn [app Py.splitlines]. apply negb_true_iff in Hc. rewrite Hc.
    now rewrite IH.
Qed.

Lemma splitlines_line_app body rest :
  forallb (fun c => negb (Ascii.eqb c Py.nl)) body = true ->
  Py.splitlines ((body ++ [Py.nl]) ++ rest)
  = (body ++ [Py.nl]) :: Py.splitlines rest.
Proof.
  intros H. rewrite <- app_assoc. now apply splitlines_line.
Qed.

Lemma lstrip_by_skip f c w :
  f c = true -> Py.lstrip_by f (c :: w) = Py.lstrip_by f w.
Proof. intros H. cbn [Py.lstrip_by]. now rewrite H. Qed.

Lemma lstrip_by_stop f c w :
  f c = false -> Py.lstrip_by f (c :: w) = c :: w.
Proof. intros H. cbn [Py.lstrip_by]. now rewrite H. Qed.

Lemma strip_line c b d :
  Py.is_space c = false -> Py.is_space d = false ->
  Py.strip (c :: b ++ [d; Py.nl]) = c :: b ++ [d].
Proof.
  intros Hc Hd. unfold Py.strip, Py.strip_by.
  rewrite (lstrip_by_stop _ _ _ Hc).
  replace (rev (c :: b ++ [d; Py.nl])) with (Py.nl :: d :: rev b ++ [c])
    by (cbn [rev]; rewrite rev_app_distr; reflexivity).
  rewrite lstrip_by_skip by reflexivity.
  rewrite (lstrip_by_stop _ _ _ Hd).
  cbn [rev]. rewrite rev_app_distr, rev_involutive. reflexivity.
Qed.

Lemma split_no_sep sep w :
  forallb (fun c => negb (Ascii.eqb c sep)) w = true -> Py.split sep w = [w].
Proof.
  induction w as [|c w IH]; intros H; [reflexivity|].
  cbn [forallb] in H. apply andb_true_iff in H as [Hc Hw].
  cbn [Py.split]. apply negb_true_iff in Hc. rewrite Hc, IH by assumption.
  reflexivity.
Qed.

Lemma split_at_sep sep k r :
  forallb (fun c => negb (Ascii.eqb c sep)) k = true ->
  Py.split sep (k ++ sep :: r) = k :: Py.split sep r.
Proof.
  induction k as [|c k IH]; intros H.
  - cbn [app Py.split]. now rewrite Ascii.eqb_refl.
  - cbn [forallb] in H. apply andb_true_iff in H as [Hc Hk].
    cbn [app Py.split]. apply negb_true_iff in Hc. rewrite Hc, IH by assumption.
    reflexivity.
Qed.

Lemma strip_quotes v :
  forallb plain v = true ->
  Py.strip_chars [Py.quote] (Py.quote :: v ++ [Py.quote]) = v.
Proof.
  intros Hv. unfold Py.strip_chars, Py.strip_by.
  set (f := fun c => existsb (Ascii.eqb c) [Py.quote]).
  assert (Hq : forallb (fun c => negb (f c)) v = true).
  { revert Hv. apply forallb_impl. intros c Hc.
    destruct (plain_facts c Hc) as (_ & _ & _ & Hcq).
    unfold f. cbn [existsb]. now rewrite Hcq. }
  assert (Hfq : f Py.quote = true) by reflexivity.
  rewrite (lstrip_by_skip f _ _ Hfq).
  destruct v as [|c v].
  - cbn [app]. rewrite (lstrip_by_skip f _ _ Hfq). reflexivity.
  - pose proof Hq as Hc. cbn [forallb] in Hc.
    apply andb_true_iff in Hc as [Hc _]. apply negb_true_iff in Hc.
    cbn [app]. rewrite (lstrip_by_stop f _ _ Hc).
    change (c :: v ++ [Py.quote]) with ((c :: v) ++ [Py.quote]).
    rewrite rev_app_distr. cbn [rev app].
    rewrite (lstrip_by_skip f _ _ Hfq).
    change (rev v ++ [c]) with (rev (c :: v)).
    rewrite lstrip_by_id; [apply rev_involutive|].
    rewrite forallb_forall in *. intros x Hx. apply Hq. now apply in_rev.
Qed.

Lemma quoted_value_assignment key value :
  forallb (fun c => negb (Ascii.eqb c "=")) key = true ->
  forallb plain value = true ->
  quoted_value (key ++ "=" ++ [Py.quote] ++ value ++ [Py.quote]) = Ok value.
Proof.
  intros Hk Hv. unfold quoted_value.
  change (key ++ "=" ++ [Py.quote] ++ value ++ [Py.quote])
    with (key ++ "="%char :: (Py.quote :: value ++ [Py.quote])).
  rewrite split_at_sep by assumption.
  rewrite split_no_sep.
  - change (Ok (Py.strip_chars [Py.quote] (Py.quote :: value ++ [Py.quote]))
            = Ok value).
    now rewrite strip_quotes.
  - cbn [forallb]. apply andb_true_iff. split; [reflexivity|].
    rewrite forallb_app. apply andb_true_iff. split; [|reflexivity].
    revert Hv. apply forallb_impl. intros c Hc.
    destruct (plain_facts c Hc) as (_ & _ & -> & _). reflexivity.
Qed.

Lemma strip_assignment key value :
  match key with
  | c :: _ => Py.is_space c = false
  | [] => False
  end ->
  Py.strip (assignment key value)
  = key ++ "=" ++ [Py.quote] ++ value ++ [Py.quote].
Proof.
  destruct key as [|c k]; [contradiction|].
  intros Hc. unfold assignment.
  replace ((c :: k) ++ "=" ++ [Py.quote] ++ value ++ [Py.quote; Py.nl])
    with (c :: (k ++ "=" ++ [Py.quote] ++ value) ++ [Py.quote; Py.nl]).
  - rewrite strip_line by (assumption || reflexivity).
    cbn [app]. now rewrite <- !app_assoc.
  - cbn [app]. now rewrite <- !app_assoc.
Qed.

Lemma splitlines_assignment key value rest :
  forallb plain key = true -> forallb plain value = true ->
  Py.splitlines (assignment key value ++ rest)
  = assignment key value :: Py.splitlines rest.
Proof.
  intros Hk Hv. unfold assignment.
  replace ((key ++ "=" ++ [Py.quote] ++ value ++ [Py.quote; Py.nl]) ++ rest)
    with ((key ++ "=" ++ [Py.quote] ++ value ++ [Py.quote]) ++ Py.nl :: rest)
    by (rewrite <- !app_assoc; reflexivity).
  rewrite splitlines_line.
  - rewrite <- !app_assoc. reflexivity.
  - assert (Hp : forall w, forallb plain w = true ->
                 forallb (fun c => negb (Ascii.eqb c Py.nl)) w = true).
    { intros w. apply forallb_impl. intros c Hc.
      destruct (plain_facts c Hc) as (_ & -> & _). reflexivity. }
    rewrite !forallb_app, (Hp _ Hk), (Hp _ Hv). reflexivity.
Qed.

Lemma splitlines_assignment_last key value :
  forallb plain key = true -> forallb plain value = true ->
  Py.splitlines (assignment key value) = [assignment key value].
Proof.
  intros Hk Hv.
  rewrite <- (app_nil_r (assignment key value)) at 1.
  now rewrite splitlines_assignment.
Qed.

(** Decide the tests [line.startswith(KEY=)] on a line whose key is known. *)
Ltac decide_startswith :=
  repeat match goal with
  | |- context [Py.startswith ?p ?l] =>
      let b := eval cbn in (Py.startswith p l) in
      change (Py.startswith p l) with b
  end;
  cbv iota.

Lemma read_line_enabled b c :
  read_audio_output_line (assignment "ENABLED" (Py.lower (Py.str_of_bool b))) c
  = Continue (Out.set_enabled b c).
Proof. destruct b; reflexivity. Qed.

Lemma valid_device_cases d :
  valid_device d = true ->
  d = ("hdmi" : str) \/ d = ("headphones" : str) \/ d = ("auto" : str).
Proof.
  unfold valid_device, str_eqb. cbn [existsb].
  repeat case_bool_decide; auto. discriminate.
Qed.

Lemma read_line_device d c :
  valid_device d = true ->
  read_audio_output_line (assignment "DEVICE" d) c
  = Continue (Out.set_device d c).
Proof.
  intros H. destruct (valid_device_cases d H) as [-> | [-> | ->]]; reflexivity.
Qed.

Lemma read_line_int_value key value v (store : Z -> Out.config -> Out.config) c :
  forallb (fun c => negb (Ascii.eqb c "=")) key = true ->
  forallb plain value = true -> Py.int value = Ok v ->
  extract true (Some (key ++ "=" ++ [Py.quote] ++ value ++ [Py.quote]))
          quoted_int store c
  = Continue (store v c).
Proof.
  intros Hk Hp Hv. unfold extract, quoted_int.
  rewrite quoted_value_assignment by assumption.
  change (Ok value ≫= (fun v0 => Py.int v0)) with (Py.int value).
  now rewrite Hv.
Qed.

Lemma read_line_stereo_pair value v c :
  forallb plain value = true -> Py.int value = Ok v ->
  read_audio_output_line (assignment "STEREO_PAIR" value) c
  = Continue (Out.set_stereo_pair v c).
Proof.
  intros Hp Hv. unfold read_audio_output_line.
  rewrite strip_assignment by reflexivity. decide_startswith.
  now apply read_line_int_value.
Qed.

Lemma read_line_channel_l value v c :
  forallb plain value = true -> Py.int value = Ok v ->
  read_audio_output_line (assignment "CHANNEL_L" value) c
  = Continue (Out.set_channel_l v c).
Proof.
  intros Hp Hv. unfold read_audio_output_line.
  rewrite strip_assignment by reflexivity. decide_startswith.
  now apply read_line_int_value.
Qed.

Lemma read_line_channel_r value v c :
  forallb plain value = true -> Py.int value = Ok v ->
  read_audio_output_line (assignment "CHANNEL_R" value) c
  = Continue (Out.set_channel_r v c).
Proof.
  intros Hp Hv. unfold read_audio_output_line.
  rewrite strip_assignment by reflexivity. decide_startswith.
  now apply read_line_int_value.
Qed.

Lemma read_line_rx_channels value v c :
  forallb plain value = true -> Py.int value = Ok v ->
  read_audio_output_line (assignment "RX_CHANNELS" value) c
  = Continue (Out.set_rx_channels v c).
Proof.
  intros Hp Hv. unfold read_audio_output_line.
  rewrite strip_assignment by reflexivity. decide_startswith.
  now apply read_line_int_value.
Qed.

(** ** C6: the routing file read back *)

Lemma splitlines_audio_output_text enabled device stereo_pair rx_channels :
  valid_device device = true ->
  Py.splitlines (audio_output_text enabled device stereo_pair rx_channels)
  = [ "# Hardware audio output configuration" ++ [Py.nl];
      "# This file can be modified via API or manually" ++ [Py.nl];
      assignment "ENABLED" (Py.lower (Py.str_of_bool enabled));
      assignment "DEVICE" device;
      assignment "STEREO_PAIR" (Py.str_of_int stereo_pair);
      assignment "CHANNEL_L" (Py.str_of_int ((stereo_pair - 1) * 2));
      assignment "CHANNEL_R" (Py.str_of_int ((stereo_pair - 1) * 2 + 1));
      assignment "RX_CHANNELS" (Py.str_of_int (default 2 rx_channels)) ].
Proof.
  intros Hd. unfold audio_output_text. cbv zeta.
  assert (Hdev : forallb plain device = true)
    by (destruct (valid_device_cases device Hd) as [-> | [-> | ->]];
        reflexivity).
  assert (Hen : forallb plain (Py.lower (Py.str_of_bool enabled)) = true)
    by (destruct enabled; reflexivity).
  rewrite splitlines_line_app by reflexivity.
  rewrite splitlines_line_app by reflexivity.
  rewrite !splitlines_assignment
    by (assumption || reflexivity || apply str_of_int_plain).
  rewrite splitlines_assignment_last
    by (reflexivity || apply str_of_int_plain).
  reflexivity.
Qed.

(** Whatever is written is read back, with the two channel numbers the
    writer derived from the pair. *)
Lemma read_written_text enabled device stereo_pair rx_channels :
  valid_device device = true ->
  after_try
    (for_each read_audio_output_line
       (Py.splitlines (audio_output_text enabled device stereo_pair rx_channels))
       Out.initial)
  = {| Out.enabled := enabled; Out.device := device;
       Out.stereo_pair := stereo_pair;
       Out.channel_l := (stereo_pair - 1) * 2;
       Out.channel_r := (stereo_pair - 1) * 2 + 1;
       Out.rx_channels := default 2 rx_channels |}.
Proof.
  intros Hd. rewrite splitlines_audio_output_text by assumption.
  erewrite for_each_step by reflexivity.
  erewrite for_each_step by reflexivity.
  erewrite for_each_step by apply read_line_enabled.
  erewrite for_each_step by (apply read_line_device; assumption).
  erewrite for_each_step
    by (apply read_line_stereo_pair;
        [apply str_of_int_plain | apply int_str_of_int]).
  erewrite for_each_step
    by (apply read_line_channel_l;
        [apply str_of_int_plain | apply int_str_of_int]).
  erewrite for_each_step
    by (apply read_line_channel_r;
        [apply str_of_int_plain | apply int_str_of_int]).
  erewrite for_each_step
    by (apply read_line_rx_channels;
        [apply str_of_int_plain | apply int_str_of_int]).
  reflexivity.
Qed.

Lemma write_audio_output_config_written e enabled device stereo_pair rx w :
  audio_out_writable e = true ->
  write_audio_output_config e enabled device stereo_pair rx w
  = (true,
     {| metrics := metrics w;
        audio_out_config :=
          Content (audio_output_text enabled device stereo_pair rx);
        commands := commands w |}).
Proof.
  unfold audio_out_writable, write_audio_output_config.
  destruct (audio_out_write e); [reflexivity | discriminate | discriminate].
Qed.


(** C6.  For a valid device and a stereo pair of at least 1, once
    [write_audio_output_config] has written the configuration (it returns
    True), [read_audio_output_config] returns channel_l = 2 (stereo_pair - 1),
    channel_r = channel_l + 1, and the enabled flag, the device and the
    stereo pair that were written. *)
Theorem C6_routing_config_round_trip e w enabled device stereo_pair rx_channels :
  valid_device device = true ->
  1 <= stereo_pair ->
  audio_out_writable e = true ->
  let written :=
    write_audio_output_config e enabled device stereo_pair rx_channels w in
  let c := read_audio_output_config (snd written) in
  fst written = true /\
  Out.channel_l c = 2 * (stereo_pair - 1) /\
  Out.channel_r c = Out.channel_l c + 1 /\
  Out.enabled c = enabled /\
  Out.device c = device /\
  Out.stereo_pair c = stereo_pair.
Proof.
  intros Hd _ Hw written c. subst written c.
  rewrite write_audio_output_config_written by assumption.
  unfold read_audio_output_config. cbn [snd fst audio_out_config].
  rewrite read_written_text by assumption.
  cbn [Out.channel_l Out.channel_r Out.enabled Out.device Out.stereo_pair].
  repeat split; lia.
Qed.

Lemma C6_routing_config_round_trip_witness :
  let written := write_audio_output_config eight_channels true "hdmi" 3 None fresh in
  let c := read_audio_output_config (snd written) in
  fst written = true /\
  Out.channel_l c = 2 * (3 - 1) /\
  Out.channel_r c = Out.channel_l c + 1 /\
  Out.enabled c = true /\
  Out.device c = ("hdmi" : str) /\
  Out.stereo_pair c = 3.
Proof.
  apply (C6_routing_config_round_trip eight_channels fresh true "hdmi" 3 None);
    [reflexivity | lia | reflexivity].
Defined.

(** ** C7: invalid routing requests *)

Lemma max_pairs_is_ceil_half n : max_pairs n = ceil_half n.
Proof.
  unfold max_pairs, ceil_half, Qceiling, Qfloor. cbn [Qopp Qnum Qden].
  pose proof (Z.div_mod (n + 1) 2). pose proof (Z.mod_pos_bound (n + 1) 2).
  pose proof (Z.div_mod (- n) 2). pose proof (Z.mod_pos_bound (- n) 2).
  lia.
Qed.

(** C7.  A POST /audio/output whose device is not hdmi, headphones or auto,
    or whose stereo pair exceeds ceil(rx_channels / 2) for the rx_channels
    read at that moment from the main config store, is answered with an
    HTTPException of status 400 and leaves the process state as it was: the
    routing file is not written, no command is run, no gauge is touched. *)
Theorem C7_invalid_request_rejected_before_persistence e w request :
  valid_device (device request) = false \/
  (exists rx_channels,
     live_rx_channels e = Ok rx_channels /\
     ceil_half rx_channels < stereo_pair request) ->
  exists detail,
    set_audio_output e request w = (HTTPException 400 detail, w).
Proof.
  intros H. unfold set_audio_output.
  destruct (valid_device (device request)) eqn:Hd; cbn [negb]; [|eauto].
  destruct H as [H | (rx & Hrx & Hlt)]; [discriminate|].
  destruct (stereo_pair request <? 1); [eauto|].
  rewrite Hrx.
  rewrite <- max_pairs_is_ceil_half in Hlt.
  apply Z.ltb_lt in Hlt. rewrite Hlt. eauto.
Qed.

Lemma C7_invalid_request_rejected_before_persistence_witness :
  (exists detail,
     set_audio_output eight_channels
       {| enabled := true; device := "hdmi"; stereo_pair := 5 |} fresh
     = (HTTPException 400 detail, fresh)) /\
  (exists detail,
     set_audio_output eight_channels
       {| enabled := true; device := "spdif"; stereo_pair := 1 |} fresh
     = (HTTPException 400 detail, fresh)).
Proof.
  split.
  - apply C7_invalid_request_rejected_before_persistence.
    right. exists 8. split; [reflexivity|]. vm_compute. reflexivity.
  - apply C7_invalid_request_rejected_before_persistence.
    left. reflexivity.
Defined.

(** The same appliance accepts pair 4, writes the file and restarts the
    output service. *)
Example valid_request_accepted :
  let '(r, w) :=
    set_audio_output eight_channels
      {| enabled := true; device := "hdmi"; stereo_pair := 4 |} fresh in
  status_code r = 200 /\
  Out.channel_l (read_audio_output_config w) = 6 /\
  commands w = [ [ ("systemctl" : str); ("restart" : str);
                   ("inferno-audio-out.service" : str) ] ].
Proof. vm_compute. repeat split. Qed.

(** ** C8: the connected flag of a line *)

(** C8.  On a line of the stream log in which the parser finds an srt://
    URI, the loop body stores that URI and sets connected to true unless
    the lower-cased line contains error or failed; the flag is a function
    of the line alone, whatever the dictionary held before. *)
Theorem C8_connected_decided_on_the_line line uri before :
  uri_in_line line = Some uri ->
  exists after,
    srt_line line before = Continue after /\
    Srt.destination after = Some uri /\
    Srt.connected after
    = negb (Py.contains "error" (Py.lower line)
            || Py.contains "failed" (Py.lower line)).
Proof.
  intros H. exists (srt_update line before).
  split; [apply srt_line_continues|].
  destruct (srt_update_fields line before) as (-> & -> & _).
  rewrite H. cbn [from_option]. split; [reflexivity|].
  unfold line_connected. now rewrite negb_orb.
Qed.

Lemma C8_connected_decided_on_the_line_witness :
  exists after,
    srt_line "srt://10.0.0.9:9000 connection error"
             (Srt.set_destination "srt://10.0.0.2:9000" true Srt.initial)
    = Continue after /\
    Srt.destination after = Some ("srt://10.0.0.9:9000" : str) /\
    Srt.connected after = false.
Proof.
  apply (C8_connected_decided_on_the_line
           "srt://10.0.0.9:9000 connection error" "srt://10.0.0.9:9000").
  vm_compute. reflexivity.
Defined.

(** ** C9: the parsers are functions of their log *)

(** The status part of one step of the clock loop does not depend on the
    registry. *)
Lemma statime_line_status line st m1 m2 :
  match statime_line line (st, m1), statime_line line (st, m2) with
  | Continue (s1, m1'), Continue (s2, m2') => s1 = s2 /\ m1' = m1 /\ m2' = m2
  | Break (s1, _), Break (s2, _) => s1 = s2
  | Raised (s1, _), Raised (s2, _) => s1 = s2
  | _, _ => False
  end.
Proof.
  unfold statime_line.
  destruct (if Py.contains "offset" (Py.lower line)
            then search false re_offset line else None) as [g|].
  - destruct (Py.int g) as [offset|]; [|reflexivity].
    unfold set_int. destruct (Py.float_of_int offset); reflexivity.
  - repeat match goal with
      | |- context [if ?b then _ else _] => destruct b
      end; auto.
Qed.

Lemma statime_loop_status lines : forall st m1 m2,
  fst (after_try (for_each statime_line lines (st, m1)))
  = fst (after_try (for_each statime_line lines (st, m2))).
Proof.
  induction lines as [|line lines IH]; intros st m1 m2; [reflexivity|].
  cbn [for_each].
  pose proof (statime_line_status line st m1 m2) as H.
  destruct (statime_line line (st, m1)) as [[s1 a1]|[s1 a1]|[s1 a1]],
           (statime_line line (st, m2)) as [[s2 a2]|[s2 a2]|[s2 a2]];
    try contradiction.
  - destruct H as (-> & -> & ->). apply IH.
  - subst. reflexivity.
  - subst. reflexivity.
Qed.

Lemma parse_statime_log_status e e' m m' :
  statime_log e = statime_log e' ->
  fst (parse_statime_log e m) = fst (parse_statime_log e' m').
Proof.
  intros H. unfold parse_statime_log. rewrite <- H.
  destruct (statime_log e); try reflexivity.
  apply statime_loop_status.
Qed.

Lemma parse_srt_log_status e e' m m' :
  srt_log e = srt_log e' ->
  fst (parse_srt_log e m) = fst (parse_srt_log e' m').
Proof.
  intros H. unfold parse_srt_log. rewrite <- H.
  destruct (srt_log e); try reflexivity.
  destruct (for_each srt_line (rev (tail text)) Srt.initial); reflexivity.
Qed.

(** C9.  The record each parser returns is a function of the content of
    its own log file: neither the rest of the outside world nor the state
    of the process (the registry the previous calls wrote) enters it.  In
    particular a second run on the unchanged file, in the state the first
    run left, returns the same record. *)
Theorem C9_parsers_depend_on_their_log_only e e' m m' :
  (statime_log e = statime_log e' ->
   fst (parse_statime_log e m) = fst (parse_statime_log e' m')) /\
  (inferno_log e = inferno_log e' ->
   parse_inferno_log e = parse_inferno_log e') /\
  (srt_log e = srt_log e' ->
   fst (parse_srt_log e m) = fst (parse_srt_log e' m')) /\
  fst (parse_statime_log e (snd (parse_statime_log e m)))
  = fst (parse_statime_log e m) /\
  fst (parse_srt_log e (snd (parse_srt_log e m)))
  = fst (parse_srt_log e m).
Proof.
  split; [apply parse_statime_log_status|].
  split; [intros H; unfold parse_inferno_log; now rewrite H|].
  split; [apply parse_srt_log_status|].
  split; [now apply parse_statime_log_status
         | now apply parse_srt_log_status].
Qed.

Lemma C9_parsers_depend_on_their_log_only_witness :
  fst (parse_statime_log (clock_at "99999") ∅)
  = fst (parse_statime_log (clock_at "99999")
           (snd (parse_statime_log (clock_at "99999") ∅))) /\
  parse_inferno_log two_reports = parse_inferno_log two_reports /\
  fst (parse_srt_log two_reports ∅)
  = fst (parse_srt_log two_reports (snd (parse_srt_log two_reports ∅))).
Proof.
  destruct (C9_parsers_depend_on_their_log_only
              (clock_at "99999") (clock_at "99999") ∅
              (snd (parse_statime_log (clock_at "99999") ∅)))
    as (Hptp & _).
  destruct (C9_parsers_depend_on_their_log_only
              two_reports two_reports ∅
              (snd (parse_srt_log two_reports ∅)))
    as (_ & Haudio & Hsrt & _).
  split; [exact (Hptp eq_refl)|].
  split; [exact (Haudio eq_refl) | exact (Hsrt eq_refl)].
Defined.

(** ** The registry: what each function writes *)

Lemma value_set_eq (metric label : str) (v : Q) (m : registry) :
  value metric label (set metric label v m) = v.
Proof. unfold value, set. now rewrite lookup_insert_eq. Qed.

Lemma value_set_ne (metric label metric' label' : str) (v : Q) (m : registry) :
  metric <> metric' ->
  value metric' label' (set metric label v m) = value metric' label' m.
Proof.
  intros H. unfold value, set. rewrite lookup_insert_ne; [reflexivity|].
  congruence.
Qed.

(** Two metric names of the program are different texts. *)
Ltac names_differ :=
  let H := fresh in intros H; vm_compute in H; discriminate H.

Lemma run_metrics e argv w : metrics (snd (run e argv w)) = metrics w.
Proof. reflexivity. Qed.

Lemma check_service_status_frame e name w metric label :
  service_up <> metric ->
  value metric label (metrics (snd (check_service_status e name w)))
  = value metric label (metrics w).
Proof.
  intros H. unfold check_service_status, run.
  destruct (systemctl e _); cbn [snd metrics update_metrics with_metrics];
    now rewrite value_set_ne.
Qed.

Lemma check_service_status_up e name w :
  value service_up name (metrics (snd (check_service_status e name w)))
  = of_bool (fst (check_service_status e name w)).
Proof.
  unfold check_service_status, run.
  destruct (systemctl e _);
    cbn [fst snd metrics update_metrics with_metrics];
    now rewrite value_set_eq.
Qed.

Lemma get_service_restart_count_metrics e name w :
  metrics (snd (get_service_restart_count e name w)) = metrics w.
Proof.
  unfold get_service_restart_count, run.
  destruct (systemctl e _) as [p|]; [|reflexivity].
  destruct (search false re_nrestarts (stdout p)) as [g|]; [|reflexivity].
  destruct (Py.int g); reflexivity.
Qed.

Lemma parse_statime_log_frame e m metric label :
  ptp_clock_offset <> metric -> ptp_synchronized <> metric ->
  value metric label (snd (parse_statime_log e m)) = value metric label m.
Proof.
  intros H1 H2. unfold parse_statime_log.
  destruct (statime_log e) as [| |text]; try reflexivity.
  pose proof (statime_scan (rev (tail text)) Ptp.initial m) as H.
  cbv zeta in H.
  destruct (first_match offset_in_line (rev (tail text))) as [o|];
    destruct H as (_ & _ & ->); [|reflexivity].
  unfold clock_published. destruct (Py.float_of_int o); [|reflexivity].
  now rewrite !value_set_ne.
Qed.

Lemma publish_srt_frame s m metric label :
  srt_connected <> metric -> srt_bitrate <> metric -> srt_rtt <> metric ->
  srt_packet_loss <> metric ->
  value metric label (publish_srt s m) = value metric label m.
Proof.
  intros. unfold publish_srt. now rewrite !value_set_ne.
Qed.

Lemma publish_srt_values s m :
  value srt_connected [] (publish_srt s m) = of_bool (Srt.connected s) /\
  value srt_bitrate [] (publish_srt s m) = Srt.bitrate_kbps s /\
  value srt_rtt [] (publish_srt s m) = inject_Z (Srt.rtt_ms s) /\
  value srt_packet_loss [] (publish_srt s m) = Srt.packet_loss_pct s.
Proof.
  unfold publish_srt. repeat split.
  - rewrite !value_set_ne by names_differ. apply value_set_eq.
  - rewrite !value_set_ne by names_differ. apply value_set_eq.
  - rewrite !value_set_ne by names_differ. apply value_set_eq.
  - apply value_set_eq.
Qed.

(** The stream parser either publishes the record it returns or leaves
    the registry alone. *)
Lemma parse_srt_log_registry e m :
  snd (parse_srt_log e m) = publish_srt (fst (parse_srt_log e m)) m \/
  snd (parse_srt_log e m) = m.
Proof.
  unfold parse_srt_log. destruct (srt_log e); auto.
  destruct (for_each srt_line (rev (tail text)) Srt.initial); auto.
Qed.

Lemma parse_srt_log_frame e m metric label :
  srt_connected <> metric -> srt_bitrate <> metric -> srt_rtt <> metric ->
  srt_packet_loss <> metric ->
  value metric label (snd (parse_srt_log e m)) = value metric label m.
Proof.
  intros. destruct (parse_srt_log_registry e m) as [-> | ->];
    [now apply publish_srt_frame | reflexivity].
Qed.

Lemma inc_zero (metric label : str) (m : registry) :
  inc metric label 0%Q m
  = Ok (set metric label (value metric label m + 0)%Q m).
Proof. reflexivity. Qed.

Lemma services_step_frame e service acc metric label :
  service_up <> metric -> service_restarts <> metric ->
  value metric label (metrics (snd (services_step e service acc)))
  = value metric label (metrics (snd acc)).
Proof.
  intros H1 H2. destruct acc as [services w]. unfold services_step.
  pose proof (check_service_status_frame e service w metric label H1) as Hc.
  destruct (check_service_status e service w) as [is_running w1].
  pose proof (get_service_restart_count_metrics e service w1) as Hr.
  destruct (get_service_restart_count e service w1) as [restart_count w2].
  cbn [snd] in *. rewrite inc_zero. cbn [metrics with_metrics].
  rewrite value_set_ne by assumption. now rewrite Hr.
Qed.

Lemma get_services_status_frame e w metric label :
  service_up <> metric -> service_restarts <> metric ->
  value metric label (metrics (snd (get_services_status e w)))
  = value metric label (metrics w).
Proof.
  intros H1 H2. unfold get_services_status. cbn [fold_left].
  match goal with
  | |- context [let '(_, _) := ?x in _] =>
      change (value metric label (metrics (snd x))
              = value metric label (metrics w)) ||
      (destruct x as [services w'] eqn:E; cbn [snd];
       change w' with (snd (services, w')); rewrite <- E)
  end.
  now rewrite !services_step_frame.
Qed.

Lemma audio_channel_step_frame i acc metric label :
  audio_level <> metric -> audio_peak <> metric ->
  silence_detected <> metric ->
  value metric label (snd (audio_channel_step i acc))
  = value metric label (snd acc).
Proof.
  intros. destruct acc as [channels m]. unfold audio_channel_step.
  cbn [snd]. now rewrite !value_set_ne.
Qed.

Lemma audio_channels_frame l : forall acc metric label,
  audio_level <> metric -> audio_peak <> metric ->
  silence_detected <> metric ->
  value metric label
        (snd (fold_left (fun acc i => audio_channel_step i acc) l acc))
  = value metric label (snd acc).
Proof.
  induction l as [|i l IH]; intros acc metric label H1 H2 H3;
    [reflexivity|].
  cbn [fold_left]. rewrite IH by assumption.
  now apply audio_channel_step_frame.
Qed.

Lemma write_audio_output_config_metrics e enabled device stereo_pair rx w :
  metrics (snd (write_audio_output_config e enabled device stereo_pair rx w))
  = metrics w.
Proof.
  unfold write_audio_output_config.
  now destruct (audio_out_write e).
Qed.

Lemma run_checked_metrics e argv w :
  metrics (snd (run_checked e argv w)) = metrics w.
Proof. reflexivity. Qed.

(** Turn [~ In metric [a; b; ...]] into the inequalities [a <> metric]. *)
Ltac split_not_in H :=
  cbn [written_by In] in H;
  repeat match type of H with
  | ~ (?a = ?b \/ _) =>
      let Hne := fresh "Hne" in
      assert (Hne : a <> b) by (intros ?; apply H; left; assumption);
      assert (~ _) as H' by (intros ?; apply H; right; eassumption);
      clear H; rename H' into H
  end.

(** A request leaves alone every metric it is not listed for. *)
Lemma handle_frame e r w metric label :
  ~ In metric (written_by r) ->
  value metric label (metrics (snd (handle e r w)))
  = value metric label (metrics w).
Proof.
  intros H. destruct r; cbn [handle answered snd]; split_not_in H.
  - (* health *)
    unfold health_check.
    destruct (check_service_status e "statime" w) as [b1 w1] eqn:E1.
    destruct (check_service_status e "inferno" w1) as [b2 w2] eqn:E2.
    destruct (check_service_status e "inferno-srt" w2) as [b3 w3] eqn:E3.
    cbn [snd].
    change w3 with (snd (b3, w3)). rewrite <- E3, check_service_status_frame by assumption.
    change w2 with (snd (b2, w2)). rewrite <- E2, check_service_status_frame by assumption.
    change w1 with (snd (b1, w1)). rewrite <- E1, check_service_status_frame by assumption.
    reflexivity.
  - (* status *)
    unfold get_status. destruct (load_config e); [|reflexivity].
    destruct (check_service_status e "statime" w) as [b1 w1] eqn:E1.
    destruct (check_service_status e "inferno" w1) as [b2 w2] eqn:E2.
    destruct (check_service_status e "inferno-srt" w2) as [b3 w3] eqn:E3.
    destruct (parse_statime_log e (metrics w3)) as [p m1] eqn:E4.
    destruct (parse_srt_log e m1) as [s m2] eqn:E5.
    cbn [snd metrics with_metrics].
    rewrite !value_set_ne by assumption.
    change m2 with (snd (s, m2)). rewrite <- E5, parse_srt_log_frame by assumption.
    change m1 with (snd (p, m1)). rewrite <- E4, parse_statime_log_frame by assumption.
    change w3 with (snd (b3, w3)). rewrite <- E3, check_service_status_frame by assumption.
    change w2 with (snd (b2, w2)). rewrite <- E2, check_service_status_frame by assumption.
    change w1 with (snd (b1, w1)). rewrite <- E1, check_service_status_frame by assumption.
    reflexivity.
  - (* services *)
    now apply get_services_status_frame.
  - (* audio status *)
    unfold get_audio_status. destruct (load_config e); [|reflexivity].
    destruct (config_rx_channels a) as [rx|]; [|reflexivity].
    match goal with
    | |- context [let '(_, _) := ?x in _] =>
        pose proof (audio_channels_frame (range rx) ([], metrics w)
                      metric label Hne Hne0 Hne1) as Hf;
        destruct x as [channels m]
    end.
    cbn [snd metrics with_metrics] in *. exact Hf.
  - (* audio output *)
    unfold get_audio_output.
    destruct (check_service_status e "inferno-audio-out" w) as [b1 w1] eqn:E1.
    cbn [snd].
    change w1 with (snd (b1, w1)). rewrite <- E1.
    now apply check_service_status_frame.
  - (* POST audio output *)
    unfold set_audio_output.
    repeat match goal with
    | |- context [if ?b then _ else _] => destruct b; try reflexivity
    | |- context [match ?x ≫= ?f with _ => _ end] =>
        destruct (x ≫= f); try reflexivity
    end.
    all: unfold write_audio_output_config;
      destruct (audio_out_write e); cbn [negb]; try reflexivity.
    all: unfold run_checked, run;
      repeat match goal with
      | |- context [match ?x with _ => _ end] => destruct x; try reflexivity
      end.
  - (* toggle *)
    unfold toggle_audio_output, write_audio_output_config.
    destruct (audio_out_write e); cbn [negb]; try reflexivity.
    unfold run_checked, run.
    repeat match goal with
    | |- context [match ?x with _ => _ end] => destruct x; try reflexivity
    end.
  - (* ptp *)
    unfold get_ptp_status.
    destruct (parse_statime_log e (metrics w)) as [p m1] eqn:E4.
    cbn [snd metrics with_metrics].
    change m1 with (snd (p, m1)). rewrite <- E4.
    now apply parse_statime_log_frame.
  - (* srt *)
    unfold get_srt_status.
    destruct (parse_srt_log e (metrics w)) as [s m2] eqn:E5.
    assert (Hm : value metric label m2 = value metric label (metrics w)).
    { change m2 with (snd (s, m2)). rewrite <- E5.
      now apply parse_srt_log_frame. }
    destruct (load_config e); [destruct (_ || _)|];
      cbn [snd metrics with_metrics]; exact Hm.
  - (* network *)
    unfold get_network_status. destruct (load_config e); [|reflexivity].
    destruct (loss_rate _ _); [|reflexivity].
    cbn [snd metrics update_metrics with_metrics].
    now apply value_set_ne.
  - reflexivity.
Qed.

(** ** C10: the round-trip time *)

Lemma parse_srt_log_rtt e m : Srt.rtt_ms (fst (parse_srt_log e m)) = 0.
Proof.
  unfold parse_srt_log. destruct (srt_log e) as [| |text]; try reflexivity.
  rewrite (for_each_continues _ _ srt_line_continues). cbn [fst].
  generalize (rev (tail text)). intros lines.
  assert (H : forall s, Srt.rtt_ms s = 0 ->
            Srt.rtt_ms (fold_left (fun s l => srt_update l s) lines s) = 0).
  { induction lines as [|l lines IH]; intros s Hs; [assumption|].
    cbn [fold_left]. apply IH.
    destruct (srt_update_fields l s) as (_ & _ & _ & _ & ->). assumption. }
  now apply H.
Qed.

Lemma parse_srt_log_rtt_gauge e m :
  value srt_rtt [] m = 0%Q -> value srt_rtt [] (snd (parse_srt_log e m)) = 0%Q.
Proof.
  intros H. destruct (parse_srt_log_registry e m) as [-> | ->]; [|assumption].
  destruct (publish_srt_values (fst (parse_srt_log e m)) m)
    as (_ & _ & -> & _).
  now rewrite parse_srt_log_rtt.
Qed.

Lemma handle_rtt_zero e r w : rtt_zero w -> rtt_zero (snd (handle e r w)).
Proof.
  unfold rtt_zero. intros H.
  destruct r;
    try (rewrite handle_frame; [assumption|];
         cbn [written_by In]; intros Hin;
         repeat destruct Hin as [Hin | Hin];
         try contradiction; vm_compute in Hin; discriminate Hin).
  - (* status *)
    cbn [handle answered snd]. unfold get_status.
    destruct (load_config e); [|assumption].
    destruct (check_service_status e "statime" w) as [b1 w1] eqn:E1.
    destruct (check_service_status e "inferno" w1) as [b2 w2] eqn:E2.
    destruct (check_service_status e "inferno-srt" w2) as [b3 w3] eqn:E3.
    destruct (parse_statime_log e (metrics w3)) as [p m1] eqn:E4.
    destruct (parse_srt_log e m1) as [s m2] eqn:E5.
    cbn [snd metrics with_metrics].
    rewrite !value_set_ne by names_differ.
    change m2 with (snd (s, m2)). rewrite <- E5.
    apply parse_srt_log_rtt_gauge.
    change m1 with (snd (p, m1)).
    rewrite <- E4, parse_statime_log_frame by names_differ.
    change w3 with (snd (b3, w3)).
    rewrite <- E3, check_service_status_frame by names_differ.
    change w2 with (snd (b2, w2)).
    rewrite <- E2, check_service_status_frame by names_differ.
    change w1 with (snd (b1, w1)).
    rewrite <- E1, check_service_status_frame by names_differ.
    assumption.
  - (* srt *)
    cbn [handle answered snd]. unfold get_srt_status.
    pose proof (parse_srt_log_rtt_gauge e (metrics w) H) as Hs.
    destruct (parse_srt_log e (metrics w)) as [s m2].
    destruct (load_config e); [destruct (_ || _)|];
      cbn [snd metrics with_metrics]; exact Hs.
Qed.

Lemma startup_rtt_zero e routing : rtt_zero (startup e routing).
Proof.
  unfold rtt_zero, startup. cbn [fold_left].
  now rewrite !check_service_status_frame by names_differ.
Qed.

Lemma serve_rtt_zero history : forall w,
  rtt_zero w -> rtt_zero (serve history w).
Proof.
  induction history as [|[e r] history IH]; intros w H; [assumption|].
  apply IH. now apply handle_rtt_zero.
Qed.

(** C10.  [parse_srt_log] never stores a round-trip time: the rtt_ms of the
    record it returns is the default 0 for every log; the stream view
    reports that 0 whenever it answers; and the srt_rtt gauge reads 0 in
    every state the process reaches, after any history of requests. *)
Theorem C10_rtt_is_always_zero e m w routing history :
  Srt.rtt_ms (fst (parse_srt_log e m)) = 0 /\
  match fst (get_srt_status e w) with
  | OK body => SrtView.rtt_ms body = 0
  | _ => True
  end /\
  value srt_rtt [] (metrics (serve history (startup e routing))) = 0%Q.
Proof.
  split; [apply parse_srt_log_rtt|]. split.
  - unfold get_srt_status.
    pose proof (parse_srt_log_rtt e (metrics w)) as H.
    destruct (parse_srt_log e (metrics w)) as [s m2].
    destruct (load_config e); [destruct (_ || _)|]; cbn [fst];
      [exact I | exact H | exact I].
  - apply serve_rtt_zero, startup_rtt_zero.
Qed.

(** ** C2: the registry and the snapshot *)

(** The claim as stated fails in three ways.  (a) The network view returns
    the packet counts of the log while the two packet counters stay at 0.
    (b) The services view returns the restart counts of systemd while the
    restart counters stay at 0.  (c) Once the clock log no longer yields an
    offset, the clock view returns the defaults while the two clock gauges
    keep the values of the earlier call. *)
Lemma C2_registry_disagrees_with_snapshot :
  (let '(r, w) := get_network_status no_loss fresh in
   option_map Network.packets_received (body_of r) = Some 5 /\
   option_map Network.packets_lost (body_of r) = Some 0 /\
   packets_agree 5 0 (metrics w) = false) /\
  (let '(r, w) := get_services_status restarted fresh in
   option_map (map (fun x => Services.restart_count (snd x))) (body_of r)
   = Some [3; 3; 3] /\
   option_map (fun body => restarts_agree body (metrics w)) (body_of r)
   = Some false) /\
  (let '(r, w) :=
     get_ptp_status bare (snd (get_ptp_status (clock_at "5000") fresh)) in
   body_of r = Some Ptp.initial /\
   ptp_agrees Ptp.initial (metrics w) = false /\
   value ptp_clock_offset [] (metrics w) = inject_Z 5000).
Proof. vm_compute. repeat split. Qed.

Lemma value_set_other (metric label metric' label' : str) (v : Q)
      (m : registry) :
  (metric, label) <> (metric', label') ->
  value metric' label' (set metric label v m) = value metric' label' m.
Proof.
  intros H. unfold value, set. now rewrite lookup_insert_ne.
Qed.

Lemma Qeq_bool_same q : Qeq_bool q q = true.
Proof. apply Qeq_bool_iff. reflexivity. Qed.

Lemma check_service_status_other e name w (metric label : str) :
  (service_up, name) <> (metric, label) ->
  value metric label (metrics (snd (check_service_status e name w)))
  = value metric label (metrics w).
Proof.
  intros H. unfold check_service_status, run.
  destruct (systemctl e _); cbn [snd metrics update_metrics with_metrics];
    now rewrite value_set_other.
Qed.

(** *** Ints as floats *)

Lemma round_to_double_exact n :
  Z.abs n <= 2 ^ 53 -> Py.round_to_double n = n.
Proof.
  intros H. unfold Py.round_to_double. cbv zeta.
  destruct (Z.eq_dec (Z.abs n) (2 ^ 53)) as [Heq | Hne].
  - assert (Hn : n = 2 ^ 53 \/ n = - 2 ^ 53) by lia.
    destruct Hn as [-> | ->]; vm_compute; reflexivity.
  - assert (Hk : Z.log2 (Z.abs n) - 52 <= 0).
    { destruct (Z.eq_dec (Z.abs n) 0) as [-> | Hz]; [vm_compute; discriminate|].
      assert (Z.log2 (Z.abs n) < 53); [|lia].
      apply Z.log2_lt_pow2; lia. }
    apply Z.leb_le in Hk. now rewrite Hk.
Qed.

(** An int of at most 53 bits is its own float. *)
Lemma float_of_int_exact n :
  Z.abs n <= 2 ^ 53 -> Py.float_of_int n = Ok (inject_Z n).
Proof.
  intros H. unfold Py.float_of_int. cbv zeta.
  rewrite round_to_double_exact by assumption.
  assert (Hlt : 2 ^ 53 < 2 ^ 1024) by (apply Z.pow_lt_mono_r; lia).
  destruct (Z.leb_spec (2 ^ 1024) (Z.abs n)); [lia | reflexivity].
Qed.

(** The clock parser publishes the offset, as a float, and the flag it
    returns when it found an offset that a float can hold, and leaves the
    registry alone otherwise. *)
Lemma parse_statime_log_agrees e m :
  if clock_offset_published e
  then clock_gauges_hold (Ptp.clock_offset_ns (fst (parse_statime_log e m)))
                         (Ptp.synchronized (fst (parse_statime_log e m)))
                         (snd (parse_statime_log e m)) = true
  else snd (parse_statime_log e m) = m.
Proof.
  unfold clock_offset_published, clock_offset.
  destruct (statime_log e) as [| |text] eqn:Hlog.
  - unfold parse_statime_log. now rewrite Hlog.
  - unfold parse_statime_log. now rewrite Hlog.
  - pose proof (parse_statime_log_scan e m text Hlog) as H. cbv zeta in H.
    destruct (most_recent offset_in_line (tail text)) as [o|].
    + destruct H as (Ho & Hs & ->). unfold clock_gauges_hold, clock_published.
      rewrite Ho, Hs.
      destruct (Py.float_of_int o) as [f|]; [|reflexivity].
      rewrite value_set_eq, value_set_ne, value_set_eq by names_differ.
      now rewrite !Qeq_bool_same.
    + now destruct H as (_ & _ & ->).
Qed.

(** When the offset has at most 53 bits, the gauge holds the offset
    itself. *)
Lemma clock_gauges_hold_exactly s m :
  clock_gauges_hold (Ptp.clock_offset_ns s) (Ptp.synchronized s) m = true ->
  Z.abs (Ptp.clock_offset_ns s) <= 2 ^ 53 ->
  ptp_agrees s m = true.
Proof.
  unfold clock_gauges_hold, ptp_agrees. intros H Hsmall.
  now rewrite float_of_int_exact in H by assumption.
Qed.

(** The stream parser publishes the record it returns when the log was
    read, and leaves the registry alone otherwise. *)
Lemma parse_srt_log_agrees e m :
  if srt_log_readable e
  then srt_agrees (fst (parse_srt_log e m)) (snd (parse_srt_log e m)) = true
  else snd (parse_srt_log e m) = m.
Proof.
  unfold srt_log_readable.
  destruct (srt_log e) as [| |text] eqn:Hlog.
  - unfold parse_srt_log. now rewrite Hlog.
  - unfold parse_srt_log. now rewrite Hlog.
  - rewrite (parse_srt_log_fold e m text Hlog). cbv zeta.
    cbn [fst snd]. unfold srt_agrees.
    match goal with
    | |- context [publish_srt ?s ?m] =>
        destruct (publish_srt_values s m) as (-> & -> & -> & ->)
    end.
    now rewrite !Qeq_bool_same.
Qed.

(** The clock view: the two gauges follow the snapshot when an offset was
    found that a float can hold, and are left alone otherwise. *)
Lemma get_ptp_status_registry e w :
  exists s, fst (get_ptp_status e w) = OK s /\
    if clock_offset_published e
    then clock_gauges_hold (Ptp.clock_offset_ns s) (Ptp.synchronized s)
           (metrics (snd (get_ptp_status e w))) = true /\
         (Z.abs (Ptp.clock_offset_ns s) <= 2 ^ 53 ->
          ptp_agrees s (metrics (snd (get_ptp_status e w))) = true)
    else metrics (snd (get_ptp_status e w)) = metrics w.
Proof.
  unfold get_ptp_status.
  pose proof (parse_statime_log_agrees e (metrics w)) as H.
  destruct (parse_statime_log e (metrics w)) as [s m'].
  exists s. split; [reflexivity|].
  cbn [fst snd metrics with_metrics] in *.
  destruct (clock_offset_published e); [|exact H].
  split; [exact H | now apply clock_gauges_hold_exactly].
Qed.

(** The stream view: the four gauges follow the record the parser
    returned when the log was read, and are left alone otherwise; the body,
    when there is one, reports that record. *)
Lemma get_srt_status_registry e w :
  let s := fst (parse_srt_log e (metrics w)) in
  (if srt_log_readable e
   then srt_agrees s (metrics (snd (get_srt_status e w))) = true
   else metrics (snd (get_srt_status e w)) = metrics w) /\
  match fst (get_srt_status e w) with
  | OK body =>
      SrtView.connected body = Srt.connected s /\
      SrtView.bitrate_kbps body = Srt.bitrate_kbps s /\
      SrtView.rtt_ms body = Srt.rtt_ms s /\
      SrtView.packet_loss_pct body = Srt.packet_loss_pct s
  | _ => True
  end.
Proof.
  intros s. subst s. unfold get_srt_status.
  pose proof (parse_srt_log_agrees e (metrics w)) as Hm.
  destruct (parse_srt_log e (metrics w)) as [s m'].
  cbn [fst snd] in *.
  destruct (load_config e); [destruct (_ || _)|];
    cbn [fst snd metrics with_metrics];
    (split; [exact Hm | auto]).
Qed.

(** The network view writes the rate it returns. *)
Lemma get_network_status_registry e w :
  match fst (get_network_status e w) with
  | OK body =>
      Qeq_bool (value Metrics.packet_loss_rate []
                      (metrics (snd (get_network_status e w))))
               (Network.packet_loss_rate body) = true
  | _ => True
  end.
Proof.
  unfold get_network_status. destruct (load_config e); [|exact I].
  destruct (loss_rate _ _); [|exact I].
  cbn [fst snd metrics update_metrics with_metrics Network.packet_loss_rate].
  rewrite value_set_eq. apply Qeq_bool_same.
Qed.

(** The health view: the gauge of each probed service follows the flag the
    view returns for it. *)
Lemma health_check_registry e w :
  exists statime inferno srt,
    fst (health_check e w)
    = OK {| Health.healthy := statime && (inferno && (srt && true));
            Health.services :=
              [ (("statime" : str), statime); (("inferno" : str), inferno);
                (("srt" : str), srt) ] |} /\
    running_agree
      [ (("statime" : str), statime); (("inferno" : str), inferno);
        (("inferno-srt" : str), srt) ]
      (metrics (snd (health_check e w))) = true.
Proof.
  unfold health_check.
  pose proof (check_service_status_up e "statime" w) as U1.
  destruct (check_service_status e "statime" w) as [b1 w1] eqn:E1.
  pose proof (check_service_status_up e "inferno" w1) as U2.
  pose proof (check_service_status_other e "inferno" w1 service_up "statime")
    as F2.
  destruct (check_service_status e "inferno" w1) as [b2 w2] eqn:E2.
  pose proof (check_service_status_up e "inferno-srt" w2) as U3.
  pose proof (check_service_status_other e "inferno-srt" w2 service_up "statime")
    as F3a.
  pose proof (check_service_status_other e "inferno-srt" w2 service_up "inferno")
    as F3b.
  destruct (check_service_status e "inferno-srt" w2) as [b3 w3] eqn:E3.
  cbn [fst snd] in *.
  exists b1, b2, b3. split; [reflexivity|].
  unfold running_agree. cbn [forallb fst snd].
  rewrite U3, F3b, U2, F3a, F2, U1 by names_differ.
  now rewrite !Qeq_bool_same.
Qed.

(** The routing view: the gauge of the output service follows the flag the
    view returns. *)
Lemma get_audio_output_registry e w :
  exists body,
    fst (get_audio_output e w) = OK body /\
    running_agree
      [ (("inferno-audio-out" : str), OutputStatus.service_running body) ]
      (metrics (snd (get_audio_output e w))) = true.
Proof.
  unfold get_audio_output.
  pose proof (check_service_status_up e "inferno-audio-out" w) as U.
  destruct (check_service_status e "inferno-audio-out" w) as [b w1].
  cbn [fst snd] in *. eexists. split; [reflexivity|].
  unfold running_agree.
  cbn [forallb fst snd OutputStatus.service_running].
  rewrite U. now rewrite Qeq_bool_same.
Qed.

(** The overall view: the gauges of the three services follow the flags
    returned; the clock gauges follow the clock summary when an offset was
    found that a float can hold; the connection gauge follows the stream
    summary when the stream log was read; the two uptime gauges hold the
    first readings of the clock, the body the second ones.  When the
    installation file cannot be loaded nothing has happened. *)
Lemma get_status_registry e w :
  match fst (get_status e w) with
  | OK body =>
      let m' := metrics (snd (get_status e w)) in
      (exists statime inferno srt,
         Status.services body
         = [ (("statime" : str), statime); (("inferno" : str), inferno);
             (("srt" : str), srt) ] /\
         running_agree
           [ (("statime" : str), statime); (("inferno" : str), inferno);
             (("inferno-srt" : str), srt) ] m' = true) /\
      (if clock_offset_published e
       then clock_gauges_hold (Status.ptp_clock_offset_ns body)
                              (Status.ptp_synchronized body) m' = true
       else True) /\
      (if srt_log_readable e
       then Qeq_bool (value srt_connected [] m')
                     (of_bool (Status.srt_connected body)) = true
       else True) /\
      value system_uptime [] m' = inject_Z (system_seconds (uptime_gauged e)) /\
      value api_uptime [] m' = inject_Z (api_seconds (uptime_gauged e)) /\
      Status.uptime_seconds body = system_seconds (uptime_returned e) /\
      Status.api_uptime_seconds body = api_seconds (uptime_returned e)
  | _ => snd (get_status e w) = w
  end.
Proof.
  unfold get_status. destruct (load_config e) as [cfg|x]; [|reflexivity].
  pose proof (check_service_status_up e "statime" w) as U1.
  destruct (check_service_status e "statime" w) as [b1 w1].
  pose proof (check_service_status_up e "inferno" w1) as U2.
  pose proof (check_service_status_other e "inferno" w1 service_up "statime")
    as F2.
  destruct (check_service_status e "inferno" w1) as [b2 w2].
  pose proof (check_service_status_up e "inferno-srt" w2) as U3.
  pose proof (check_service_status_other e "inferno-srt" w2 service_up "statime")
    as F3a.
  pose proof (check_service_status_other e "inferno-srt" w2 service_up "inferno")
    as F3b.
  destruct (check_service_status e "inferno-srt" w2) as [b3 w3].
  pose proof (parse_statime_log_agrees e (metrics w3)) as Hptp.
  pose proof (fun metric label =>
                parse_statime_log_frame e (metrics w3) metric label) as Fp.
  destruct (parse_statime_log e (metrics w3)) as [p m1].
  pose proof (parse_srt_log_agrees e m1) as Hsrt.
  pose proof (fun metric label => parse_srt_log_frame e m1 metric label) as Fs.
  destruct (parse_srt_log e m1) as [s m2].
  cbn [fst snd metrics with_metrics] in *. cbv zeta.
  cbn [Status.services Status.ptp_clock_offset_ns Status.ptp_synchronized
       Status.srt_connected Status.uptime_seconds Status.api_uptime_seconds].
  split; [|split; [|split; [|split; [|split; [|split]]]]].
  - exists b1, b2, b3. split; [reflexivity|].
    unfold running_agree. cbn [forallb fst snd].
    rewrite !value_set_ne by names_differ.
    rewrite !Fs, !Fp by names_differ.
    rewrite U3, F3b, U2, F3a, F2, U1 by names_differ.
    now rewrite !Qeq_bool_same.
  - destruct (clock_offset_published e); [|exact I].
    unfold clock_gauges_hold in *.
    destruct (Py.float_of_int (Ptp.clock_offset_ns p)); [|discriminate].
    rewrite !value_set_ne by names_differ.
    now rewrite !Fs by names_differ.
  - destruct (srt_log_readable e); [|exact I].
    unfold srt_agrees in Hsrt.
    apply andb_true_iff in Hsrt as [Hsrt _].
    apply andb_true_iff in Hsrt as [Hsrt _].
    apply andb_true_iff in Hsrt as [Hsrt _].
    now rewrite !value_set_ne by names_differ.
  - rewrite value_set_ne by names_differ. apply value_set_eq.
  - apply value_set_eq.
  - reflexivity.
  - reflexivity.
Qed.

(** One round of the services view: the gauge of the service follows the
    flag returned, every other series keeps its value (the restart counter
    of the service is incremented by 0). *)
Lemma services_step_spec e service services w :
  exists entry w',
    services_step e service (services, w)
    = (services ++ [(service, entry)], w') /\
    value service_up service (metrics w')
    = of_bool (Services.running entry) /\
    forall metric label : str,
      (service_up, service) <> (metric, label) ->
      (value metric label (metrics w') == value metric label (metrics w))%Q.
Proof.
  unfold services_step.
  pose proof (check_service_status_up e service w) as U.
  pose proof (fun metric label =>
                check_service_status_other e service w metric label) as F.
  destruct (check_service_status e service w) as [is_running w1].
  pose proof (get_service_restart_count_metrics e service w1) as R.
  destruct (get_service_restart_count e service w1) as [restart_count w2].
  cbn [fst snd] in *. rewrite inc_zero.
  eexists. eexists. split; [reflexivity|].
  cbn [metrics with_metrics Services.running]. rewrite R. split.
  - rewrite value_set_ne by names_differ. exact U.
  - intros metric label Hne.
    destruct (decide ((service_restarts, service) = (metric, label)))
      as [Heq | Hother].
    + injection Heq as <- <-. rewrite value_set_eq, Qplus_0_r.
      rewrite F by names_differ. reflexivity.
    + rewrite value_set_other by assumption. rewrite F by assumption.
      reflexivity.
Qed.

(** The services view: the gauges follow the running flags returned; the
    restart counters keep their values. *)
Lemma get_services_status_registry e w :
  exists body,
    fst (get_services_status e w) = OK body /\
    map fst body = [ ("statime" : str); ("inferno" : str); ("inferno-srt" : str) ] /\
    running_agree (map (fun x => (fst x, Services.running (snd x))) body)
                  (metrics (snd (get_services_status e w))) = true /\
    forall label : str,
      (value service_restarts label (metrics (snd (get_services_status e w)))
       == value service_restarts label (metrics w))%Q.
Proof.
  unfold get_services_status. cbn [fold_left].
  destruct (services_step_spec e "statime" [] w)
    as (e1 & w1 & -> & U1 & F1).
  destruct (services_step_spec e "inferno" ([] ++ [(("statime" : str), e1)]) w1)
    as (e2 & w2 & -> & U2 & F2).
  destruct (services_step_spec e "inferno-srt"
              (([] ++ [(("statime" : str), e1)]) ++ [(("inferno" : str), e2)]) w2)
    as (e3 & w3 & -> & U3 & F3).
  cbn [fst snd app].
  eexists. split; [reflexivity|]. split; [reflexivity|]. split.
  - unfold running_agree. cbn [map forallb fst snd].
    apply andb_true_iff. split; [|apply andb_true_iff; split];
      [| |rewrite andb_true_r]; apply Qeq_bool_iff.
    + rewrite F3, F2 by names_differ. now rewrite U1.
    + rewrite F3 by names_differ. now rewrite U2.
    + now rewrite U3.
  - intros label. rewrite F3, F2, F1 by names_differ. reflexivity.
Qed.

(** No request ever changes a packet counter. *)
Lemma handle_keeps_packet_counters e r w (label : str) :
  value Metrics.packets_received label (metrics (snd (handle e r w)))
  = value Metrics.packets_received label (metrics w) /\
  value Metrics.packets_lost label (metrics (snd (handle e r w)))
  = value Metrics.packets_lost label (metrics w).
Proof.
  split; apply handle_frame; destruct r; cbn [written_by In];
    intros Hin; repeat destruct Hin as [Hin | Hin];
    try contradiction; vm_compute in Hin; discriminate Hin.
Qed.

(** An offset of 309 digits is returned as it is, out of synchronization,
    and no gauge is written: its conversion to a float raises inside the
    try, after the dictionary has been filled in. *)
Example clock_offset_beyond_floats :
  let e := clock_at (repeat "9"%char 309) in
  clock_offset_published e = false /\
  Ptp.clock_offset_ns (fst (parse_statime_log e ∅)) = 10 ^ 309 - 1 /\
  Ptp.synchronized (fst (parse_statime_log e ∅)) = false /\
  snd (parse_statime_log e ∅) = ∅.
Proof. vm_compute. repeat split. Qed.

(** C2 (amended).  After a view, the gauges the view has written hold,
    as floats, the fields of the snapshot it returns.  The clock offset
    gauge holds the float nearest to the offset returned, which is the
    offset itself up to 2^53, and the synchronized gauge the flag: both when
    the clock log yields an offset that a float can hold, otherwise the
    clock view leaves the registry as it was.  The four stream gauges hold
    the record of the stream parser when the stream log can be read,
    otherwise the stream view leaves the registry as it was.  The loss-rate
    gauge holds the rate of the network view.  The service_up gauge of each
    probed service holds the flag returned by the health, the services, the
    overall and the routing view.  The two uptime gauges of the overall view
    hold the first reading of the clock and the body the second one.  The
    services view keeps the value of every restart counter, and no request
    changes the packets_received and packets_lost counters. *)
Theorem C2_views_publish_what_they_write e w :
  (exists s, fst (get_ptp_status e w) = OK s /\
     if clock_offset_published e
     then clock_gauges_hold (Ptp.clock_offset_ns s) (Ptp.synchronized s)
            (metrics (snd (get_ptp_status e w))) = true /\
          (Z.abs (Ptp.clock_offset_ns s) <= 2 ^ 53 ->
           ptp_agrees s (metrics (snd (get_ptp_status e w))) = true)
     else metrics (snd (get_ptp_status e w)) = metrics w) /\
  (let s := fst (parse_srt_log e (metrics w)) in
   (if srt_log_readable e
    then srt_agrees s (metrics (snd (get_srt_status e w))) = true
    else metrics (snd (get_srt_status e w)) = metrics w) /\
   match fst (get_srt_status e w) with
   | OK body =>
       SrtView.connected body = Srt.connected s /\
       SrtView.bitrate_kbps body = Srt.bitrate_kbps s /\
       SrtView.rtt_ms body = Srt.rtt_ms s /\
       SrtView.packet_loss_pct body = Srt.packet_loss_pct s
   | _ => True
   end) /\
  match fst (get_network_status e w) with
  | OK body =>
      Qeq_bool (value Metrics.packet_loss_rate []
                      (metrics (snd (get_network_status e w))))
               (Network.packet_loss_rate body) = true
  | _ => True
  end /\
  (exists statime inferno srt,
     fst (health_check e w)
     = OK {| Health.healthy := statime && (inferno && (srt && true));
             Health.services :=
               [ (("statime" : str), statime); (("inferno" : str), inferno);
                 (("srt" : str), srt) ] |} /\
     running_agree
       [ (("statime" : str), statime); (("inferno" : str), inferno);
         (("inferno-srt" : str), srt) ]
       (metrics (snd (health_check e w))) = true) /\
  (exists body,
     fst (get_services_status e w) = OK body /\
     map fst body
     = [ ("statime" : str); ("inferno" : str); ("inferno-srt" : str) ] /\
     running_agree (map (fun x => (fst x, Services.running (snd x))) body)
                   (metrics (snd (get_services_status e w))) = true /\
     forall label : str,
       (value service_restarts label (metrics (snd (get_services_status e w)))
        == value service_restarts label (metrics w))%Q) /\
  (exists body,
     fst (get_audio_output e w) = OK body /\
     running_agree
       [ (("inferno-audio-out" : str), OutputStatus.service_running body) ]
       (metrics (snd (get_audio_output e w))) = true) /\
  match fst (get_status e w) with
  | OK body =>
      let m' := metrics (snd (get_status e w)) in
      (exists statime inferno srt,
         Status.services body
         = [ (("statime" : str), statime); (("inferno" : str), inferno);
             (("srt" : str), srt) ] /\
         running_agree
           [ (("statime" : str), statime); (("inferno" : str), inferno);
             (("inferno-srt" : str), srt) ] m' = true) /\
      (if clock_offset_published e
       then clock_gauges_hold (Status.ptp_clock_offset_ns body)
                              (Status.ptp_synchronized body) m' = true
       else True) /\
      (if srt_log_readable e
       then Qeq_bool (value srt_connected [] m')
                     (of_bool (Status.srt_connected body)) = true
       else True) /\
      value system_uptime [] m' = inject_Z (system_seconds (uptime_gauged e)) /\
      value api_uptime [] m' = inject_Z (api_seconds (uptime_gauged e)) /\
      Status.uptime_seconds body = system_seconds (uptime_returned e) /\
      Status.api_uptime_seconds body = api_seconds (uptime_returned e)
  | _ => snd (get_status e w) = w
  end /\
  (forall r (label : str),
     value Metrics.packets_received label (metrics (snd (handle e r w)))
     = value Metrics.packets_received label (metrics w) /\
     value Metrics.packets_lost label (metrics (snd (handle e r w)))
     = value Metrics.packets_lost label (metrics w)).
Proof.
  split; [apply get_ptp_status_registry|].
  split; [apply get_srt_status_registry|].
  split; [apply get_network_status_registry|].
  split; [apply health_check_registry|].
  split; [apply get_services_status_registry|].
  split; [apply get_audio_output_registry|].
  split; [apply get_status_registry|].
  intros r label. apply handle_keeps_packet_counters.
Qed.

(** * Further properties of the program *)

(** ** Texts and their lines *)

Lemma splitlines_nonempty t : t <> [] -> Py.splitlines t <> [].
Proof.
  destruct t as [|c t]; [congruence|]. intros _. cbn [Py.splitlines].
  destruct (Ascii.eqb c Py.nl); [discriminate|].
  destruct (Py.splitlines t); discriminate.
Qed.

Lemma splitlines_app t1 : forall t2,
  complete t1 = true ->
  Py.splitlines (t1 ++ t2) = Py.splitlines t1 ++ Py.splitlines t2.
Proof.
  induction t1 as [|c t1 IH]; intros t2 H; [reflexivity|].
  cbn [complete] in H. cbn [app Py.splitlines].
  destruct t1 as [|d t1].
  - rewrite H. reflexivity.
  - specialize (IH t2 H). rewrite IH.
    destruct (Ascii.eqb c Py.nl); [reflexivity|].
    pose proof (splitlines_nonempty (d :: t1)) as Hne.
    destruct (Py.splitlines (d :: t1)) as [|l ls];
      [exfalso; apply Hne; [discriminate | reflexivity] | reflexivity].
Qed.



(** The last line of a file is the first line the parsers look at. *)
Lemma rev_tail_last_line before line :
  complete before = true ->
  forallb (fun c => negb (Ascii.eqb c Py.nl)) line = true ->
  exists older, rev (tail (before ++ line ++ [Py.nl])) = (line ++ [Py.nl]) :: older.
Proof.
  intros Hc Hl. unfold tail. rewrite splitlines_app by assumption.
  replace (Py.splitlines (line ++ [Py.nl])) with [line ++ [Py.nl]]
    by (symmetry; apply (splitlines_line line []); assumption).
  unfold Py.last_n. rewrite length_app. cbn [length].
  set (ls := Py.splitlines before).
  destruct (Nat.le_gt_cases (length ls + 1) 100) as [Hle | Hgt].
  - replace (length ls + 1 - 100)%nat with 0%nat by lia.
    rewrite skipn_O, rev_app_distr. cbn [rev app]. eauto.
  - rewrite skipn_app.
    replace (length ls + 1 - 100 - length ls)%nat with 0%nat by lia.
    rewrite skipn_O, rev_app_distr. cbn [rev app]. eauto.
Qed.

(** ** The matcher finds the matches of the simple patterns *)

Section Greedy.
Variable ignorecase : bool.
Context {X : Type}.

Lemma same_refl a : same ignorecase a a = true.
Proof. unfold same. destruct ignorecase; apply Ascii.eqb_refl. Qed.

Lemma lit_app p : forall t, lit ignorecase p (p ++ t) = Some t.
Proof.
  induction p as [|a p IH]; intros t; cbn [app lit]; [reflexivity|].
  now rewrite same_refl.
Qed.

Lemma exec_lit_app p t cap (k : str -> option str -> option X) :
  exec ignorecase (Lit p) (p ++ t) cap k = k t cap.
Proof. cbn [exec]. now rewrite lit_app. Qed.

Lemma exec_opt_hit r cur cap (k : str -> option str -> option X) x :
  exec ignorecase r cur cap k = Some x ->
  exec ignorecase (Opt r) cur cap k = Some x.
Proof. intros H. cbn [exec]. now rewrite H. Qed.

Lemma exec_opt_miss r cur cap (k : str -> option str -> option X) :
  exec ignorecase r cur cap k = None ->
  exec ignorecase (Opt r) cur cap k = k cur cap.
Proof. intros H. cbn [exec]. now rewrite H. Qed.

(** A repetition of a class takes the whole run of characters of the
    class when the continuation accepts what follows. *)
Lemma star_cls_greedy f (k : str -> option str -> option X) rest cap x :
  match rest with
  | c :: _ => f c = false
  | [] => True
  end ->
  k rest cap = Some x ->
  forall w fuel,
    forallb f w = true -> (length (w ++ rest) <= fuel)%nat ->
    star_loop (exec ignorecase (Cls f)) k fuel (w ++ rest) cap = Some x.
Proof.
  intros Hrest Hk. induction w as [|c w IH]; intros fuel Hw Hfuel.
  - cbn [app]. destruct fuel as [|fuel]; cbn [star_loop]; [exact Hk|].
    destruct rest as [|c rest]; cbn [exec]; [now rewrite Hk|].
    rewrite Hrest. exact Hk.
  - cbn [forallb] in Hw. apply andb_true_iff in Hw as [Hc Hw].
    cbn [app length] in *. destruct fuel as [|fuel]; [lia|].
    cbn [star_loop exec]. rewrite Hc.
    assert (Hlt : (length (w ++ rest) <? length (c :: w ++ rest))%nat = true)
      by (apply Nat.ltb_lt; cbn [length]; lia).
    rewrite Hlt. rewrite IH by (assumption || lia). reflexivity.
Qed.

Lemma exec_star_cls f (k : str -> option str -> option X) w rest cap x :
  forallb f w = true ->
  match rest with
  | c :: _ => f c = false
  | [] => True
  end ->
  k rest cap = Some x ->
  exec ignorecase (Star (Cls f)) (w ++ rest) cap k = Some x.
Proof.
  intros Hw Hrest Hk. cbn [exec]. now apply star_cls_greedy.
Qed.

Lemma exec_plus_cls f (k : str -> option str -> option X) w rest cap x :
  w <> [] -> forallb f w = true ->
  match rest with
  | c :: _ => f c = false
  | [] => True
  end ->
  k rest cap = Some x ->
  exec ignorecase (Plus (Cls f)) (w ++ rest) cap k = Some x.
Proof.
  intros Hne Hw Hrest Hk. destruct w as [|c w]; [congruence|].
  cbn [forallb] in Hw. apply andb_true_iff in Hw as [Hc Hw].
  unfold Plus. cbn [app]. change (exec ignorecase (Cat (Cls f) (Star (Cls f)))
                                    (c :: w ++ rest) cap k)
    with (if f c then exec ignorecase (Star (Cls f)) (w ++ rest) cap k
          else None).
  rewrite Hc. now apply exec_star_cls.
Qed.
End Greedy.

Lemma search_hit ignorecase r line g :
  exec ignorecase r line None (fun _ cap => Some (default [] cap)) = Some g ->
  search ignorecase r line = Some g.
Proof.
  intros H. destruct line; cbn [search]; now rewrite H.
Qed.

Lemma no_leading_digit_head rest :
  no_leading_digit rest = true ->
  match rest with
  | c :: _ => Py.is_digit c = false
  | [] => True
  end.
Proof.
  destruct rest as [|c rest]; [trivial|]. cbn [no_leading_digit].
  now intros H%negb_true_iff.
Qed.

(** The run of digits at the start of a text is what group 1 of a plus of
    digits holds. *)
Lemma exec_group_numeral ignorecase w rest cap :
  numeral w -> no_leading_digit rest = true ->
  exec ignorecase (Group (Plus digit)) (w ++ rest) cap
       (fun _ cap' => Some (default [] cap'))
  = Some w.
Proof.
  intros [Hne Hd] Hrest. cbn [exec]. unfold digit.
  apply exec_plus_cls; try assumption.
  - now apply no_leading_digit_head.
  - now rewrite firstn_consumed.
Qed.

(** What systemd prints for the restart count is read back. *)
Lemma search_nrestarts w rest :
  numeral w -> no_leading_digit rest = true ->
  search false re_nrestarts ("NRestarts=" ++ w ++ rest) = Some w.
Proof.
  intros Hw Hrest. apply search_hit. unfold re_nrestarts.
  change (exec false (Cat (Lit "NRestarts=") (Group (Plus digit)))
               ("NRestarts=" ++ w ++ rest) None
               (fun _ cap => Some (default [] cap)))
    with (exec false (Lit "NRestarts=") ("NRestarts=" ++ w ++ rest) None
               (fun t cap' => exec false (Group (Plus digit)) t cap'
                                   (fun _ cap => Some (default [] cap)))).
  rewrite exec_lit_app. now apply exec_group_numeral.
Qed.

Lemma str_of_int_signed_numeral n : signed_numeral (Py.str_of_int n).
Proof.
  destruct (Z.le_gt_cases 0 n) as [Hn | Hn].
  - left. apply str_of_nonneg. assumption.
  - right. assert (Hm : 0 <= - n) by lia.
    destruct (str_of_nonneg (- n) Hm) as [Hnum _].
    unfold Py.str_of_int in *.
    destruct (Z.ltb_spec n 0); [|lia].
    destruct (Z.ltb_spec (- n) 0); [lia|]. eauto.
Qed.

(** A report [offset: N] at the start of a line is found, with its sign. *)
Lemma search_offset_line s rest :
  signed_numeral s -> no_leading_digit rest = true ->
  search false re_offset ("offset: " ++ s ++ rest) = Some s.
Proof.
  intros Hs Hrest. apply search_hit. unfold re_offset.
  change (exec false
            (Cat (Lit "offset")
               (Cat (Plus colon_space)
                  (Group (Cat (Opt (Lit "-")) (Plus digit)))))
            ("offset: " ++ s ++ rest) None (fun _ cap => Some (default [] cap)))
    with (exec false (Lit "offset") ("offset" ++ (": " ++ s ++ rest)) None
            (fun t cap' =>
               exec false (Plus colon_space) t cap'
                 (fun t' cap'' =>
                    exec false (Group (Cat (Opt (Lit "-")) (Plus digit)))
                         t' cap'' (fun _ cap => Some (default [] cap))))).
  rewrite exec_lit_app. unfold colon_space.
  change (": " ++ s ++ rest) with ((": " : str) ++ (s ++ rest)).
  apply exec_plus_cls; [discriminate | reflexivity | |].
  - destruct Hs as [[Hne Hd] | (w & -> & _)]; [|reflexivity].
    destruct s as [|c s]; [congruence|]. cbn [app].
    cbn [forallb] in Hd. apply andb_true_iff in Hd as [Hc _].
    destruct (digit_facts c Hc) as (-> & _).
    revert Hc. destruct c as [[] [] [] [] [] [] [] []]; vm_compute;
      intros Hc; try discriminate Hc; reflexivity.
  - change (exec false (Group (Cat (Opt (Lit "-")) (Plus digit)))
                 (s ++ rest) None (fun _ cap => Some (default [] cap)))
      with (exec false (Opt (Lit "-")) (s ++ rest) None
              (fun t cap' =>
                 exec false (Plus digit) t cap'
                   (fun t' _ =>
                      Some (default []
                              (Some (firstn (length (s ++ rest) - length t')
                                            (s ++ rest))))))).
    destruct Hs as [[Hne Hd] | (w & -> & [Hne Hd])].
    + rewrite exec_opt_miss.
      * unfold digit. apply exec_plus_cls; try assumption.
        -- now apply no_leading_digit_head.
        -- now rewrite firstn_consumed.
      * destruct s as [|c s]; [congruence|]. cbn [app exec lit].
        cbn [forallb] in Hd. apply andb_true_iff in Hd as [Hc _].
        destruct (digit_facts c Hc) as (_ & Hm & _).
        change (lit false "-" (c :: s ++ rest))
          with (if Ascii.eqb "-"%char c then Some (s ++ rest) else None).
        rewrite Ascii.eqb_sym, Hm. reflexivity.
    + apply exec_opt_hit.
      change (("-"%char :: w) ++ rest) with (("-" : str) ++ (w ++ rest)).
      rewrite exec_lit_app. unfold digit.
      apply exec_plus_cls; try assumption.
      * now apply no_leading_digit_head.
      * change (("-" : str) ++ w ++ rest) with (("-"%char :: w) ++ rest).
        now rewrite firstn_consumed.
Qed.

Lemma offset_in_line_report n rest :
  no_leading_digit rest = true ->
  offset_in_line ("offset: " ++ Py.str_of_int n ++ rest) = Some n.
Proof.
  intros Hrest. unfold offset_in_line, captured.
  rewrite search_offset_line
    by (apply str_of_int_signed_numeral || assumption).
  rewrite int_str_of_int. reflexivity.
Qed.

(** ** The bounded tail *)



(** ** The clock report on the last line *)

(** X2.  When the last line of the clock log reads [offset: N], N an
    integer written in decimal whose float exists (the double nearest to N
    lies below 2^1024), followed on the line by nothing or by text that does
    not start with a digit, the parser returns exactly N and the flag
    |N| < 100000, sets the offset gauge to that float, which is N itself
    when |N| is at most 2^53, and the synchronized gauge to the flag:
    whatever the log holds before that line. *)
Theorem X2_last_clock_report_is_read_back e m before n rest f :
  complete before = true ->
  no_leading_digit rest = true ->
  forallb (fun c => negb (Ascii.eqb c Py.nl)) rest = true ->
  Py.float_of_int n = Ok f ->
  statime_log e
  = Content (before ++ ("offset: " ++ Py.str_of_int n ++ rest) ++ [Py.nl]) ->
  Ptp.clock_offset_ns (fst (parse_statime_log e m)) = n /\
  Ptp.synchronized (fst (parse_statime_log e m)) = (Z.abs n <? 100000) /\
  value ptp_clock_offset [] (snd (parse_statime_log e m)) = f /\
  value ptp_synchronized [] (snd (parse_statime_log e m))
  = of_bool (Z.abs n <? 100000) /\
  (Z.abs n <= 2 ^ 53 -> f = inject_Z n).
Proof.
  intros Hc Hrest Hnl Hf Hlog.
  assert (Hline : forallb (fun c => negb (Ascii.eqb c Py.nl))
                          ("offset: " ++ Py.str_of_int n ++ rest) = true).
  { rewrite !forallb_app. rewrite Hnl, andb_true_r.
    apply andb_true_iff. split; [reflexivity|].
    generalize (str_of_int_plain n). apply forallb_impl. intros c Hp.
    destruct (plain_facts c Hp) as (_ & -> & _). reflexivity. }
  destruct (rev_tail_last_line before _ Hc Hline) as [older Hrev].
  pose proof (parse_statime_log_scan e m _ Hlog) as H. cbv zeta in H.
  unfold most_recent in H. rewrite Hrev in H. cbn [first_match] in H.
  assert (Hoff : offset_in_line
                   (("offset: " ++ Py.str_of_int n ++ rest) ++ [Py.nl])
                 = Some n).
  { rewrite <- !app_assoc. apply offset_in_line_report.
    destruct rest as [|c rest]; [reflexivity | exact Hrest]. }
  rewrite Hoff in H. destruct H as (Ho & Hs & Hm).
  rewrite Ho, Hs, Hm. unfold clock_published. rewrite Hf.
  split; [reflexivity|]. split; [reflexivity|]. split; [|split].
  - rewrite value_set_ne by names_differ. apply value_set_eq.
  - apply value_set_eq.
  - intros Hsmall. rewrite float_of_int_exact in Hf by assumption.
    now injection Hf as <-.
Qed.

(** An offset of 2^53 + 1 nanoseconds is returned as it is, and reaches
    the gauge as 2^53. *)
Lemma X2_last_clock_report_is_read_back_witness :
  let e := clock_at' "clock offset: 12 ns" 9007199254740993 " ns" in
  Ptp.clock_offset_ns (fst (parse_statime_log e ∅)) = 9007199254740993 /\
  Ptp.synchronized (fst (parse_statime_log e ∅))
  = (Z.abs 9007199254740993 <? 100000) /\
  value ptp_clock_offset [] (snd (parse_statime_log e ∅))
  = inject_Z 9007199254740992 /\
  value ptp_synchronized [] (snd (parse_statime_log e ∅))
  = of_bool (Z.abs 9007199254740993 <? 100000) /\
  (Z.abs 9007199254740993 <= 2 ^ 53 ->
   inject_Z 9007199254740992 = inject_Z 9007199254740993).
Proof.
  intros e.
  apply (X2_last_clock_report_is_read_back e ∅
           (text_of [ ("clock offset: 12 ns" : str) ]) 9007199254740993
           " ns" (inject_Z 9007199254740992));
    reflexivity.
Defined.

(** ** What the parsers can return *)

Lemma for_each_invariant {A S} (P : S -> Prop) (body : A -> S -> flow S) :
  (forall x s, P s -> P (after_try (body x s))) ->
  forall l s, P s -> P (after_try (for_each body l s)).
Proof.
  intros Hbody. induction l as [|x l IH]; intros s Hs; [exact Hs|].
  cbn [for_each]. specialize (Hbody x s Hs).
  destruct (body x s) as [s'|s'|s']; cbn [after_try] in *;
    [now apply IH | exact Hbody | exact Hbody].
Qed.

(** X3.  Whatever the clock log holds, the state the parser returns is one
    of unknown, slave and master, and master_ip is never filled in. *)
Theorem X3_clock_state_is_one_of_three e m :
  clock_state (Ptp.state (fst (parse_statime_log e m))) /\
  Ptp.master_ip (fst (parse_statime_log e m)) = None.
Proof.
  set (P := fun s : Ptp.status * registry =>
              clock_state (Ptp.state (fst s)) /\ Ptp.master_ip (fst s) = None).
  assert (Hinit : P (Ptp.initial, m)) by (split; [left|]; reflexivity).
  change (P (parse_statime_log e m)). unfold parse_statime_log.
  destruct (statime_log e) as [| |text]; try exact Hinit.
  apply for_each_invariant; [|exact Hinit].
  intros line [st m0] [Hst Hip]. unfold statime_line.
  destruct (if Py.contains "offset" (Py.lower line)
            then search false re_offset line else None) as [g|].
  - destruct (Py.int g) as [offset|]; [|split; assumption].
    destruct (set_int ptp_clock_offset [] offset m0); split; assumption.
  - repeat match goal with
      | |- context [if ?b then _ else _] => destruct b
      end; (split; [|exact Hip]);
      first [exact Hst | right; left; reflexivity | right; right; reflexivity].
Qed.

Lemma captured_float_nonneg cond m v :
  (forall g, m = Some g -> decimal g) ->
  captured cond m Py.float = Some v -> (0 <= v)%Q.
Proof.
  intros Hm. unfold captured. destruct cond; [|discriminate].
  destruct m as [g|]; [|discriminate].
  destruct (float_decimal g (Hm g eq_refl)) as (q & -> & Hq).
  intros H. injection H as <-. exact Hq.
Qed.

(** X4.  Whatever the bridge log holds, the channel count, the sample
    rate and the two packet counts returned are natural numbers, and
    tx_channels is 0: no line ever fills it in. *)
Theorem X4_audio_status_fields_are_natural e :
  0 <= Audio.rx_channels (parse_inferno_log e) /\
  0 <= Audio.sample_rate (parse_inferno_log e) /\
  0 <= Audio.packets_received (parse_inferno_log e) /\
  0 <= Audio.packets_lost (parse_inferno_log e) /\
  Audio.tx_channels (parse_inferno_log e) = 0.
Proof.
  set (P := fun s : Audio.status =>
              0 <= Audio.rx_channels s /\ 0 <= Audio.sample_rate s /\
              0 <= Audio.packets_received s /\ 0 <= Audio.packets_lost s /\
              Audio.tx_channels s = 0).
  assert (Hinit : P Audio.initial) by (unfold P; simpl; lia).
  change (P (parse_inferno_log e)). unfold parse_inferno_log.
  destruct (inferno_log e) as [| |text]; try exact Hinit.
  apply for_each_invariant; [|exact Hinit].
  intros line s (Hrx & Hrate & Hrecv & Hlost & Htx).
  rewrite inferno_line_continues. cbn [after_try].
  destruct (inferno_update_fields line s) as (Erx & Erate & Erecv & Elost & Etx).
  unfold P. rewrite Erx, Erate, Erecv, Elost, Etx.
  assert (Hcand : forall (f : str -> option Z) v0 cond ic r,
            In r [re_nrestarts; re_channels; re_hz; re_received; re_lost] ->
            f line = captured cond (search ic r line) Py.int ->
            0 <= v0 -> 0 <= from_option id v0 (f line)).
  { intros f v0 cond ic r Hr Hf Hv0. destruct (f line) as [v|] eqn:E;
      [|exact Hv0]. cbn [from_option]. unfold id.
    symmetry in Hf. apply captured_int_nonneg in Hf; [exact Hf|].
    intros g. now apply search_numeral. }
  repeat split; try exact Htx.
  - eapply Hcand; [| reflexivity | exact Hrx]. simpl. auto.
  - eapply Hcand; [| reflexivity | exact Hrate]. simpl. auto.
  - eapply Hcand; [| reflexivity | exact Hrecv]. simpl. auto 6.
  - eapply Hcand; [| reflexivity | exact Hlost]. simpl. auto 6.
Qed.

Lemma Forall2_eqb_eq (p w : str) :
  Forall2 (fun a b => Ascii.eqb a b = true) p w -> w = p.
Proof.
  induction 1 as [|a b p w Hab _ IH]; [reflexivity|].
  apply Ascii.eqb_eq in Hab. now subst.
Qed.

(** What the URI pattern captures. *)
Lemma search_srt_uri line g :
  search false re_srt_uri line = Some g -> srt_uri g.
Proof.
  intros H. apply search_sound in H.
  destruct H as (before & w & rest & cap & _ & Hm & ->).
  unfold re_srt_uri in Hm. inv Hm.
  match goal with
  | H : matches _ (Cat _ _) _ _ _ |- _ => inv H
  end.
  match goal with
  | Hl : matches _ (Lit _) ?a _ _, Hp : matches _ (Plus uri_char) ?b _ _ |- _ =>
      inv Hl; apply matches_plus_cls in Hp; destruct Hp as [Hne Hcls];
      exists b
  end.
  match goal with
  | Hf : Forall2 _ _ _ |- _ => apply Forall2_eqb_eq in Hf; subst
  end.
  cbn [default from_option id]. auto.
Qed.

(** X5.  Whatever the stream log holds: the bitrate and the loss
    percentage returned are not negative; a destination, when there is one,
    is [srt://] followed by at least one character that is neither white
    space nor a quote; and connected is true only together with a
    destination. *)
Theorem X5_stream_status_is_well_formed e m :
  (0 <= Srt.bitrate_kbps (fst (parse_srt_log e m)))%Q /\
  (0 <= Srt.packet_loss_pct (fst (parse_srt_log e m)))%Q /\
  (forall u, Srt.destination (fst (parse_srt_log e m)) = Some u -> srt_uri u) /\
  (Srt.connected (fst (parse_srt_log e m)) = true ->
   Srt.destination (fst (parse_srt_log e m)) <> None).
Proof.
  set (P := fun s : Srt.status =>
              (0 <= Srt.bitrate_kbps s)%Q /\ (0 <= Srt.packet_loss_pct s)%Q /\
              (forall u, Srt.destination s = Some u -> srt_uri u) /\
              (Srt.connected s = true -> Srt.destination s <> None)).
  assert (Hinit : P Srt.initial).
  { unfold P. cbn. repeat split; try discriminate. }
  assert (Hloop : forall lines,
            P (after_try (for_each srt_line lines Srt.initial))).
  { intros lines. apply for_each_invariant; [|exact Hinit].
    intros line s (Hb & Hl & Hd & Hc).
    rewrite srt_line_continues. cbn [after_try].
    destruct (srt_update_fields line s) as (Ed & Ec & Eb & El & _).
    unfold P. rewrite Ed, Ec, Eb, El. repeat split.
    - destruct (bitrate_in_line line) as [v|] eqn:E; [|exact Hb].
      cbn [from_option]. unfold id. unfold bitrate_in_line in E.
      apply captured_float_nonneg in E; [exact E|].
      intros g. apply search_decimal. simpl. auto.
    - destruct (loss_in_line line) as [v|] eqn:E; [|exact Hl].
      cbn [from_option]. unfold id. unfold loss_in_line in E.
      apply captured_float_nonneg in E; [exact E|].
      intros g. apply search_decimal. simpl. auto.
    - intros u. destruct (uri_in_line line) as [v|] eqn:E;
        cbn [from_option]; [|apply Hd].
      intros Hu. injection Hu as <-. unfold uri_in_line, captured in E.
      destruct (Py.contains "srt://" (Py.lower line)); [|discriminate].
      destruct (search false re_srt_uri line) as [g|] eqn:Es; [|discriminate].
      injection E as <-. now apply search_srt_uri in Es.
    - destruct (uri_in_line line); cbn [from_option];
        [discriminate | exact Hc]. }
  change (P (fst (parse_srt_log e m))). unfold parse_srt_log.
  destruct (srt_log e) as [| |text]; try exact Hinit.
  specialize (Hloop (rev (tail text))).
  destruct (for_each srt_line (rev (tail text)) Srt.initial);
    exact Hloop.
Qed.

(** ** The service prober *)

(** X6.  When systemd answers the restart-count query with the line
    [NRestarts=N], N a natural number, the prober returns N. *)
Theorem X6_restart_count_is_read_back e service_name w n returncode rest :
  0 <= n ->
  no_leading_digit rest = true ->
  systemctl e (show_restarts service_name)
  = Ok {| returncode := returncode;
          stdout := "NRestarts=" ++ Py.str_of_int n ++ rest |} ->
  fst (get_service_restart_count e service_name w) = n.
Proof.
  intros Hn Hrest Hout. unfold get_service_restart_count, run.
  unfold show_restarts in Hout. rewrite Hout. cbn [stdout].
  destruct (str_of_nonneg n Hn) as [Hnum _].
  rewrite (search_nrestarts _ _ Hnum Hrest), int_str_of_int. reflexivity.
Qed.

Lemma X6_restart_count_is_read_back_witness :
  fst (get_service_restart_count (restarted_times 1207) "inferno-srt" fresh)
  = 1207.
Proof.
  apply (X6_restart_count_is_read_back (restarted_times 1207) "inferno-srt"
           fresh 1207 0 [Py.nl]); [lia | reflexivity | reflexivity].
Defined.

(** X7.  The restart count returned is never negative, whatever systemd
    prints; it is 0 when the query raises (time-out, missing binary).  The
    query runs exactly one command and changes neither the registry nor the
    routing file. *)
Theorem X7_restart_count_is_natural e service_name w :
  0 <= fst (get_service_restart_count e service_name w) /\
  (forall x, systemctl e (show_restarts service_name) = Raise x ->
             fst (get_service_restart_count e service_name w) = 0) /\
  metrics (snd (get_service_restart_count e service_name w)) = metrics w /\
  audio_out_config (snd (get_service_restart_count e service_name w))
  = audio_out_config w /\
  commands (snd (get_service_restart_count e service_name w))
  = commands w ++ [show_restarts service_name].
Proof.
  unfold get_service_restart_count, run, show_restarts.
  destruct (systemctl e _) as [p|x] eqn:Hrun.
  - assert (Hnonneg : 0 <= match search false re_nrestarts (stdout p) with
                           | Some g => match Py.int g with
                                       | Ok n => n
                                       | Raise _ => 0
                                       end
                           | None => 0
                           end).
    { destruct (search false re_nrestarts (stdout p)) as [g|] eqn:Hs; [|lia].
      apply search_numeral in Hs; [|simpl; auto].
      now destruct (int_numeral g Hs) as [-> Hv]. }
    destruct (search false re_nrestarts (stdout p)) as [g|].
    + destruct (Py.int g); cbn [fst snd metrics audio_out_config commands];
        (split; [exact Hnonneg|]); (split; [discriminate|]); repeat split.
    + cbn [fst snd metrics audio_out_config commands].
      split; [lia|]. split; [discriminate|]. repeat split.
  - cbn [fst snd metrics audio_out_config commands].
    split; [lia|]. repeat split.
Qed.

Lemma check_service_status_result e service_name w :
  fst (check_service_status e service_name w) = probe_active e service_name.
Proof.
  unfold check_service_status, probe_active, run.
  now destruct (systemctl e _).
Qed.

Lemma check_service_status_files e service_name w :
  audio_out_config (snd (check_service_status e service_name w))
  = audio_out_config w.
Proof.
  unfold check_service_status, run.
  now destruct (systemctl e _).
Qed.

(** X8.  The health view always answers, also when a probe times out or
    systemctl is missing: such a service counts as down.  The system is
    reported healthy exactly when statime, inferno and inferno-srt are all
    three active, and the three flags returned are the three probes. *)
Theorem X8_healthy_iff_all_three_active e w :
  exists body,
    fst (health_check e w) = OK body /\
    Health.services body
    = [ (("statime" : str), probe_active e "statime");
        (("inferno" : str), probe_active e "inferno");
        (("srt" : str), probe_active e "inferno-srt") ] /\
    (Health.healthy body = true <->
     probe_active e "statime" = true /\ probe_active e "inferno" = true /\
     probe_active e "inferno-srt" = true).
Proof.
  unfold health_check.
  pose proof (check_service_status_result e "statime" w) as R1.
  destruct (check_service_status e "statime" w) as [b1 w1].
  pose proof (check_service_status_result e "inferno" w1) as R2.
  destruct (check_service_status e "inferno" w1) as [b2 w2].
  pose proof (check_service_status_result e "inferno-srt" w2) as R3.
  destruct (check_service_status e "inferno-srt" w2) as [b3 w3].
  cbn [fst] in *. subst b1 b2 b3.
  eexists. split; [reflexivity|]. split; [reflexivity|].
  cbn [Health.healthy forallb snd].
  rewrite !andb_true_iff. tauto.
Qed.

Lemma restart_count_nonneg e service_name w :
  0 <= fst (get_service_restart_count e service_name w).
Proof.
  unfold get_service_restart_count, run.
  destruct (systemctl e _) as [p|x]; [|simpl; lia].
  destruct (search false re_nrestarts (stdout p)) as [g|] eqn:Hs;
    [|simpl; lia].
  apply search_numeral in Hs; [|simpl; auto].
  now destruct (int_numeral g Hs) as [-> Hv].
Qed.

Lemma services_step_entry e service services w :
  exists restart_count w',
    services_step e service (services, w)
    = (services ++
       [(service,
         {| Services.running := probe_active e service;
            Services.restart_count := restart_count;
            Services.status :=
              if probe_active e service then "active" else "inactive" |})],
       w') /\
    0 <= restart_count /\
    audio_out_config w' = audio_out_config w.
Proof.
  unfold services_step.
  pose proof (check_service_status_result e service w) as R.
  pose proof (check_service_status_files e service w) as F.
  destruct (check_service_status e service w) as [is_running w1].
  pose proof (restart_count_nonneg e service w1) as Hn.
  assert (F2 : audio_out_config (snd (get_service_restart_count e service w1))
               = audio_out_config w1).
  { unfold get_service_restart_count, run.
    destruct (systemctl e _) as [p|x]; [|reflexivity].
    destruct (search false re_nrestarts (stdout p)); [|reflexivity].
    now destruct (Py.int l). }
  destruct (get_service_restart_count e service w1) as [restart_count w2].
  cbn [fst snd] in *. subst is_running. rewrite inc_zero.
  eexists. eexists. split; [reflexivity|]. split; [exact Hn|].
  cbn [audio_out_config with_metrics]. congruence.
Qed.

(** X9.  The services view always answers with three entries, statime,
    inferno and inferno-srt in this order.  In each entry running is the
    probe of the service, status is active when it runs and inactive when
    it does not, and the restart count is a natural number.  The routing
    file is left as it was. *)
Theorem X9_services_view_entries e w :
  exists r1 r2 r3,
    let entry := fun name restart_count =>
      (name,
       {| Services.running := probe_active e name;
          Services.restart_count := restart_count;
          Services.status :=
            if probe_active e name then ("active" : str)
            else ("inactive" : str) |}) in
    fst (get_services_status e w)
    = OK [ entry ("statime" : str) r1; entry ("inferno" : str) r2;
           entry ("inferno-srt" : str) r3 ] /\
    0 <= r1 /\ 0 <= r2 /\ 0 <= r3 /\
    audio_out_config (snd (get_services_status e w)) = audio_out_config w.
Proof.
  unfold get_services_status. cbn [fold_left].
  destruct (services_step_entry e "statime" [] w)
    as (r1 & w1 & -> & H1 & F1).
  destruct (services_step_entry e "inferno"
              ([] ++ [(("statime" : str),
                       {| Services.running := probe_active e "statime";
                          Services.restart_count := r1;
                          Services.status :=
                            if probe_active e "statime"
                            then "active" else "inactive" |})]) w1)
    as (r2 & w2 & -> & H2 & F2).
  match goal with
  | |- context [services_step e ?name (?acc, w2)] =>
      destruct (services_step_entry e name acc w2)
        as (r3 & w3 & -> & H3 & F3)
  end.
  exists r1, r2, r3. cbv zeta. cbn [fst snd app].
  split; [reflexivity|]. repeat split; try assumption. congruence.
Qed.

(** ** The config store *)

Lemma plain_not_space w :
  forallb plain w = true ->
  forallb (fun c => negb (Py.is_space c)) w = true.
Proof.
  apply forallb_impl. intros c Hc.
  destruct (plain_facts c Hc) as (-> & _). reflexivity.
Qed.

Lemma plain_no_newline w :
  forallb plain w = true ->
  forallb (fun c => negb (Ascii.eqb c Py.nl)) w = true.
Proof.
  apply forallb_impl. intros c Hc.
  destruct (plain_facts c Hc) as (_ & -> & _). reflexivity.
Qed.

Lemma plain_no_equals w :
  forallb plain w = true ->
  forallb (fun c => negb (Ascii.eqb c "=")) w = true.
Proof.
  apply forallb_impl. intros c Hc.
  destruct (plain_facts c Hc) as (_ & _ & -> & _). reflexivity.
Qed.

Lemma lstrip_blanks n w :
  Py.lstrip_by Py.is_space (blanks n ++ w) = Py.lstrip_by Py.is_space w.
Proof.
  induction n as [|n IH]; [reflexivity|].
  cbn [blanks repeat app]. rewrite lstrip_by_skip by reflexivity. exact IH.
Qed.

Lemma rev_blanks n : rev (blanks n) = blanks n.
Proof.
  unfold blanks. induction n as [|n IH]; [reflexivity|].
  cbn [repeat rev]. rewrite IH. clear IH.
  induction n as [|n IH]; [reflexivity|].
  cbn [repeat app]. now rewrite IH.
Qed.

(** Blanks around a word are stripped. *)
Lemma strip_word n1 w n2 :
  forallb plain w = true ->
  Py.strip (blanks n1 ++ w ++ blanks n2) = w.
Proof.
  intros Hw. pose proof (plain_not_space w Hw) as Hs.
  unfold Py.strip, Py.strip_by. rewrite lstrip_blanks.
  destruct w as [|c w].
  - cbn [app]. rewrite <- (app_nil_r (blanks n2)), lstrip_blanks.
    reflexivity.
  - pose proof Hs as Hc. cbn [forallb] in Hc.
    apply andb_true_iff in Hc as [Hc _]. apply negb_true_iff in Hc.
    cbn [app]. rewrite (lstrip_by_stop _ _ _ Hc).
    change (c :: w ++ blanks n2) with ((c :: w) ++ blanks n2).
    rewrite rev_app_distr, rev_blanks, lstrip_blanks.
    rewrite lstrip_by_id; [apply rev_involutive|].
    rewrite forallb_forall in *. intros x Hx. apply Hs. now apply in_rev.
Qed.

Lemma split1_at sep k r :
  forallb (fun c => negb (Ascii.eqb c sep)) k = true ->
  Py.split1 sep (k ++ sep :: r) = (k, r).
Proof.
  induction k as [|c k IH]; intros H.
  - cbn [app Py.split1]. now rewrite Ascii.eqb_refl.
  - cbn [forallb] in H. apply andb_true_iff in H as [Hc Hk].
    cbn [app Py.split1]. apply negb_true_iff in Hc.
    rewrite Hc, IH by assumption. reflexivity.
Qed.

Lemma contains_here c k r : Py.contains [c] (k ++ c :: r) = true.
Proof.
  induction k as [|a k IH].
  - cbn [app Py.contains Py.startswith]. now rewrite Ascii.eqb_refl.
  - cbn [app Py.contains]. rewrite IH. apply orb_true_r.
Qed.

Lemma blanks_no_equals n :
  forallb (fun c => negb (Ascii.eqb c "=")) (blanks n) = true.
Proof. induction n as [|n IH]; [reflexivity | exact IH]. Qed.

Lemma load_config_section_line sec cfg cur :
  load_config_line (section_line sec) (cfg, cur) = (<[sec := ∅]> cfg, Some sec).
Proof.
  unfold load_config_line, section_line.
  change (("[" : str) ++ sec ++ "]" ++ [Py.nl])
    with ("["%char :: sec ++ ["]"%char; Py.nl]).
  rewrite strip_line by reflexivity.
  unfold str_eqb. rewrite bool_decide_eq_false_2 by discriminate.
  change (Py.startswith "#" ("["%char :: sec ++ ["]"%char])) with false.
  change (Py.startswith "[" ("["%char :: sec ++ ["]"%char])) with true.
  cbn [orb andb].
  assert (Hend : Py.endswith "]" ("["%char :: sec ++ ["]"%char]) = true).
  { unfold Py.endswith. cbn [rev]. rewrite rev_app_distr. reflexivity. }
  rewrite Hend. unfold Py.slice_1_m1. cbn [tl].
  now rewrite removelast_last.
Qed.

Lemma load_config_key_line key n1 n2 value cfg sec :
  forallb plain key = true -> key_start key = true ->
  forallb plain value = true -> value <> [] -> sec <> [] ->
  load_config_line (key_line key n1 n2 value) (cfg, Some sec)
  = (<[sec := <[key := value]> (default ∅ (cfg !! sec))]> cfg, Some sec).
Proof.
  intros Hk Hstart Hv Hvne Hsec.
  destruct key as [|c k]; [discriminate|].
  destruct (exists_last Hvne) as (v & d & ->).
  assert (Hc : Py.is_space c = false).
  { cbn [forallb] in Hk. apply andb_true_iff in Hk as [Hc _].
    now destruct (plain_facts c Hc). }
  assert (Hd : Py.is_space d = false).
  { rewrite forallb_app in Hv. apply andb_true_iff in Hv as [_ Hd].
    cbn [forallb] in Hd. rewrite andb_true_r in Hd.
    now destruct (plain_facts d Hd). }
  unfold load_config_line, key_line.
  replace ((c :: k) ++ blanks n1 ++ "=" ++ blanks n2 ++ (v ++ [d]) ++ [Py.nl])
    with (c :: (k ++ blanks n1 ++ "=" ++ blanks n2 ++ v) ++ [d; Py.nl])
    by (cbn [app]; rewrite <- !app_assoc; reflexivity).
  rewrite strip_line by assumption.
  unfold str_eqb at 1. rewrite bool_decide_eq_false_2 by discriminate.
  cbn [key_start] in Hstart. apply andb_true_iff in Hstart as [Hh Hb].
  apply negb_true_iff in Hh, Hb.
  assert (H1 : Py.startswith "#"
                 (c :: (k ++ blanks n1 ++ "=" ++ blanks n2 ++ v) ++ [d])
               = false).
  { change (Py.startswith "#" (c :: ?t))
      with (Ascii.eqb "#"%char c && true).
    now rewrite Ascii.eqb_sym, Hh. }
  assert (H2 : Py.startswith "["
                 (c :: (k ++ blanks n1 ++ "=" ++ blanks n2 ++ v) ++ [d])
               = false).
  { change (Py.startswith "[" (c :: ?t))
      with (Ascii.eqb "["%char c && true).
    now rewrite Ascii.eqb_sym, Hb. }
  rewrite H1, H2. cbn [orb andb].
  replace (c :: (k ++ blanks n1 ++ "=" ++ blanks n2 ++ v) ++ [d])
    with (((c :: k) ++ blanks n1) ++ "="%char :: (blanks n2 ++ v ++ [d]))
    by (cbn [app]; rewrite <- !app_assoc; reflexivity).
  change (Py.contains "=") with (Py.contains ["="%char]).
  rewrite contains_here.
  unfold str_eqb. rewrite bool_decide_eq_false_2 by assumption.
  cbn [negb andb].
  rewrite split1_at
    by (rewrite forallb_app, (plain_no_equals _ Hk), blanks_no_equals;
        reflexivity).
  change ((c :: k) ++ blanks n1) with (blanks 0 ++ (c :: k) ++ blanks n1).
  rewrite (strip_word 0 (c :: k) n1 Hk).
  replace (blanks n2 ++ v ++ [d]) with (blanks n2 ++ (v ++ [d]) ++ blanks 0)
    by (cbn [blanks repeat]; now rewrite app_nil_r).
  rewrite (strip_word n2 (v ++ [d]) 0 Hv). reflexivity.
Qed.

Lemma section_line_splits sec rest :
  forallb (fun c => negb (Ascii.eqb c Py.nl)) sec = true ->
  Py.splitlines (section_line sec ++ rest)
  = section_line sec :: Py.splitlines rest.
Proof.
  intros Hs. unfold section_line.
  replace ((("[" : str) ++ sec ++ "]" ++ [Py.nl]) ++ rest)
    with ((("[" : str) ++ sec ++ "]") ++ Py.nl :: rest)
    by (rewrite <- !app_assoc; reflexivity).
  rewrite splitlines_line.
  - now rewrite <- !app_assoc.
  - rewrite !forallb_app, Hs. reflexivity.
Qed.

Lemma blanks_no_newline n :
  forallb (fun c => negb (Ascii.eqb c Py.nl)) (blanks n) = true.
Proof. induction n as [|n IH]; [reflexivity | exact IH]. Qed.

Lemma key_line_splits key n1 n2 value rest :
  forallb plain key = true -> forallb plain value = true ->
  Py.splitlines (key_line key n1 n2 value ++ rest)
  = key_line key n1 n2 value :: Py.splitlines rest.
Proof.
  intros Hk Hv. unfold key_line.
  replace ((key ++ blanks n1 ++ "=" ++ blanks n2 ++ value ++ [Py.nl]) ++ rest)
    with ((key ++ blanks n1 ++ "=" ++ blanks n2 ++ value) ++ Py.nl :: rest)
    by (rewrite <- !app_assoc; reflexivity).
  rewrite splitlines_line.
  - now rewrite <- !app_assoc.
  - rewrite !forallb_app, (plain_no_newline _ Hk), (plain_no_newline _ Hv),
      !blanks_no_newline. reflexivity.
Qed.

Lemma config_after_section_key before sec key n1 n2 value :
  complete before = true ->
  forallb (fun c => negb (Ascii.eqb c Py.nl)) sec = true -> sec <> [] ->
  forallb plain key = true -> key_start key = true ->
  forallb plain value = true -> value <> [] ->
  config_after (before ++ section_line sec ++ key_line key n1 n2 value)
  = (<[sec := <[key := value]> ∅]> (fst (config_after before)), Some sec).
Proof.
  intros Hb Hs Hsne Hk Hstart Hv Hvne. unfold config_after.
  rewrite splitlines_app by assumption.
  rewrite section_line_splits by assumption.
  rewrite <- (app_nil_r (key_line key n1 n2 value)).
  rewrite key_line_splits by assumption.
  rewrite fold_left_app. cbn [fold_left Py.splitlines].
  destruct (fold_left _ (Py.splitlines before) (∅, None)) as [cfg cur].
  rewrite load_config_section_line.
  rewrite load_config_key_line by assumption.
  rewrite lookup_insert_eq. cbn [default fst].
  now rewrite insert_insert_eq.
Qed.

(** X10. In the installation file a section header followed by a line
    [key = value] (any number of blanks around the equals sign) leaves the
    section with that key alone: the key is looked up with its stripped
    value, every other key of the section falls back to the default, also
    the keys an earlier header of the same name had collected, and the other
    sections are as the text before left them. *)
Theorem X10_header_restarts_its_section (e : env) (before sec key value : str)
    (n1 n2 : nat) :
  complete before = true ->
  forallb (fun c => negb (Ascii.eqb c Py.nl)) sec = true -> sec <> [] ->
  forallb plain key = true -> key_start key = true ->
  forallb plain value = true -> value <> [] ->
  config_file e
  = Content (before ++ section_line sec ++ key_line key n1 n2 value) ->
  exists cfg : config,
    load_config e = Ok cfg /\
    (forall dflt, config_get cfg sec key dflt = value) /\
    (forall other dflt, other <> key -> config_get cfg sec other dflt = dflt) /\
    (forall sec', sec' <> sec -> cfg !! sec' = fst (config_after before) !! sec').
Proof.
  intros Hb Hs Hsne Hk Hstart Hv Hvne Hfile.
  exists (<[sec := <[key := value]> ∅]> (fst (config_after before))).
  split; [|split; [|split]].
  - unfold load_config. rewrite Hfile.
    change (fold_left _ (Py.splitlines ?t) (∅, None)) with (config_after t).
    now rewrite config_after_section_key.
  - intros dflt. unfold config_get.
    rewrite lookup_insert_eq. cbn [default from_option id].
    now rewrite lookup_insert_eq.
  - intros other dflt Hne. unfold config_get.
    rewrite lookup_insert_eq. cbn [default from_option id].
    rewrite lookup_insert_ne by congruence.
    now rewrite lookup_empty.
  - intros sec' Hne. now rewrite lookup_insert_ne by congruence.
Qed.

Lemma X10_header_restarts_its_section_witness :
  exists cfg : config,
    load_config installation = Ok cfg /\
    (forall dflt, config_get cfg "inferno" "rx_channels" dflt = "16") /\
    (forall other dflt, other <> ("rx_channels" : str) ->
                        config_get cfg "inferno" other dflt = dflt) /\
    (forall sec', sec' <> ("inferno" : str) ->
       cfg !! sec'
       = fst (config_after (text_of [ ("# bridge" : str); ("[inferno]" : str);
                                      ("rx_channels = 2" : str);
                                      ("device_name=old" : str) ])) !! sec').
Proof.
  apply (X10_header_restarts_its_section installation
           (text_of [ ("# bridge" : str); ("[inferno]" : str);
                      ("rx_channels = 2" : str); ("device_name=old" : str) ])
           "inferno" "rx_channels" "16" 1 2);
    try reflexivity; discriminate.
Defined.

Lemma load_config_line_outside line :
  is_header line = false ->
  load_config_line line (∅, None) = (∅, None).
Proof.
  intros H. unfold load_config_line. unfold is_header in H. rewrite H.
  now destruct (str_eqb (Py.strip line) [] || Py.startswith "#" (Py.strip line)).
Qed.

Lemma config_after_no_header (lines : list str) :
  forallb (fun line => negb (is_header line)) lines = true ->
  fold_left (fun acc line => load_config_line line acc) lines (∅, None)
  = (∅, None).
Proof.
  induction lines as [|line lines IH]; intros H; [reflexivity|].
  cbn [forallb] in H. apply andb_true_iff in H as [Hl H].
  apply negb_true_iff in Hl. cbn [fold_left].
  rewrite load_config_line_outside by assumption. now apply IH.
Qed.

(** X11. Keys written before the first section header are dropped: an
    installation file none of whose lines is a header loads as the empty
    mapping, so every lookup gives its default and the channel count is the
    built-in 2, whatever the file says. *)
Theorem X11_keys_outside_a_section_are_dropped (e : env) (text : str) :
  config_file e = Content text ->
  forallb (fun line => negb (is_header line)) (Py.splitlines text) = true ->
  load_config e = Ok ∅ /\
  (forall cfg, load_config e = Ok cfg ->
     forall sec key dflt, config_get cfg sec key dflt = dflt) /\
  live_rx_channels e = Ok 2.
Proof.
  intros Hfile Hlines.
  assert (Hload : load_config e = Ok ∅).
  { unfold load_config. rewrite Hfile.
    now rewrite config_after_no_header. }
  split; [exact Hload|split].
  - intros cfg Hcfg sec key dflt. rewrite Hload in Hcfg.
    injection Hcfg as <-. unfold config_get.
    rewrite lookup_empty. cbn [default]. now rewrite lookup_empty.
  - unfold live_rx_channels. rewrite Hload. reflexivity.
Qed.

Lemma X11_keys_outside_a_section_are_dropped_witness :
  load_config flat_installation = Ok ∅ /\
  (forall cfg, load_config flat_installation = Ok cfg ->
     forall sec key dflt, config_get cfg sec key dflt = dflt) /\
  live_rx_channels flat_installation = Ok 2.
Proof.
  apply (X11_keys_outside_a_section_are_dropped flat_installation
           (text_of [ ("# bridge" : str); ("rx_channels = 16" : str);
                      ("device_name = stage" : str) ]));
    reflexivity.
Defined.

(** ** The audio view *)









(** ** The routing endpoints *)

(** A request that passes the three checks, on a writable appliance: the
    file is written, the command is run, and the answer depends on the
    command alone. *)
Lemma set_audio_output_valid e request w rx :
  valid_device (device request) = true ->
  live_rx_channels e = Ok rx ->
  1 <= stereo_pair request <= max_pairs rx ->
  audio_out_writable e = true ->
  set_audio_output e request w
  = (match systemctl e (control_command (set_verb (enabled request))) with
     | Ok p =>
         if returncode p =? 0
         then OK {| OutputSet.success := true;
                    OutputSet.message := "Audio output configuration updated";
                    OutputSet.enabled := enabled request;
                    OutputSet.device := device request;
                    OutputSet.stereo_pair := stereo_pair request;
                    OutputSet.channels :=
                      Py.str_of_int ((stereo_pair request - 1) * 2) ++ "-"
                      ++ Py.str_of_int ((stereo_pair request - 1) * 2 + 1) |}
         else HTTPException 500 "Failed to control service"
     | Raise CalledProcessError =>
         HTTPException 500 "Failed to control service"
     | Raise TimeoutExpired => HTTPException 500 "Service control timeout"
     | Raise x => Unhandled x
     end, routed request rx w).
Proof.
  intros Hd Hrx [Hlo Hhi] Hw. unfold set_audio_output.
  rewrite Hd. cbn [negb].
  destruct (Z.ltb_spec (stereo_pair request) 1) as [|_]; [lia|].
  rewrite Hrx.
  destruct (Z.ltb_spec (max_pairs rx) (stereo_pair request)) as [|_]; [lia|].
  rewrite write_audio_output_config_written by assumption. cbn [negb].
  unfold run_checked, run, routed, control_command, set_verb.
  cbn [metrics audio_out_config commands].
  destruct (systemctl e _) as [p|x].
  - cbn [mbind outcome_bind]. now destruct (returncode p =? 0).
  - cbn [mbind outcome_bind]. now destruct x.
Qed.

Lemma get_audio_output_body e w :
  exists running,
    fst (get_audio_output e w)
    = OK {| OutputStatus.enabled := Out.enabled (read_audio_output_config w);
            OutputStatus.device := Out.device (read_audio_output_config w);
            OutputStatus.stereo_pair :=
              Out.stereo_pair (read_audio_output_config w);
            OutputStatus.channel_l :=
              Out.channel_l (read_audio_output_config w);
            OutputStatus.channel_r :=
              Out.channel_r (read_audio_output_config w);
            OutputStatus.service_running := running |}.
Proof.
  unfold get_audio_output.
  destruct (check_service_status e "inferno-audio-out" w) as [running w1].
  now exists running.
Qed.

Lemma read_routed request rx w :
  valid_device (device request) = true ->
  read_audio_output_config (routed request rx w)
  = {| Out.enabled := enabled request; Out.device := device request;
       Out.stereo_pair := stereo_pair request;
       Out.channel_l := (stereo_pair request - 1) * 2;
       Out.channel_r := (stereo_pair request - 1) * 2 + 1;
       Out.rx_channels := rx |}.
Proof.
  intros Hd. unfold read_audio_output_config, routed.
  cbn [audio_out_config]. now rewrite read_written_text.
Qed.

(** X13.  A POST /audio/output with a valid device and a stereo pair
    between 1 and the number of pairs of the installation, on an appliance
    where the file can be written and the control command succeeds, is
    answered with the values of the request and the channel range; it writes
    the routing file, runs restart (stop when disabled) on the output
    service and leaves the registry alone; a GET /audio/output after it
    reports the enabled flag, the device and the pair of the request, with
    the channels 2 (pair - 1) and 2 (pair - 1) + 1. *)
Theorem X13_accepted_routing_is_read_back (e e' : env) (w : world)
    (request : AudioOutputConfig) (rx : Z) :
  valid_device (device request) = true ->
  live_rx_channels e = Ok rx ->
  1 <= stereo_pair request <= max_pairs rx ->
  audio_out_writable e = true ->
  succeeded (systemctl e (control_command (set_verb (enabled request)))) = true ->
  exists body,
    set_audio_output e request w = (OK body, routed request rx w) /\
    OutputSet.success body = true /\
    OutputSet.enabled body = enabled request /\
    OutputSet.device body = device request /\
    OutputSet.stereo_pair body = stereo_pair request /\
    OutputSet.channels body
    = Py.str_of_int (2 * (stereo_pair request - 1)) ++ "-"
      ++ Py.str_of_int (2 * (stereo_pair request - 1) + 1) /\
    exists status,
      fst (get_audio_output e' (routed request rx w)) = OK status /\
      OutputStatus.enabled status = enabled request /\
      OutputStatus.device status = device request /\
      OutputStatus.stereo_pair status = stereo_pair request /\
      OutputStatus.channel_l status = 2 * (stereo_pair request - 1) /\
      OutputStatus.channel_r status = 2 * (stereo_pair request - 1) + 1.
Proof.
  intros Hd Hrx Hpair Hw Hrun.
  rewrite (set_audio_output_valid e request w rx Hd Hrx Hpair Hw).
  unfold succeeded in Hrun.
  destruct (systemctl e _) as [p|x]; [|discriminate]. rewrite Hrun.
  eexists. split; [reflexivity|].
  cbn [OutputSet.success OutputSet.enabled OutputSet.device
       OutputSet.stereo_pair OutputSet.channels].
  split; [reflexivity|]. split; [reflexivity|]. split; [reflexivity|].
  split; [reflexivity|].
  split.
  { now rewrite (Z.mul_comm 2). }
  destruct (get_audio_output_body e' (routed request rx w)) as [running ->].
  eexists. split; [reflexivity|].
  rewrite read_routed by assumption.
  cbn [OutputStatus.enabled OutputStatus.device OutputStatus.stereo_pair
       OutputStatus.channel_l OutputStatus.channel_r
       Out.enabled Out.device Out.stereo_pair Out.channel_l Out.channel_r].
  split; [reflexivity|]. split; [reflexivity|]. split; [reflexivity|].
  split; lia.
Qed.

Lemma X13_accepted_routing_is_read_back_witness :
  let request := {| enabled := true; device := "hdmi"; stereo_pair := 3 |} in
  exists body,
    set_audio_output eight_channels request fresh
    = (OK body, routed request 8 fresh) /\
    OutputSet.success body = true /\
    OutputSet.enabled body = enabled request /\
    OutputSet.device body = device request /\
    OutputSet.stereo_pair body = stereo_pair request /\
    OutputSet.channels body
    = Py.str_of_int (2 * (stereo_pair request - 1)) ++ "-"
      ++ Py.str_of_int (2 * (stereo_pair request - 1) + 1) /\
    exists status,
      fst (get_audio_output bare (routed request 8 fresh)) = OK status /\
      OutputStatus.enabled status = enabled request /\
      OutputStatus.device status = device request /\
      OutputStatus.stereo_pair status = stereo_pair request /\
      OutputStatus.channel_l status = 2 * (stereo_pair request - 1) /\
      OutputStatus.channel_r status = 2 * (stereo_pair request - 1) + 1.
Proof.
  intros request.
  apply (X13_accepted_routing_is_read_back eight_channels bare fresh
           request 8);
    [reflexivity | reflexivity | vm_compute; split; discriminate
    | reflexivity | reflexivity].
Defined.

(** X14.  There is no rollback: when such a request passes the checks and
    the file is written, but the control command fails (it raises, times
    out or exits with a status other than 0), the answer has status 500
    while the routing file already holds the new configuration, and a
    GET /audio/output after it reports the values of the failed request. *)
Theorem X14_failed_control_keeps_the_new_file (e e' : env) (w : world)
    (request : AudioOutputConfig) (rx : Z) :
  valid_device (device request) = true ->
  live_rx_channels e = Ok rx ->
  1 <= stereo_pair request <= max_pairs rx ->
  audio_out_writable e = true ->
  succeeded (systemctl e (control_command (set_verb (enabled request))))
  = false ->
  status_code (fst (set_audio_output e request w)) = 500 /\
  snd (set_audio_output e request w) = routed request rx w /\
  audio_out_config (snd (set_audio_output e request w))
  = Content (audio_output_text (enabled request) (device request)
                               (stereo_pair request) (Some rx)) /\
  exists status,
    fst (get_audio_output e' (snd (set_audio_output e request w))) = OK status /\
    OutputStatus.enabled status = enabled request /\
    OutputStatus.device status = device request /\
    OutputStatus.stereo_pair status = stereo_pair request.
Proof.
  intros Hd Hrx Hpair Hw Hrun.
  rewrite (set_audio_output_valid e request w rx Hd Hrx Hpair Hw).
  cbn [fst snd]. split; [|split; [reflexivity|split; [reflexivity|]]].
  - unfold succeeded in Hrun.
    destruct (systemctl e _) as [p|x].
    + now rewrite Hrun.
    + now destruct x.
  - destruct (get_audio_output_body e' (routed request rx w)) as [running ->].
    eexists. split; [reflexivity|].
    rewrite read_routed by assumption.
    repeat split.
Qed.

Lemma X14_failed_control_keeps_the_new_file_witness :
  let request := {| enabled := true; device := "hdmi"; stereo_pair := 3 |} in
  status_code (fst (set_audio_output no_systemctl request fresh)) = 500 /\
  snd (set_audio_output no_systemctl request fresh) = routed request 8 fresh /\
  audio_out_config (snd (set_audio_output no_systemctl request fresh))
  = Content (audio_output_text (enabled request) (device request)
                               (stereo_pair request) (Some 8)) /\
  exists status,
    fst (get_audio_output bare (snd (set_audio_output no_systemctl request fresh)))
    = OK status /\
    OutputStatus.enabled status = enabled request /\
    OutputStatus.device status = device request /\
    OutputStatus.stereo_pair status = stereo_pair request.
Proof.
  intros request.
  apply (X14_failed_control_keeps_the_new_file no_systemctl bare fresh
           request 8);
    [reflexivity | reflexivity | vm_compute; split; discriminate
    | reflexivity | reflexivity].
Defined.



(** What the toggle endpoint does when the file can be written and the
    command succeeds. *)
Lemma toggle_audio_output_ok e w :
  audio_out_writable e = true ->
  succeeded (systemctl e (control_command
               (toggle_verb (negb (Out.enabled (read_audio_output_config w))))))
  = true ->
  toggle_audio_output e w
  = (OK {| Toggle.success := true;
           Toggle.enabled := negb (Out.enabled (read_audio_output_config w));
           Toggle.message :=
             "Audio output "
             ++ (if negb (Out.enabled (read_audio_output_config w))
                 then ("enabled" : str) else ("disabled" : str)) |},
     {| metrics := metrics w;
        audio_out_config :=
          Content (audio_output_text
                     (negb (Out.enabled (read_audio_output_config w)))
                     (Out.device (read_audio_output_config w))
                     (Out.stereo_pair (read_audio_output_config w))
                     (Some (Out.rx_channels (read_audio_output_config w))));
        commands :=
          commands w
          ++ [control_command
                (toggle_verb
                   (negb (Out.enabled (read_audio_output_config w))))] |}).
Proof.
  intros Hw Hrun. unfold toggle_audio_output.
  rewrite write_audio_output_config_written by assumption. cbn [negb].
  unfold run_checked, run.
  cbn [Out.set_enabled Out.enabled Out.device Out.stereo_pair Out.rx_channels
       metrics audio_out_config commands].
  unfold succeeded, control_command, toggle_verb in Hrun.
  destruct (systemctl e _) as [p|x]; [|discriminate].
  cbn [mbind outcome_bind]. rewrite Hrun. reflexivity.
Qed.

(** X16.  On an appliance where the file can be written and the command
    succeeds, the toggle endpoint answers with the negation of the enabled
    flag it read, rewrites the routing file from what it read with that
    flag negated, and runs start (stop when the new flag is false) on the
    output service.  When the device it read is one of the three valid
    ones, reading the new file gives the same device, stereo pair and
    channel count, the negated flag, and the channels recomputed from the
    pair; and a second toggle gives the first flag back. *)
Theorem X16_toggle_negates_the_enabled_flag (e e2 : env) (w : world) :
  audio_out_writable e = true ->
  succeeded (systemctl e (control_command
               (toggle_verb (negb (Out.enabled (read_audio_output_config w))))))
  = true ->
  let c := read_audio_output_config w in
  exists body w',
    toggle_audio_output e w = (OK body, w') /\
    Toggle.success body = true /\
    Toggle.enabled body = negb (Out.enabled c) /\
    audio_out_config w'
    = Content (audio_output_text (negb (Out.enabled c)) (Out.device c)
                 (Out.stereo_pair c) (Some (Out.rx_channels c))) /\
    commands w'
    = commands w ++ [control_command (toggle_verb (negb (Out.enabled c)))] /\
    metrics w' = metrics w /\
    (valid_device (Out.device c) = true ->
     read_audio_output_config w'
     = {| Out.enabled := negb (Out.enabled c); Out.device := Out.device c;
          Out.stereo_pair := Out.stereo_pair c;
          Out.channel_l := (Out.stereo_pair c - 1) * 2;
          Out.channel_r := (Out.stereo_pair c - 1) * 2 + 1;
          Out.rx_channels := Out.rx_channels c |} /\
     (audio_out_writable e2 = true ->
      succeeded (systemctl e2 (control_command (toggle_verb (Out.enabled c))))
      = true ->
      exists body2,
        fst (toggle_audio_output e2 w') = OK body2 /\
        Toggle.enabled body2 = Out.enabled c /\
        audio_out_config (snd (toggle_audio_output e2 w'))
        = Content (audio_output_text (Out.enabled c) (Out.device c)
                     (Out.stereo_pair c) (Some (Out.rx_channels c))))).
Proof.
  intros Hw Hrun c. subst c.
  rewrite (toggle_audio_output_ok e w Hw Hrun).
  eexists _, _. split; [reflexivity|].
  cbn [Toggle.success Toggle.enabled metrics audio_out_config commands].
  split; [reflexivity|]. split; [reflexivity|]. split; [reflexivity|].
  split; [reflexivity|]. split; [reflexivity|].
  intros Hd.
  match goal with
  | |- read_audio_output_config ?w1 = _ /\ _ =>
      assert (Hread : read_audio_output_config w1
                      = {| Out.enabled :=
                             negb (Out.enabled (read_audio_output_config w));
                           Out.device :=
                             Out.device (read_audio_output_config w);
                           Out.stereo_pair :=
                             Out.stereo_pair (read_audio_output_config w);
                           Out.channel_l :=
                             (Out.stereo_pair (read_audio_output_config w) - 1)
                             * 2;
                           Out.channel_r :=
                             (Out.stereo_pair (read_audio_output_config w) - 1)
                             * 2 + 1;
                           Out.rx_channels :=
                             Out.rx_channels (read_audio_output_config w) |})
  end.
  { unfold read_audio_output_config at 1. cbn [audio_out_config].
    now rewrite read_written_text. }
  split; [exact Hread|].
  intros Hw2 Hrun2.
  rewrite toggle_audio_output_ok.
  - rewrite Hread.
    cbn [fst snd audio_out_config Out.enabled Out.device Out.stereo_pair
         Out.rx_channels].
    rewrite negb_involutive.
    eexists. split; [reflexivity|]. split; reflexivity.
  - exact Hw2.
  - rewrite Hread. cbn [Out.enabled]. now rewrite negb_involutive.
Qed.

Lemma X16_toggle_negates_the_enabled_flag_witness :
  let c := read_audio_output_config fresh in
  exists body w',
    toggle_audio_output eight_channels fresh = (OK body, w') /\
    Toggle.success body = true /\
    Toggle.enabled body = negb (Out.enabled c) /\
    audio_out_config w'
    = Content (audio_output_text (negb (Out.enabled c)) (Out.device c)
                 (Out.stereo_pair c) (Some (Out.rx_channels c))) /\
    commands w'
    = commands fresh
      ++ [control_command (toggle_verb (negb (Out.enabled c)))] /\
    metrics w' = metrics fresh /\
    (valid_device (Out.device c) = true ->
     read_audio_output_config w'
     = {| Out.enabled := negb (Out.enabled c); Out.device := Out.device c;
          Out.stereo_pair := Out.stereo_pair c;
          Out.channel_l := (Out.stereo_pair c - 1) * 2;
          Out.channel_r := (Out.stereo_pair c - 1) * 2 + 1;
          Out.rx_channels := Out.rx_channels c |} /\
     (audio_out_writable eight_channels = true ->
      succeeded (systemctl eight_channels
                   (control_command (toggle_verb (Out.enabled c))))
      = true ->
      exists body2,
        fst (toggle_audio_output eight_channels w') = OK body2 /\
        Toggle.enabled body2 = Out.enabled c /\
        audio_out_config (snd (toggle_audio_output eight_channels w'))
        = Content (audio_output_text (Out.enabled c) (Out.device c)
                     (Out.stereo_pair c) (Some (Out.rx_channels c))))).
Proof.
  apply (X16_toggle_negates_the_enabled_flag eight_channels eight_channels
           fresh); reflexivity.
Defined.

(** The reader's loop is never left with [break]. *)
Lemma read_audio_output_line_no_break line c s :
  read_audio_output_line line c <> Break s.
Proof.
  unfold read_audio_output_line, extract.
  repeat match goal with
  | |- context [if ?b then _ else _] => destruct b
  | |- context [match ?x with Ok _ => _ | Raise _ => _ end] => destruct x
  end; discriminate.
Qed.

Lemma for_each_stops {A S} (body : A -> S -> flow S) (bad : A) l2 :
  (forall x s s', body x s <> Break s') ->
  (forall s, body bad s = Raised s) ->
  forall l1 s,
    after_try (for_each body (l1 ++ bad :: l2) s)
    = after_try (for_each body l1 s).
Proof.
  intros Hnb Hbad. induction l1 as [|x l1 IH]; intros s.
  - cbn [app for_each]. now rewrite Hbad.
  - cbn [app for_each]. destruct (body x s) as [s'|s'|s'] eqn:E.
    + apply IH.
    + now apply Hnb in E.
    + reflexivity.
Qed.

Lemma read_line_bad_number key v c :
  In key numeric_keys ->
  forallb plain v = true -> Py.int v = Raise ValueError ->
  read_audio_output_line (assignment key v) c = Raised c.
Proof.
  intros Hkey Hp Hv. unfold numeric_keys in Hkey. cbn [In] in Hkey.
  assert (Hx : forall key (store : Z -> Out.config -> Out.config),
            forallb (fun c => negb (Ascii.eqb c "=")) key = true ->
            extract true (Some (key ++ "=" ++ [Py.quote] ++ v ++ [Py.quote]))
                    quoted_int store c
            = Raised c).
  { intros k store Hk. unfold extract, quoted_int.
    rewrite quoted_value_assignment by assumption.
    change (Ok v ≫= (fun v0 => Py.int v0)) with (Py.int v).
    now rewrite Hv. }
  destruct Hkey as [<- | [<- | [<- | [<- | []]]]];
    unfold read_audio_output_line;
    rewrite strip_assignment by reflexivity; decide_startswith;
    now apply Hx.
Qed.

(** X17.  The reader gives up at the first number it cannot convert: when
    the routing file holds, after complete lines, a line that assigns to
    STEREO_PAIR, CHANNEL_L, CHANNEL_R or RX_CHANNELS a value that is not
    an integer, the configuration returned is the one of the lines before
    it; that key keeps its earlier value and every later line is ignored. *)
Theorem X17_reading_stops_at_a_bad_number (w : world)
    (before key v rest : str) :
  complete before = true ->
  In key numeric_keys ->
  forallb plain v = true ->
  Py.int v = Raise ValueError ->
  audio_out_config w = Content (before ++ assignment key v ++ rest) ->
  read_audio_output_config w
  = read_audio_output_config (with_routing (Content before) w).
Proof.
  intros Hb Hkey Hp Hv Hfile. unfold read_audio_output_config, with_routing.
  rewrite Hfile. cbn [audio_out_config].
  rewrite splitlines_app by assumption.
  rewrite splitlines_assignment.
  - apply for_each_stops.
    + intros x s s'. apply read_audio_output_line_no_break.
    + intros s. now apply read_line_bad_number.
  - unfold numeric_keys in Hkey. cbn [In] in Hkey.
    destruct Hkey as [<- | [<- | [<- | [<- | []]]]]; reflexivity.
  - assumption.
Qed.

Lemma X17_reading_stops_at_a_bad_number_witness :
  read_audio_output_config edited
  = read_audio_output_config
      (with_routing (Content (assignment "ENABLED" "true")) edited).
Proof.
  apply (X17_reading_stops_at_a_bad_number edited
           (assignment "ENABLED" "true") "STEREO_PAIR" "two"
           (assignment "DEVICE" "hdmi"));
    try reflexivity.
  unfold numeric_keys. cbn [In]. left. reflexivity.
Defined.

(** ** The stream view *)




(** ** The commands the service runs *)

Lemma only_probes_refl w : only_probes w w.
Proof.
  split; [reflexivity|]. exists []. now rewrite app_nil_r.
Qed.

Lemma only_probes_trans w1 w2 w3 :
  only_probes w1 w2 -> only_probes w2 w3 -> only_probes w1 w3.
Proof.
  intros (Hf1 & x1 & Hc1 & Hp1) (Hf2 & x2 & Hc2 & Hp2). split.
  - now rewrite Hf2.
  - exists (x1 ++ x2). split.
    + now rewrite Hc2, Hc1, app_assoc.
    + now rewrite forallb_app, Hp1, Hp2.
Qed.

Lemma only_probes_with_metrics w w' m :
  only_probes w w' -> only_probes w (with_metrics m w').
Proof. intros H. exact H. Qed.

Lemma check_service_status_probes e name w :
  only_probes w (snd (check_service_status e name w)).
Proof.
  unfold check_service_status, run.
  destruct (systemctl e _); cbn [snd]; (split; [reflexivity|]);
    eexists; (split; [reflexivity|]); reflexivity.
Qed.

Lemma get_service_restart_count_probes e name w :
  only_probes w (snd (get_service_restart_count e name w)).
Proof.
  unfold get_service_restart_count, run.
  assert (H : only_probes w
            {| metrics := metrics w; audio_out_config := audio_out_config w;
               commands :=
                 commands w
                 ++ [ [ ("systemctl" : str); ("show" : str);
                        name ++ ".service";
                        ("--property=NRestarts" : str) ] ] |}).
  { split; [reflexivity|]. eexists. split; reflexivity. }
  destruct (systemctl e _) as [p|]; [|exact H].
  destruct (search false re_nrestarts (stdout p)) as [g|]; [|exact H].
  destruct (Py.int g); exact H.
Qed.

Lemma services_step_probes e service acc :
  only_probes (snd acc) (snd (services_step e service acc)).
Proof.
  destruct acc as [services w]. unfold services_step.
  pose proof (check_service_status_probes e service w) as H1.
  destruct (check_service_status e service w) as [is_running w1].
  pose proof (get_service_restart_count_probes e service w1) as H2.
  destruct (get_service_restart_count e service w1) as [restart_count w2].
  cbn [snd] in *. apply only_probes_with_metrics.
  now apply only_probes_trans with w1.
Qed.

Lemma get_services_status_snd e w :
  snd (get_services_status e w)
  = snd (fold_left (fun acc service => services_step e service acc)
                   [ ("statime" : str); ("inferno" : str);
                     ("inferno-srt" : str) ]
                   ([], w)).
Proof.
  unfold get_services_status.
  now destruct (fold_left _ _ _).
Qed.

Lemma three_probes e w :
  only_probes w
    (snd (check_service_status e "inferno-srt"
            (snd (check_service_status e "inferno"
                    (snd (check_service_status e "statime" w)))))).
Proof.
  eapply only_probes_trans; [|apply check_service_status_probes].
  eapply only_probes_trans; [|apply check_service_status_probes].
  apply check_service_status_probes.
Qed.

Lemma handle_get_probes e r w :
  is_post r = false -> only_probes w (snd (handle e r w)).
Proof.
  intros Hr. destruct r; try discriminate Hr; cbn [handle answered snd].
  - (* health *)
    unfold health_check. pose proof (three_probes e w) as H.
    destruct (check_service_status e "statime" w) as [b1 w1].
    cbn [snd] in H.
    destruct (check_service_status e "inferno" w1) as [b2 w2].
    cbn [snd] in H.
    destruct (check_service_status e "inferno-srt" w2) as [b3 w3].
    cbn [snd] in H.
    exact H.
  - (* status *)
    unfold get_status.
    destruct (load_config e) as [cfg|x]; [|exact (only_probes_refl w)].
    pose proof (three_probes e w) as H.
    destruct (check_service_status e "statime" w) as [b1 w1].
    cbn [snd] in H.
    destruct (check_service_status e "inferno" w1) as [b2 w2].
    cbn [snd] in H.
    destruct (check_service_status e "inferno-srt" w2) as [b3 w3].
    cbn [snd] in H.
    destruct (parse_statime_log e (metrics w3)) as [p m1].
    destruct (parse_srt_log e m1) as [s m2].
    exact H.
  - (* services *)
    rewrite get_services_status_snd. cbn [fold_left].
    eapply only_probes_trans; [|apply services_step_probes].
    eapply only_probes_trans; [|apply services_step_probes].
    apply (services_step_probes e "statime" ([], w)).
  - (* audio status *)
    unfold get_audio_status.
    destruct (load_config e) as [cfg|x]; [|exact (only_probes_refl w)].
    destruct (config_rx_channels cfg) as [n|x]; [|exact (only_probes_refl w)].
    destruct (fold_left _ _ _) as [channels m]. exact (only_probes_refl w).
  - (* audio output *)
    unfold get_audio_output.
    pose proof (check_service_status_probes e "inferno-audio-out" w) as H.
    destruct (check_service_status e "inferno-audio-out" w) as [b w1].
    exact H.
  - (* ptp *)
    unfold get_ptp_status.
    destruct (parse_statime_log e (metrics w)) as [p m].
    exact (only_probes_refl w).
  - (* srt *)
    unfold get_srt_status.
    destruct (parse_srt_log e (metrics w)) as [s m].
    destruct (load_config e); [destruct (_ || _)|];
      exact (only_probes_refl w).
  - (* network *)
    unfold get_network_status.
    destruct (load_config e) as [cfg|x]; [|exact (only_probes_refl w)].
    destruct (loss_rate _ _); exact (only_probes_refl w).
  - (* metrics *)
    exact (only_probes_refl w).
Qed.

Lemma no_command w : at_most_one_control w w.
Proof. exists []. split; [now rewrite app_nil_r | now left]. Qed.

Lemma no_command_run w w' :
  commands w' = commands w -> at_most_one_control w w'.
Proof.
  intros H. exists []. split; [now rewrite app_nil_r | now left].
Qed.

Lemma one_command verb w m f :
  In verb control_verbs ->
  at_most_one_control w
    {| metrics := m; audio_out_config := f;
       commands := commands w ++ [control_command verb] |}.
Proof.
  intros H. exists [control_command verb]. split; [reflexivity|].
  right. now exists verb.
Qed.

Lemma set_audio_output_commands e request w :
  at_most_one_control w (snd (set_audio_output e request w)).
Proof.
  unfold set_audio_output.
  destruct (negb (valid_device (device request))); [apply no_command|].
  destruct (stereo_pair request <? 1); [apply no_command|].
  destruct (live_rx_channels e) as [rx|x]; [|apply no_command].
  destruct (max_pairs rx <? stereo_pair request); [apply no_command|].
  unfold write_audio_output_config.
  destruct (audio_out_write e); cbn [negb];
    [|apply no_command | now apply no_command_run].
  unfold run_checked, run. cbn [metrics audio_out_config commands].
  assert (H : In (set_verb (enabled request)) control_verbs).
  { unfold set_verb, control_verbs. cbn [In].
    destruct (enabled request); auto. }
  destruct (systemctl e _) as [p|x]; cbn [mbind outcome_bind].
  - destruct (returncode p =? 0); cbn [snd];
      apply (one_command (set_verb (enabled request))); exact H.
  - destruct x; cbn [snd];
      apply (one_command (set_verb (enabled request))); exact H.
Qed.

Lemma toggle_audio_output_commands e w :
  at_most_one_control w (snd (toggle_audio_output e w)).
Proof.
  unfold toggle_audio_output, write_audio_output_config.
  destruct (audio_out_write e); cbn [negb];
    [|apply no_command | now apply no_command_run].
  unfold run_checked, run. cbn [metrics audio_out_config commands].
  set (c := Out.set_enabled _ _).
  assert (H : In (toggle_verb (Out.enabled c)) control_verbs).
  { unfold toggle_verb, control_verbs. cbn [In].
    destruct (Out.enabled c); auto. }
  destruct (systemctl e _) as [p|x]; cbn [mbind outcome_bind].
  - destruct (returncode p =? 0); cbn [snd];
      apply (one_command (toggle_verb (Out.enabled c))); exact H.
  - cbn [snd]. apply (one_command (toggle_verb (Out.enabled c))); exact H.
Qed.

(** X19.  What a request does to the appliance.  A GET request leaves the
    routing file as it is and runs nothing but queries: systemctl is-active,
    or systemctl show with the restart-count property.  A POST request runs
    at most one command, and that command is systemctl restart, start or
    stop on the output service. *)
Theorem X19_requests_run_only_systemctl (e : env) (r : request) (w : world) :
  if is_post r
  then at_most_one_control w (snd (handle e r w))
  else only_probes w (snd (handle e r w)).
Proof.
  destruct (is_post r) eqn:Hr.
  - destruct r; try discriminate Hr; cbn [handle answered snd].
    + apply set_audio_output_commands.
    + apply toggle_audio_output_commands.
  - now apply handle_get_probes.
Qed.

(** ** The counters *)

Lemma services_step_restarts_zero e service acc :
  (forall label, value service_restarts label (metrics (snd acc)) = 0%Q) ->
  forall label,
    value service_restarts label (metrics (snd (services_step e service acc)))
    = 0%Q.
Proof.
  intros H label. destruct acc as [services w]. unfold services_step.
  pose proof (fun l => check_service_status_frame e service w
                         service_restarts l) as Hc.
  destruct (check_service_status e service w) as [is_running w1].
  pose proof (get_service_restart_count_metrics e service w1) as Hr.
  destruct (get_service_restart_count e service w1) as [restart_count w2].
  cbn [snd] in *. rewrite inc_zero. cbn [metrics with_metrics].
  assert (Hz : forall l, value service_restarts l (metrics w2) = 0%Q).
  { intros l. rewrite Hr, Hc by names_differ. apply H. }
  destruct (decide (service = label)) as [<- | Hne].
  - rewrite value_set_eq, Hz. reflexivity.
  - rewrite value_set_other by congruence. apply Hz.
Qed.

Lemma not_written metric r :
  In metric [ silence_events; ptp_master_changes; Metrics.packets_received;
              Metrics.packets_lost ] ->
  ~ In metric (written_by r).
Proof.
  cbn [In]. intros [<- | [<- | [<- | [<- | []]]]];
    destruct r; cbn [written_by In];
    intros Hin; repeat destruct Hin as [Hin | Hin];
    try contradiction; vm_compute in Hin; discriminate Hin.
Qed.

Lemma handle_keeps_counters e r w metric :
  In metric counters ->
  (forall label, value metric label (metrics w) = 0%Q) ->
  forall label, value metric label (metrics (snd (handle e r w))) = 0%Q.
Proof.
  unfold counters. intros [<- | Hin] H label.
  - destruct r;
      try (rewrite handle_frame;
           [apply H
           | cbn [written_by In]; intros Hin;
             repeat destruct Hin as [Hin | Hin];
             try contradiction; vm_compute in Hin; discriminate Hin]).
    cbn [handle answered snd]. rewrite get_services_status_snd.
    cbn [fold_left].
    revert label. apply services_step_restarts_zero.
    apply services_step_restarts_zero.
    now apply services_step_restarts_zero.
  - rewrite handle_frame; [apply H | now apply not_written].
Qed.

Lemma startup_counters e routing metric label :
  In metric counters ->
  value metric label (metrics (startup e routing)) = 0%Q.
Proof.
  intros Hin. unfold startup. cbn [fold_left].
  assert (Hne : service_up <> metric).
  { unfold counters in Hin. cbn [In] in Hin.
    destruct Hin as [<- | [<- | [<- | [<- | [<- | []]]]]]; names_differ. }
  rewrite !check_service_status_frame by exact Hne.
  reflexivity.
Qed.

(** X20.  The counters never count: after start-up and any history of
    requests, in whatever state the appliance was at each of them, every
    series of the restart counter, the silence-event counter, the
    master-change counter and the two packet counters reads 0. *)
Theorem X20_counters_stay_at_zero (history : list (env * request))
    (e : env) (routing : file) (metric label : str) :
  In metric counters ->
  value metric label (metrics (serve history (startup e routing))) = 0%Q.
Proof.
  intros Hin.
  assert (H : forall w,
            (forall l, value metric l (metrics w) = 0%Q) ->
            forall l, value metric l (metrics (serve history w)) = 0%Q).
  { induction history as [|[e1 r] history IH]; intros w Hw; [exact Hw|].
    apply IH. now apply handle_keeps_counters. }
  apply H. intros l. now apply startup_counters.
Qed.

Lemma X20_counters_stay_at_zero_witness :
  value service_restarts "inferno"
    (metrics (serve [ (restarted, GET_status_services);
                      (no_loss, GET_network_status) ]
                    (startup restarted Missing)))
  = 0%Q.
Proof.
  apply (X20_counters_stay_at_zero
           [ (restarted, GET_status_services); (no_loss, GET_network_status) ]
           restarted Missing service_restarts "inferno").
  unfold counters. cbn [In]. left. reflexivity.
Defined.

(** ** The installation file and the views *)



(** X22.  When the installation file ends with the header of section
    inferno and a value for rx_channels that is not an integer, the audio
    view does not answer: the conversion raises ValueError, which nothing
    catches (status 500), and the process state is as before; the same
    happens to a POST /audio/output with a valid device and a stereo pair of
    at least 1, which writes nothing and runs nothing. *)
Theorem X22_channel_count_must_be_an_integer (e : env) (w : world)
    (before value : str) (n1 n2 : nat) (request : AudioOutputConfig) :
  complete before = true ->
  forallb plain value = true -> value <> [] ->
  Py.int value = Raise ValueError ->
  config_file e
  = Content (before ++ section_line "inferno"
                    ++ key_line "rx_channels" n1 n2 value) ->
  live_rx_channels e = Raise ValueError /\
  get_audio_status e w = (Unhandled ValueError, w) /\
  (valid_device (device request) = true -> 1 <= stereo_pair request ->
   set_audio_output e request w = (Unhandled ValueError, w)).
Proof.
  intros Hb Hv Hne Hint Hfile.
  assert (Hload : exists cfg, load_config e = Ok cfg /\
                              config_rx_channels cfg = Raise ValueError).
  { eexists. split.
    - unfold load_config. rewrite Hfile.
      change (fold_left _ (Py.splitlines ?t) (∅, None)) with (config_after t).
      rewrite config_after_section_key;
        [reflexivity | assumption | reflexivity | discriminate
        | reflexivity | reflexivity | assumption | assumption].
    - unfold config_rx_channels. cbn [fst].
      rewrite lookup_insert_eq. cbn [default from_option id].
      rewrite lookup_insert_eq. exact Hint. }
  destruct Hload as (cfg & Hcfg & Hrx).
  assert (Hlive : live_rx_channels e = Raise ValueError).
  { unfold live_rx_channels. rewrite Hcfg. exact Hrx. }
  split; [exact Hlive|]. split.
  - unfold get_audio_status. rewrite Hcfg, Hrx. reflexivity.
  - intros Hd Hpair. unfold set_audio_output. rewrite Hd. cbn [negb].
    destruct (Z.ltb_spec (stereo_pair request) 1) as [|_]; [lia|].
    now rewrite Hlive.
Qed.

Lemma X22_channel_count_must_be_an_integer_witness :
  live_rx_channels misconfigured = Raise ValueError /\
  get_audio_status misconfigured fresh = (Unhandled ValueError, fresh) /\
  (valid_device ("hdmi" : str) = true -> 1 <= 1 ->
   set_audio_output misconfigured
     {| enabled := true; device := "hdmi"; stereo_pair := 1 |} fresh
   = (Unhandled ValueError, fresh)).
Proof.
  apply (X22_channel_count_must_be_an_integer misconfigured fresh [] "many"
           1 1 {| enabled := true; device := "hdmi"; stereo_pair := 1 |});
    try reflexivity.
  discriminate.
Defined.

(** ** Start-up *)

Lemma check_service_status_commands e name w :
  commands (snd (check_service_status e name w))
  = commands w ++ [is_active_command name].
Proof.
  unfold check_service_status, run, is_active_command.
  now destruct (systemctl e _).
Qed.

(** X23.  At start-up the three services are queried once each, in the
    order statime, inferno, inferno-srt, and nothing else is run; the
    routing file is not touched; afterwards the service_up gauge of each of
    the three shows whether systemd called it active, and every other series
    of the registry reads 0. *)
Theorem X23_startup_probes_the_three_services (e : env) (routing : file) :
  commands (startup e routing)
  = [ is_active_command "statime"; is_active_command "inferno";
      is_active_command "inferno-srt" ] /\
  audio_out_config (startup e routing) = routing /\
  (forall service,
     In service [ ("statime" : str); ("inferno" : str); ("inferno-srt" : str) ] ->
     value service_up service (metrics (startup e routing))
     = of_bool (probe_active e service)) /\
  (forall metric label,
     metric <> service_up ->
     value metric label (metrics (startup e routing)) = 0%Q).
Proof.
  unfold startup. cbn [fold_left]. split; [|split; [|split]].
  - now rewrite !check_service_status_commands.
  - now rewrite !check_service_status_files.
  - intros service Hin. cbn [In] in Hin.
    destruct Hin as [<- | [<- | [<- | []]]].
    + rewrite !check_service_status_other
        by (intros H; vm_compute in H; discriminate H).
      now rewrite check_service_status_up, check_service_status_result.
    + rewrite check_service_status_other
        by (intros H; vm_compute in H; discriminate H).
      now rewrite check_service_status_up, check_service_status_result.
    + now rewrite check_service_status_up, check_service_status_result.
  - intros metric label Hne.
    rewrite !check_service_status_frame by congruence.
    reflexivity.
Qed.
